(** * Batch annotation route ([src/app/api/generate/route.ts])

    A shallow embedding of the request handler [POST] and of its helpers
    [getEnvKeys], [parseClientKeys], [pickKey] and [ensureText], followed by
    the properties of the handler.

    JavaScript strings are sequences of UTF-16 code units; they are modelled
    as lists of code units ([N]).  Values the handler obtains from outside
    (the staging directory, random identifiers, the answers of the upload and
    generation calls, the outcome of file operations) are read from an
    explicit [World]. *)

From Stdlib Require Import String Ascii.
From Stdlib Require Import List NArith Bool Arith Lia.
Import ListNotations.

(** ** JavaScript strings *)

Definition jsstring := list N.

(** An ASCII literal as a JavaScript string. *)
Definition lit (s : string) : jsstring :=
  map N_of_ascii (list_ascii_of_string s).

Fixpoint jsstring_eqb (a b : jsstring) : bool :=
  match a, b with
  | [], [] => true
  | x :: a', y :: b' => N.eqb x y && jsstring_eqb a' b'
  | _, _ => false
  end.

(** [Boolean(s)] for a string: every string but the empty one is truthy. *)
Definition truthy (s : jsstring) : bool :=
  match s with
  | [] => false
  | _ :: _ => true
  end.

(** The code units matched by [\s] in a regular expression and stripped by
    [String.prototype.trim]: WhiteSpace and LineTerminator of ECMA-262
    (TAB, LF, VT, FF, CR, SP, NBSP, U+1680, U+2000..U+200A, LS, PS, U+202F,
    U+205F, U+3000, U+FEFF). *)
Definition isWhiteSpace (c : N) : bool :=
  ((9 <=? c) && (c <=? 13)
   || (c =? 32) || (c =? 160) || (c =? 5760)
   || (8192 <=? c) && (c <=? 8202)
   || (c =? 8232) || (c =? 8233) || (c =? 8239) || (c =? 8287)
   || (c =? 12288) || (c =? 65279))%N.

Fixpoint trimStart (s : jsstring) : jsstring :=
  match s with
  | [] => []
  | c :: r => if isWhiteSpace c then trimStart r else s
  end.

Definition trimEnd (s : jsstring) : jsstring := rev (trimStart (rev s)).

(** [s.trim()] *)
Definition trim (s : jsstring) : jsstring := trimEnd (trimStart s).

(** [parts.join(sep)] *)
Fixpoint join (sep : jsstring) (parts : list jsstring) : jsstring :=
  match parts with
  | [] => []
  | [p] => p
  | p :: rest => p ++ sep ++ join sep rest
  end.

(** [o ?? d] *)
Definition nullish_or {A : Type} (o : option A) (d : A) : A :=
  match o with
  | Some a => a
  | None => d
  end.

(** [l.length] used as a condition: an array is taken when it is not
    empty. *)
Definition truthy_list {A : Type} (l : list A) : bool :=
  match l with
  | [] => false
  | _ :: _ => true
  end.

(** ** [getEnvKeys] *)

(** The character class [[,;\s]] of the separator expression. *)
Definition isKeySeparator (c : N) : bool :=
  ((c =? 44) || (c =? 59))%N || isWhiteSpace c.

(** [raw.split(/[,;\s]+/)]: the pieces between the maximal runs of separator
    characters.  A leading or a trailing run leaves an empty piece, and the
    empty string splits into one empty piece.  [piece] holds the piece being
    read, last character first; [inRun] tells that the previous character was
    a separator. *)
Fixpoint split_from (piece : jsstring) (inRun : bool) (s : jsstring)
  : list jsstring :=
  match s with
  | [] => [rev piece]
  | c :: r =>
      if isKeySeparator c then
        if inRun then split_from [] true r
        else rev piece :: split_from [] true r
      else split_from (c :: piece) false r
  end.

Definition split_separators (raw : jsstring) : list jsstring :=
  split_from [] false raw.

(** The two variables of [process.env] the handler reads. *)
Record ProcessEnv := {
  GOOGLE_API_KEYS : option jsstring;
  GOOGLE_API_KEY : option jsstring
}.

Definition getEnvKeys (env : ProcessEnv) : list jsstring :=
  let raw :=
    join (lit ",")
      (filter truthy
         [nullish_or (GOOGLE_API_KEYS env) []; nullish_or (GOOGLE_API_KEY env) []])
  in
  filter truthy (map trim (split_separators raw)).

(** ** JSON values and [JSON.parse] *)

(** The value of a number is never inspected by the handler (only its
    type), so a number keeps its source text. *)
#[warnings="-register-all"] Inductive json :=
| JNull
| JBool (b : bool)
| JNumber (lexeme : jsstring)
| JString (s : jsstring)
| JArray (items : list json)
| JObject (members : list (jsstring * json)).

Inductive token :=
| TLBrace | TRBrace | TLBracket | TRBracket | TColon | TComma
| TString (s : jsstring)
| TNumber (lexeme : jsstring)
| TTrue | TFalse | TNull.

(** Where the lexer stands inside a number: an optional minus sign, the
    integer part (a lone zero, or digits that do not start with zero), an
    optional fraction (a dot and digits) and an optional exponent (e or E, an
    optional sign, digits). *)
Inductive numState :=
| NMinus | NZero | NInt | NDot | NFrac | NExp | NExpSign | NExpDigits.

Inductive lexState :=
| LIdle
| LString (acc : jsstring)
| LEscape (acc : jsstring)
| LUnicode (acc : jsstring) (remaining : nat) (value : N)
| LNumber (st : numState) (acc : jsstring)
| LLiteral (expected : jsstring) (tok : token).

Definition isJsonWhiteSpace (c : N) : bool :=
  ((c =? 9) || (c =? 10) || (c =? 13) || (c =? 32))%N.

Definition isDigit (c : N) : bool := ((48 <=? c) && (c <=? 57))%N.

Definition hexDigit (c : N) : option N :=
  if isDigit c then Some (c - 48)%N
  else if ((97 <=? c) && (c <=? 102))%N then Some (c - 87)%N
  else if ((65 <=? c) && (c <=? 70))%N then Some (c - 55)%N
  else None.

Definition numStep (st : numState) (c : N) : option numState :=
  let exponent := ((c =? 101) || (c =? 69))%N in
  match st with
  | NMinus =>
      if (c =? 48)%N then Some NZero
      else if isDigit c then Some NInt else None
  | NZero =>
      if (c =? 46)%N then Some NDot
      else if exponent then Some NExp else None
  | NInt =>
      if isDigit c then Some NInt
      else if (c =? 46)%N then Some NDot
      else if exponent then Some NExp else None
  | NDot => if isDigit c then Some NFrac else None
  | NFrac =>
      if isDigit c then Some NFrac
      else if exponent then Some NExp else None
  | NExp =>
      if ((c =? 43) || (c =? 45))%N then Some NExpSign
      else if isDigit c then Some NExpDigits else None
  | NExpSign => if isDigit c then Some NExpDigits else None
  | NExpDigits => if isDigit c then Some NExpDigits else None
  end.

Definition numAccepting (st : numState) : bool :=
  match st with
  | NZero | NInt | NFrac | NExpDigits => true
  | _ => false
  end.

(** One character read between two tokens. *)
Definition lexIdle (c : N) : option (list token * lexState) :=
  if isJsonWhiteSpace c then Some ([], LIdle)
  else if (c =? 123)%N then Some ([TLBrace], LIdle)
  else if (c =? 125)%N then Some ([TRBrace], LIdle)
  else if (c =? 91)%N then Some ([TLBracket], LIdle)
  else if (c =? 93)%N then Some ([TRBracket], LIdle)
  else if (c =? 58)%N then Some ([TColon], LIdle)
  else if (c =? 44)%N then Some ([TComma], LIdle)
  else if (c =? 34)%N then Some ([], LString [])
  else if (c =? 116)%N then Some ([], LLiteral (lit "rue") TTrue)
  else if (c =? 102)%N then Some ([], LLiteral (lit "alse") TFalse)
  else if (c =? 110)%N then Some ([], LLiteral (lit "ull") TNull)
  else if (c =? 45)%N then Some ([], LNumber NMinus [c])
  else if (c =? 48)%N then Some ([], LNumber NZero [c])
  else if isDigit c then Some ([], LNumber NInt [c])
  else None.

(** The character an escape letter stands for. *)
Definition escapeChar (c : N) : option N :=
  if (c =? 34)%N then Some 34%N
  else if (c =? 92)%N then Some 92%N
  else if (c =? 47)%N then Some 47%N
  else if (c =? 98)%N then Some 8%N
  else if (c =? 102)%N then Some 12%N
  else if (c =? 110)%N then Some 10%N
  else if (c =? 114)%N then Some 13%N
  else if (c =? 116)%N then Some 9%N
  else None.

Definition lexStep (st : lexState) (c : N) : option (list token * lexState) :=
  match st with
  | LIdle => lexIdle c
  | LString acc =>
      if (c =? 34)%N then Some ([TString (rev acc)], LIdle)
      else if (c =? 92)%N then Some ([], LEscape acc)
      else if (c <? 32)%N then None
      else Some ([], LString (c :: acc))
  | LEscape acc =>
      if (c =? 117)%N then Some ([], LUnicode acc 4 0%N)
      else
        match escapeChar c with
        | Some e => Some ([], LString (e :: acc))
        | None => None
        end
  | LUnicode acc remaining value =>
      match hexDigit c with
      | None => None
      | Some d =>
          let value' := (value * 16 + d)%N in
          match remaining with
          | 0 => None
          | 1 => Some ([], LString (value' :: acc))
          | S k => Some ([], LUnicode acc k value')
          end
      end
  | LNumber ns acc =>
      match numStep ns c with
      | Some ns' => Some ([], LNumber ns' (c :: acc))
      | None =>
          if numAccepting ns then
            match lexIdle c with
            | Some (ts, st') => Some (TNumber (rev acc) :: ts, st')
            | None => None
            end
          else None
      end
  | LLiteral expected tok =>
      match expected with
      | [] => None
      | e :: rest =>
          if (c =? e)%N then
            match rest with
            | [] => Some ([tok], LIdle)
            | _ :: _ => Some ([], LLiteral rest tok)
            end
          else None
      end
  end.

Fixpoint lex (st : lexState) (s : jsstring) : option (list token) :=
  match s with
  | [] =>
      match st with
      | LIdle => Some []
      | LNumber ns acc =>
          if numAccepting ns then Some [TNumber (rev acc)] else None
      | _ => None
      end
  | c :: r =>
      match lexStep st c with
      | None => None
      | Some (ts, st') => option_map (app ts) (lex st' r)
      end
  end.

(** The parser is a stack machine over the tokens: a frame is an array or an
    object whose next element is being read. *)
Inductive frame :=
| FArray (acc : list json)
| FObject (acc : list (jsstring * json)) (key : jsstring).

Inductive pmode :=
| PValue
| PValueOrEnd
| PKeyOrEnd
| PKey (acc : list (jsstring * json))
| PColon (acc : list (jsstring * json)) (key : jsstring)
| PAfter (v : json).

Definition startValue (t : token) (stack : list frame)
  : option (pmode * list frame) :=
  match t with
  | TString s => Some (PAfter (JString s), stack)
  | TNumber n => Some (PAfter (JNumber n), stack)
  | TTrue => Some (PAfter (JBool true), stack)
  | TFalse => Some (PAfter (JBool false), stack)
  | TNull => Some (PAfter JNull, stack)
  | TLBracket => Some (PValueOrEnd, FArray [] :: stack)
  | TLBrace => Some (PKeyOrEnd, stack)
  | _ => None
  end.

Definition parseStep (m : pmode) (stack : list frame) (t : token)
  : option (pmode * list frame) :=
  match m with
  | PValue => startValue t stack
  | PValueOrEnd =>
      match t, stack with
      | TRBracket, FArray acc :: st => Some (PAfter (JArray (rev acc)), st)
      | _, _ => startValue t stack
      end
  | PKeyOrEnd =>
      match t with
      | TRBrace => Some (PAfter (JObject []), stack)
      | TString k => Some (PColon [] k, stack)
      | _ => None
      end
  | PKey acc =>
      match t with
      | TString k => Some (PColon acc k, stack)
      | _ => None
      end
  | PColon acc k =>
      match t with
      | TColon => Some (PValue, FObject acc k :: stack)
      | _ => None
      end
  | PAfter v =>
      match stack, t with
      | FArray acc :: st, TComma => Some (PValue, FArray (v :: acc) :: st)
      | FArray acc :: st, TRBracket =>
          Some (PAfter (JArray (rev (v :: acc))), st)
      | FObject acc k :: st, TComma => Some (PKey ((k, v) :: acc), st)
      | FObject acc k :: st, TRBrace =>
          Some (PAfter (JObject (rev ((k, v) :: acc))), st)
      | _, _ => None
      end
  end.

Fixpoint parseTokens (m : pmode) (stack : list frame) (ts : list token)
  : option json :=
  match ts with
  | [] =>
      match m, stack with
      | PAfter v, [] => Some v
      | _, _ => None
      end
  | t :: rest =>
      match parseStep m stack t with
      | Some (m', stack') => parseTokens m' stack' rest
      | None => None
      end
  end.

(** [JSON.parse(text)]; [None] stands for the [SyntaxError] it throws. *)
Definition JSON_parse (text : jsstring) : option json :=
  match lex LIdle text with
  | Some ts => parseTokens PValue [] ts
  | None => None
  end.

(** [quoted s] is [s] between two double quotes, for writing JSON text. *)
Definition quoted (s : jsstring) : jsstring := (34%N :: s) ++ [34%N].

(** The decimal digits of an array index, as property keys are written. *)
Fixpoint digitsOf (u : Decimal.uint) : jsstring :=
  match u with
  | Decimal.Nil => []
  | Decimal.D0 r => 48%N :: digitsOf r
  | Decimal.D1 r => 49%N :: digitsOf r
  | Decimal.D2 r => 50%N :: digitsOf r
  | Decimal.D3 r => 51%N :: digitsOf r
  | Decimal.D4 r => 52%N :: digitsOf r
  | Decimal.D5 r => 53%N :: digitsOf r
  | Decimal.D6 r => 54%N :: digitsOf r
  | Decimal.D7 r => 55%N :: digitsOf r
  | Decimal.D8 r => 56%N :: digitsOf r
  | Decimal.D9 r => 57%N :: digitsOf r
  end.

Definition indexKey (i : nat) : jsstring := digitsOf (Nat.to_uint i).

(** The own property [k] of a parsed object: the last member of that name. *)
Fixpoint getProperty (members : list (jsstring * json)) (k : jsstring)
  : option json :=
  match members with
  | [] => None
  | (k', v) :: rest =>
      match getProperty rest k with
      | Some later => Some later
      | None => if jsstring_eqb k' k then Some v else None
      end
  end.

(** ** Values thrown and awaited *)

(** What a [catch] clause can receive: an [Error] with its message, or any
    other value. *)
Inductive Thrown :=
| ErrorObject (message : jsstring)
| NonError.

(** A [TypeError] raised by the engine is an [Error]; its message is the
    engine's own wording.  The handler raises one only outside its [try]
    block, where the message is never read. *)
Definition typeError (description : string) : Thrown :=
  ErrorObject (lit description).

Inductive Outcome (A : Type) :=
| Resolved (a : A)
| Rejected (e : Thrown).

Arguments Resolved {A} a.
Arguments Rejected {A} e.

(** ** The data of the route *)

Module File.
(** An uploaded [File]: [file.name], [file.type] and the bytes that
    [file.arrayBuffer()] resolves to. *)
Record t := {
  name : jsstring;
  type : jsstring;
  bytes : list N
}.
End File.

Inductive FormDataEntryValue :=
| EntryString (s : jsstring)
| EntryFile (f : File.t).

(** A multipart form: its fields in the order they were sent. *)
Definition FormData := list (jsstring * FormDataEntryValue).

(** [formData.get(name)]: the first value of that name, or [null]. *)
Fixpoint formData_get (formData : FormData) (field : jsstring)
  : option FormDataEntryValue :=
  match formData with
  | [] => None
  | (k, v) :: rest =>
      if jsstring_eqb k field then Some v else formData_get rest field
  end.

(** [formData.getAll(name)] *)
Fixpoint formData_getAll (formData : FormData) (field : jsstring)
  : list FormDataEntryValue :=
  match formData with
  | [] => []
  | (k, v) :: rest =>
      if jsstring_eqb k field then v :: formData_getAll rest field
      else formData_getAll rest field
  end.

(** [entries.filter((file) => file instanceof File)] *)
Fixpoint onlyFiles (entries : list FormDataEntryValue) : list File.t :=
  match entries with
  | [] => []
  | EntryFile f :: rest => f :: onlyFiles rest
  | EntryString _ :: rest => onlyFiles rest
  end.

(** [String(entry)], the conversion [JSON.parse] applies to its argument. *)
Definition entryToString (entry : FormDataEntryValue) : jsstring :=
  match entry with
  | EntryString s => s
  | EntryFile _ => lit "[object File]"
  end.

Module UploadResponse.
(** The [file] member of the wrapped shape. *)
Record file_t := {
  file_uri : jsstring;
  file_mimeType : jsstring
}.
Record t := {
  file : option file_t;
  uri : option jsstring;
  mimeType : option jsstring
}.
End UploadResponse.

Module Gemini.
(** [GeminiContentPart], [GeminiCandidate] and [GeminiResponse]. *)
Record ContentPart := { part_text : option jsstring }.
Record Content := { parts : option (list ContentPart) }.
Record Candidate := { content : option Content }.
Record Envelope := { envelope_candidates : option (list Candidate) }.

(** [text?: string | (() => string)]; a function is given by what calling
    it does. *)
Inductive Text :=
| TextString (s : jsstring)
| TextFunction (call : Outcome jsstring).

Record Response := {
  text : option Text;
  response : option Envelope;
  candidates : option (list Candidate)
}.
End Gemini.

Module ResultEntry.
Record t := {
  filename : jsstring;
  prompt : jsstring;
  text : option jsstring;
  error : option jsstring
}.
End ResultEntry.

Inductive ResponseBody :=
| ErrorBody (error : jsstring)
| ResultsBody (results : list ResultEntry.t).

(** [NextResponse.json(body, { status })] *)
Record Response := {
  status : nat;
  body : ResponseBody
}.

(** ** The string literals of the handler (Thai text, as code units) *)

(** "At least one image must be uploaded." *)
Definition noImagesMessage : jsstring :=
  [3605; 3657; 3629; 3591; 3629; 3633; 3611; 3650; 3627; 3621; 3604; 3619;
   3641; 3611; 3629; 3618; 3656; 3634; 3591; 3609; 3657; 3629; 3618; 32; 49;
   32; 3619; 3641; 3611]%N.

(** "The prompt data has a wrong format." *)
Definition malformedPromptsMessage : jsstring :=
  [3619; 3641; 3611; 3649; 3610; 3610; 3586; 3657; 3629; 3617; 3641; 3621;
   32; 112; 114; 111; 109; 112; 116; 32; 3652; 3617; 3656; 3606; 3641; 3585;
   3605; 3657; 3629; 3591]%N.

(** "Describe the details of this picture." *)
Definition defaultPromptLiteral : jsstring :=
  [3610; 3619; 3619; 3618; 3634; 3618; 3619; 3634; 3618; 3621; 3632; 3648;
   3629; 3637; 3618; 3604; 3586; 3629; 3591; 3616; 3634; 3614; 3609; 3637;
   3657]%N.

Definition defaultModelLiteral : jsstring := lit "gemini-2.5-flash".

(** "No API key found; set one in .env or in the form." *)
Definition noKeysMessage : jsstring :=
  [3652; 3617; 3656; 3614; 3610; 32; 65; 80; 73; 32; 107; 101; 121; 32; 3585;
   3619; 3640; 3603; 3634; 3585; 3635; 3627; 3609; 3604; 3651; 3609; 32; 46;
   101; 110; 118; 32; 3627; 3619; 3639; 3629; 3615; 3629; 3619; 3660;
   3617]%N.

(** "Unable to upload the file to Gemini." *)
Definition uploadFailedMessage : jsstring :=
  [3652; 3617; 3656; 3626; 3634; 3617; 3634; 3619; 3606; 3629; 3633; 3611;
   3650; 3627; 3621; 3604; 3652; 3615; 3621; 3660; 3652; 3611; 3618; 3633;
   3591; 32; 71; 101; 109; 105; 110; 105; 32; 3652; 3604; 3657]%N.

(** "An error occurred." *)
Definition genericErrorMessage : jsstring :=
  [3648; 3585; 3636; 3604; 3586; 3657; 3629; 3612; 3636; 3604; 3614; 3621;
   3634; 3604]%N.

(** ** [parseClientKeys], [pickKey], [ensureText] *)

Definition parseClientKeys (raw : option FormDataEntryValue)
  : list jsstring :=
  match raw with
  | Some (EntryString s) =>
      if truthy s then
        match JSON_parse s with
        | Some (JArray parsed) =>
            filter truthy
              (map (fun key =>
                      match key with
                      | JString k => trim k
                      | _ => []
                      end)
                 parsed)
        | _ => []
        end
      else []
  | _ => []
  end.

(** [keys[Math.floor(Math.random() * keys.length)]].  The product is a
    floating-point one; [r] is the index the floor yields, and an index
    outside the array reads [undefined]. *)
Definition pickKey (keys : list jsstring) (r : nat) : option jsstring :=
  nth_error keys r.

(** [candidates?.[0]?.content?.parts] *)
Definition firstParts (candidates : option (list Gemini.Candidate))
  : option (list Gemini.ContentPart) :=
  match candidates with
  | Some (first :: _) =>
      match Gemini.content first with
      | Some c => Gemini.parts c
      | None => None
      end
  | _ => None
  end.

Definition ensureText (response : option Gemini.Response) : Outcome jsstring :=
  match response with
  | None => Resolved []
  | Some r =>
      match Gemini.text r with
      | Some (Gemini.TextFunction call) => call
      | Some (Gemini.TextString s) => Resolved s
      | None =>
          let parts :=
            nullish_or
              (match
                  match Gemini.response r with
                  | Some e => firstParts (Gemini.envelope_candidates e)
                  | None => None
                  end
                with
                | Some ps => Some ps
                | None => firstParts (Gemini.candidates r)
                end)
              []
          in
          Resolved
            (join [10%N]
               (filter truthy
                  (map (fun part => nullish_or (Gemini.part_text part) [])
                     parts)))
      end
  end.

(** ** The world outside the handler *)

(** The calls the handler awaits on the file system and on the generation
    service, in the order it makes them. *)
Inductive Event :=
| WriteFile (path : jsstring) (data : list N)
| Upload (apiKey : option jsstring) (path : jsstring)
| GenerateContent (apiKey : option jsstring)
    (model prompt uri mimeType : jsstring)
| Unlink (path : jsstring).

(** What the world answers while one image is processed: the identifier
    [randomUUID()] returns, whether [fs.writeFile] succeeds, the index
    [Math.floor(Math.random() * keys.length)], the answers of
    [ai.files.upload] and [ai.models.generateContent], and whether
    [fs.unlink] succeeds.  Reading the bytes of the file and building the
    client are taken not to throw. *)
Record ItemWorld := {
  randomUUID : jsstring;
  writeFile : Outcome unit;
  random : nat;
  upload : Outcome UploadResponse.t;
  generateContent : Outcome (option Gemini.Response);
  unlink : Outcome unit
}.

(** [tmpdir()], the platform's [path.join], and the answers for the image
    at each index. *)
Record World := {
  tmpdir : jsstring;
  path_join : jsstring -> jsstring -> jsstring;
  item : nat -> ItemWorld
}.

(** ** The handler's monad: state, calls and exceptions *)

(** The [results] array of the handler and the calls made so far. *)
Record State := {
  results : list ResultEntry.t;
  trace : list Event
}.

Definition M (A : Type) : Type := State -> State * Outcome A.

Definition ret {A : Type} (a : A) : M A := fun s => (s, Resolved a).

Definition bind {A B : Type} (m : M A) (k : A -> M B) : M B :=
  fun s =>
    match m s with
    | (s', Resolved a) => k a s'
    | (s', Rejected e) => (s', Rejected e)
    end.

Notation "x <- m ;; k" := (bind m (fun x => k))
  (at level 61, m at next level, right associativity).

Definition throw {A : Type} (e : Thrown) : M A := fun s => (s, Rejected e).

Definition liftOutcome {A : Type} (o : Outcome A) : M A := fun s => (s, o).

(** [await] of a call to the outside: the call is recorded, and the world's
    answer is its result. *)
Definition await {A : Type} (call : Event) (answer : Outcome A) : M A :=
  fun s => ({| results := results s; trace := trace s ++ [call] |}, answer).

(** [results.push(entry)] *)
Definition push (entry : ResultEntry.t) : M unit :=
  fun s =>
    ({| results := results s ++ [entry]; trace := trace s |}, Resolved tt).

(** [try { body } catch (error) { handler } finally { finalizer }] *)
Definition tryCatchFinally {A : Type}
    (body : M A) (handler : Thrown -> M A) (finalizer : M unit) : M A :=
  fun s =>
    let (s1, o1) := body s in
    let (s2, o2) :=
      match o1 with
      | Resolved a => (s1, Resolved a)
      | Rejected e => handler e s1
      end in
    let (s3, o3) := finalizer s2 in
    (s3, match o3 with
         | Resolved _ => o2
         | Rejected e => Rejected e
         end).

(** [promise.catch(() => {})] *)
Definition catchIgnore (m : M unit) : M unit :=
  fun s => (fst (m s), Resolved tt).

(** ** [POST] *)

(** [(entry as string)?.trim() || literal]: a [File] has no [trim], and
    calling it throws. *)
Definition trimOr (entry : option FormDataEntryValue) (literal : jsstring)
  : M jsstring :=
  match entry with
  | None => ret literal
  | Some (EntryString s) => ret (if truthy (trim s) then trim s else literal)
  | Some (EntryFile _) => throw (typeError "trim is not a function")
  end.

(** [prompts[index]] on whatever [JSON.parse] returned. *)
Definition getIndex (prompts : json) (index : nat) : Outcome (option json) :=
  match prompts with
  | JNull => Rejected (typeError "Cannot read properties of null")
  | JBool _ | JNumber _ => Resolved None
  | JString s =>
      Resolved (option_map (fun c => JString [c]) (nth_error s index))
  | JArray items => Resolved (nth_error items index)
  | JObject members => Resolved (getProperty members (indexKey index))
  end.

(** [prompts[index]?.trim() || defaultPrompt] *)
Definition resolvePrompt (prompts : json) (index : nat)
    (defaultPrompt : jsstring) : Outcome jsstring :=
  match getIndex prompts index with
  | Rejected e => Rejected e
  | Resolved None | Resolved (Some JNull) => Resolved defaultPrompt
  | Resolved (Some (JString own)) =>
      Resolved (if truthy (trim own) then trim own else defaultPrompt)
  | Resolved (Some _) => Rejected (typeError "trim is not a function")
  end.

(** [upload.file ?? { uri: upload.uri, mimeType: upload.mimeType ?? file.type }] *)
Record FileRef := {
  ref_uri : option jsstring;
  ref_mimeType : jsstring
}.

Definition fileRefOf (up : UploadResponse.t) (file : File.t) : FileRef :=
  match UploadResponse.file up with
  | Some f =>
      {| ref_uri := Some (UploadResponse.file_uri f);
         ref_mimeType := UploadResponse.file_mimeType f |}
  | None =>
      {| ref_uri := UploadResponse.uri up;
         ref_mimeType :=
           nullish_or (UploadResponse.mimeType up) (File.type file) |}
  end.

(** [path.join(tmpdir(), `${randomUUID()}-${file.name}`)] *)
Definition tempPathOf (w : World) (index : nat) (file : File.t) : jsstring :=
  path_join w (tmpdir w)
    (randomUUID (item w index) ++ lit "-" ++ File.name file).

(** [error instanceof Error ? error.message : <generic message>] *)
Definition errorMessage (error : Thrown) : jsstring :=
  match error with
  | ErrorObject message => message
  | NonError => genericErrorMessage
  end.

(** The [try]/[catch]/[finally] statement of the loop body. *)
Definition processItem (w : World) (allKeys : list jsstring)
    (model : jsstring) (index : nat) (file : File.t) (prompt : jsstring)
  : M unit :=
  let iw := item w index in
  let tempPath := tempPathOf w index file in
  tryCatchFinally
    (_ <- await (WriteFile tempPath (File.bytes file)) (writeFile iw) ;;
     let key := pickKey allKeys (random iw) in
     up <- await (Upload key tempPath) (upload iw) ;;
     let fileRef := fileRefOf up file in
     match ref_uri fileRef with
     | Some uri =>
         if truthy uri && truthy (ref_mimeType fileRef) then
           response <-
             await (GenerateContent key model prompt uri (ref_mimeType fileRef))
               (generateContent iw) ;;
           text <- liftOutcome (ensureText response) ;;
           push {| ResultEntry.filename := File.name file;
                   ResultEntry.prompt := prompt;
                   ResultEntry.text := Some text;
                   ResultEntry.error := None |}
         else throw (ErrorObject uploadFailedMessage)
     | None => throw (ErrorObject uploadFailedMessage)
     end)
    (fun error =>
       push {| ResultEntry.filename := File.name file;
               ResultEntry.prompt := prompt;
               ResultEntry.text := None;
               ResultEntry.error := Some (errorMessage error) |})
    (catchIgnore (await (Unlink tempPath) (unlink iw))).

(** The [for] loop: [files] are the files from [index] on. *)
Fixpoint forEachFile (w : World) (allKeys : list jsstring)
    (model defaultPrompt : jsstring) (prompts : json)
    (files : list File.t) (index : nat) : M unit :=
  match files with
  | [] => ret tt
  | file :: rest =>
      prompt <- liftOutcome (resolvePrompt prompts index defaultPrompt) ;;
      _ <- processItem w allKeys model index file prompt ;;
      forEachFile w allKeys model defaultPrompt prompts rest (S index)
  end.

Definition jsonResponse (status : nat) (body : ResponseBody) : M Response :=
  ret {| status := status; body := body |}.

(** The credential pool of a request. *)
Definition allKeysOf (env : ProcessEnv) (formData : FormData)
  : list jsstring :=
  getEnvKeys env ++ parseClientKeys (formData_get formData (lit "apiKeys")).

Definition imageFiles (formData : FormData) : list File.t :=
  onlyFiles (formData_getAll formData (lit "images")).

Definition POST (env : ProcessEnv) (w : World) (formData : FormData)
  : M Response :=
  let files := imageFiles formData in
  match files with
  | [] => jsonResponse 400 (ErrorBody noImagesMessage)
  | _ :: _ =>
      match
        JSON_parse
          (entryToString
             (nullish_or (formData_get formData (lit "prompts"))
                (EntryString (lit "[]"))))
      with
      | None => jsonResponse 400 (ErrorBody malformedPromptsMessage)
      | Some prompts =>
          defaultPrompt <-
            trimOr (formData_get formData (lit "defaultPrompt"))
              defaultPromptLiteral ;;
          model <-
            trimOr (formData_get formData (lit "model")) defaultModelLiteral ;;
          let allKeys := allKeysOf env formData in
          match allKeys with
          | [] => jsonResponse 400 (ErrorBody noKeysMessage)
          | _ :: _ =>
              _ <- forEachFile w allKeys model defaultPrompt prompts files 0 ;;
              fun s =>
                (s, Resolved {| status := 200;
                                body := ResultsBody (results s) |})
          end
      end
  end.

(** A request served from a fresh state: the final state (with the calls
    made) and either the response or the exception that escaped. *)
Definition serve (env : ProcessEnv) (w : World) (formData : FormData)
  : State * Outcome Response :=
  POST env w formData {| results := []; trace := [] |}.

(** * The page that calls the route ([src/unnamed/part_000])

    The state of the [Home] component and the handlers that change it.
    The page serialises its keys and prompts with [JSON.stringify], which
    the route reads back with [JSON.parse]. *)

(** ** [JSON.stringify] on arrays of strings *)

(** The lower-case hexadecimal digit of a number below sixteen. *)
Definition hexChar (d : N) : N :=
  if (d <? 10)%N then (48 + d)%N else (87 + d)%N.

(** The escape of a code unit: a backslash, [u] and four hexadecimal
    digits. *)
Definition unicodeEscape (c : N) : jsstring :=
  [92; 117;
   hexChar (c / 4096 mod 16); hexChar (c / 256 mod 16);
   hexChar (c / 16 mod 16); hexChar (c mod 16)]%N.

Definition isHighSurrogate (c : N) : bool :=
  ((55296 <=? c) && (c <=? 56319))%N.

Definition isLowSurrogate (c : N) : bool :=
  ((56320 <=? c) && (c <=? 57343))%N.

(** How a code unit that is not a surrogate is written inside a JSON
    string: the two-character escapes of backspace, tab, line feed, form
    feed, carriage return, the double quote and the backslash, the
    [\u] escape of the other control characters, and itself otherwise. *)
Definition quoteChar (c : N) : jsstring :=
  if (c =? 8)%N then lit "\b"
  else if (c =? 9)%N then lit "\t"
  else if (c =? 10)%N then lit "\n"
  else if (c =? 12)%N then lit "\f"
  else if (c =? 13)%N then lit "\r"
  else if (c =? 34)%N then [92; 34]%N
  else if (c =? 92)%N then [92; 92]%N
  else if (c <? 32)%N then unicodeEscape c
  else [c].

(** The characters of a string as [JSON.stringify] writes them: a high
    surrogate followed by a low one is one code point, written as it is; a
    surrogate on its own is escaped. *)
Fixpoint quoteChars (s : jsstring) : jsstring :=
  match s with
  | [] => []
  | c :: r =>
      if isHighSurrogate c then
        match r with
        | d :: r' =>
            if isLowSurrogate d then c :: d :: quoteChars r'
            else unicodeEscape c ++ quoteChars r
        | [] => unicodeEscape c
        end
      else if isLowSurrogate c then unicodeEscape c ++ quoteChars r
      else quoteChar c ++ quoteChars r
  end.

(** [JSON.stringify(s)] for a string [s]. *)
Definition JSON_stringify_string (s : jsstring) : jsstring :=
  34%N :: quoteChars s ++ [34%N].

(** [JSON.stringify(l)] for an array [l] of strings. *)
Definition JSON_stringify_strings (l : list jsstring) : jsstring :=
  lit "[" ++ join (lit ",") (map JSON_stringify_string l) ++ lit "]".

(** ** Strings given to [FormData.append] *)

(** The conversion of a string to a [USVString], which [FormData.append]
    applies to its name, to a string value and to a file name: a surrogate
    that is not part of a pair (a high one followed by a low one) becomes
    U+FFFD. *)
Fixpoint toUSVString (s : jsstring) : jsstring :=
  match s with
  | [] => []
  | c :: r =>
      if isHighSurrogate c then
        match r with
        | d :: r' =>
            if isLowSurrogate d then c :: d :: toUSVString r'
            else 65533%N :: toUSVString r
        | [] => [65533%N]
        end
      else if isLowSurrogate c then 65533%N :: toUSVString r
      else c :: toUSVString r
  end.

(** ** Splitting on a class of separators *)

(** [s.split(/[...]+/)] for the class of characters [sep], as
    [split_from] does for the separators of the route. *)
Fixpoint split_on (sep : N -> bool) (piece : jsstring) (inRun : bool)
    (s : jsstring) : list jsstring :=
  match s with
  | [] => [rev piece]
  | c :: r =>
      if sep c then
        if inRun then split_on sep [] true r
        else rev piece :: split_on sep [] true r
      else split_on sep (c :: piece) false r
  end.

(** [s.split(/[...]+/).map((key) => key.trim()).filter(Boolean)] *)
Definition tokens_on (sep : N -> bool) (s : jsstring) : list jsstring :=
  filter truthy (map trim (split_on sep [] false s)).

(** ** The component *)

Module Page.

Definition DEFAULT_PROMPT : jsstring := lit "Tell me about this instrument".

Definition DEFAULT_MODEL : jsstring := lit "gemini-2.5-flash".

(** [error instanceof Error ? error.message : <generic message>], with the
    generic message of the route. *)
Definition messageOf (error : Thrown) : jsstring := errorMessage error.

(** [SelectedImage] *)
Record SelectedImage := {
  id : jsstring;
  file : File.t;
  prompt : jsstring;
  preview : jsstring
}.

(** The seven state variables of the component. *)
Record State := {
  images : list SelectedImage;
  defaultPrompt : jsstring;
  apiKeysInput : jsstring;
  model : jsstring;
  isSubmitting : bool;
  errorMessage : option jsstring;
  results : list ResultEntry.t
}.

(** The state of the first render. *)
Definition initial : State :=
  {| images := [];
     defaultPrompt := DEFAULT_PROMPT;
     apiKeysInput := [];
     model := DEFAULT_MODEL;
     isSubmitting := false;
     errorMessage := None;
     results := [] |}.

Definition setImages (f : list SelectedImage -> list SelectedImage)
    (st : State) : State :=
  {| images := f (images st);
     defaultPrompt := defaultPrompt st;
     apiKeysInput := apiKeysInput st;
     model := model st;
     isSubmitting := isSubmitting st;
     errorMessage := errorMessage st;
     results := results st |}.

Definition setIsSubmitting (b : bool) (st : State) : State :=
  {| images := images st;
     defaultPrompt := defaultPrompt st;
     apiKeysInput := apiKeysInput st;
     model := model st;
     isSubmitting := b;
     errorMessage := errorMessage st;
     results := results st |}.

Definition setErrorMessage (m : option jsstring) (st : State) : State :=
  {| images := images st;
     defaultPrompt := defaultPrompt st;
     apiKeysInput := apiKeysInput st;
     model := model st;
     isSubmitting := isSubmitting st;
     errorMessage := m;
     results := results st |}.

Definition setResults (rs : list ResultEntry.t) (st : State) : State :=
  {| images := images st;
     defaultPrompt := defaultPrompt st;
     apiKeysInput := apiKeysInput st;
     model := model st;
     isSubmitting := isSubmitting st;
     errorMessage := errorMessage st;
     results := rs |}.

(** The class [[\n,]] of the separator expression of the keys input. *)
Definition isInputSeparator (c : N) : bool := ((c =? 10) || (c =? 44))%N.

(** [parsedKeys] *)
Definition parsedKeys (st : State) : list jsstring :=
  tokens_on isInputSeparator (apiKeysInput st).

(** [handleFiles(fileList)].  [fresh k] is what the browser gives for the
    file at position [k] of the list: the identifier [crypto.randomUUID()]
    returns and the URL [URL.createObjectURL(file)] returns. *)
Definition handleFiles (fresh : nat -> jsstring * jsstring)
    (fileList : option (list File.t)) (st : State) : State :=
  match fileList with
  | None | Some [] => st
  | Some files =>
      let next :=
        map (fun kf : nat * File.t =>
               {| id := fst (fresh (fst kf));
                  file := snd kf;
                  prompt := defaultPrompt st;
                  preview := snd (fresh (fst kf)) |})
          (combine (seq 0 (length files)) files) in
      setImages (fun prev => prev ++ next) st
  end.

(** [updatePrompt(id, value)] *)
Definition updatePrompt (target : jsstring) (value : jsstring) (st : State)
  : State :=
  setImages
    (map (fun item =>
            if jsstring_eqb (id item) target then
              {| id := id item;
                 file := file item;
                 prompt := value;
                 preview := preview item |}
            else item))
    st.

(** [removeImage(id)]: the new state and the URLs given to
    [URL.revokeObjectURL]. *)
Definition removeImage (target : jsstring) (st : State)
  : State * list jsstring :=
  (setImages
     (filter (fun image => negb (jsstring_eqb (id image) target)))
     st,
   match find (fun image => jsstring_eqb (id image) target) (images st) with
   | Some found => [preview found]
   | None => []
   end).

(** [resetState()]: the new state and the URLs given to
    [URL.revokeObjectURL]. *)
Definition resetState (st : State) : State * list jsstring :=
  (setResults [] (setImages (fun _ => []) st), map preview (images st)).

(** "Please choose at least one image file." *)
Definition noSelectionMessage : jsstring :=
  [3585; 3619; 3640; 3603; 3634; 3648; 3621; 3639; 3629; 3585; 3652; 3615;
   3621; 3660; 3619; 3641; 3611; 3629; 3618; 3656; 3634; 3591; 3609; 3657;
   3629; 3618; 32; 49; 32; 3619; 3641; 3611]%N.

(** "Could not be processed." *)
Definition notProcessedMessage : jsstring :=
  [3652; 3617; 3656; 3626; 3634; 3617; 3634; 3619; 3606; 3611; 3619; 3632;
   3617; 3623; 3621; 3612; 3621; 3652; 3604; 3657]%N.

(** The prompts the page sends: [image.prompt || defaultPrompt] for each
    image. *)
Definition sentPrompts (st : State) : list jsstring :=
  map (fun image =>
         if truthy (prompt image) then prompt image else defaultPrompt st)
    (images st).

(** [formData.append(name, value)] for a string value: the entry holds
    the value as a [USVString]. *)
Definition appendText (name : string) (value : jsstring)
  : jsstring * FormDataEntryValue :=
  (toUSVString (lit name), EntryString (toUSVString value)).

(** [formData.append(name, file, filename)]: the entry holds a file with
    the bytes and the type of [file], whose name is [filename] as a
    [USVString]. *)
Definition appendFile (name : string) (f : File.t) (filename : jsstring)
  : jsstring * FormDataEntryValue :=
  (toUSVString (lit name),
   EntryFile {| File.name := toUSVString filename;
                File.type := File.type f;
                File.bytes := File.bytes f |}).

(** The form [handleSubmit] builds, in the order of its [append] calls. *)
Definition submitForm (st : State) : FormData :=
  [appendText "defaultPrompt" (defaultPrompt st);
   appendText "model" (model st);
   appendText "prompts" (JSON_stringify_strings (sentPrompts st))]
  ++ (if truthy_list (parsedKeys st) then
        [appendText "apiKeys" (JSON_stringify_strings (parsedKeys st))]
      else [])
  ++ map (fun image =>
            appendFile "images" (file image) (File.name (file image)))
       (images st).

(** What [response.json()] resolves to: [null], or a value whose [error]
    and [results] members are read (both absent on a value that is not an
    object). *)
Inductive Payload :=
| PayloadNull
| PayloadValue (error : option jsstring)
    (results : option (list ResultEntry.t)).

(** A response of [fetch]: [response.ok] and what [response.json()] does. *)
Record HttpResponse := {
  ok : bool;
  json : Outcome Payload
}.

(** The [try] block of [handleSubmit], after the request was answered:
    the entries to show, or what is thrown. *)
Definition readAnswer (answer : Outcome HttpResponse)
  : Outcome (list ResultEntry.t) :=
  match answer with
  | Rejected e => Rejected e
  | Resolved response =>
      match json response with
      | Rejected e => Rejected e
      | Resolved PayloadNull =>
          Rejected (typeError "Cannot read properties of null")
      | Resolved (PayloadValue error results) =>
          if ok response then Resolved (nullish_or results [])
          else
            Rejected
              (ErrorObject
                 (match error with
                  | Some message =>
                      if truthy message then message else notProcessedMessage
                  | None => notProcessedMessage
                  end))
      end
  end.

(** [handleSubmit(event)]: the state once the handler has finished, and
    the forms it sent.  [fetch] is the answer of the network to a form. *)
Definition handleSubmit (fetch : FormData -> Outcome HttpResponse)
    (st : State) : State * list FormData :=
  match images st with
  | [] => (setErrorMessage (Some noSelectionMessage) st, [])
  | _ :: _ =>
      let formData := submitForm st in
      let sending :=
        setResults [] (setErrorMessage None (setIsSubmitting true st)) in
      let answered :=
        match readAnswer (fetch formData) with
        | Resolved entries => setResults entries sending
        | Rejected e => setErrorMessage (Some (messageOf e)) sending
        end in
      (setIsSubmitting false answered, [formData])
  end.

End Page.

(** * Notions used in the statements *)

(** ** Strings and tokens *)

(** A string made of white space only. *)
Definition blank (s : jsstring) : bool := forallb isWhiteSpace s.

(** A token of the pool: not empty, not blank, nothing left to trim. *)
Definition cleanToken (k : jsstring) : Prop :=
  k <> [] /\ blank k = false /\ trim k = k.

(** A string with its commas, semicolons and white space taken out. *)
Definition withoutSeparators (s : jsstring) : jsstring :=
  filter (fun c => negb (isKeySeparator c)) s.

(** [own?.trim() || fallback], in words: the trimmed text when there is a
    text and it is not blank, the fallback otherwise. *)
Definition trimmedOr (own : option jsstring) (fallback : jsstring)
  : jsstring :=
  match own with
  | Some text => if blank text then fallback else trim text
  | None => fallback
  end.

(** ** Responses of the generation service *)

(** The text fragments of a list of parts, empty ones left out, one per line. *)
Definition joinedFragments (ps : list Gemini.ContentPart) : jsstring :=
  join [10%N]
    (filter truthy (map (fun p => nullish_or (Gemini.part_text p) []) ps)).

Definition candidateWith (ps : list Gemini.ContentPart) : Gemini.Candidate :=
  {| Gemini.content := Some {| Gemini.parts := Some ps |} |}.

Definition fragment (s : string) : Gemini.ContentPart :=
  {| Gemini.part_text := Some (lit s) |}.

(** ** States *)

Definition emptyState : State := {| results := []; trace := [] |}.

Definition appendState (s t : State) : State :=
  {| results := results s ++ results t; trace := trace s ++ trace t |}.

Definition concatStates (runs : list State) : State :=
  fold_right appendState emptyState runs.

(** A computation is framed when it only appends to the state it starts
    from, and what it appends and returns does not depend on that state. *)
Definition framed {A : Type} (m : M A) : Prop :=
  forall s, m s = (appendState s (fst (m emptyState)), snd (m emptyState)).

(** What processing one image adds to the state. *)
Definition itemRun (w : World) (allKeys : list jsstring) (model : jsstring)
    (index : nat) (file : File.t) (prompt : jsstring) : State :=
  fst (processItem w allKeys model index file prompt emptyState).

(** What the images from [index] on add to the state, one state per image,
    when the prompt of the image at [i] is [promptAt i]. *)
Fixpoint runsFrom (w : World) (allKeys : list jsstring) (model : jsstring)
    (promptAt : nat -> jsstring) (files : list File.t) (index : nat)
  : list State :=
  match files with
  | [] => []
  | file :: rest =>
      itemRun w allKeys model index file (promptAt index)
        :: runsFrom w allKeys model promptAt rest (S index)
  end.

(** What the loop leaves, turned into what the handler returns. *)
Definition afterLoop (loop : State * Outcome unit) : State * Outcome Response :=
  (fst loop,
   match snd loop with
   | Resolved _ =>
       Resolved {| status := 200; body := ResultsBody (results (fst loop)) |}
   | Rejected e => Rejected e
   end).

(** The cases of the [try] block of one image: each awaited call is
    answered or throws. *)
Ltac item_cases iw up :=
  unfold itemRun, processItem, tryCatchFinally, catchIgnore, bind, await,
    push, throw, liftOutcome; simpl;
  destruct (writeFile iw) as [[]|?]; simpl;
  [ destruct (upload iw) as [up|?]; simpl;
    [ destruct (ref_uri (fileRefOf up _)) as [?|]; simpl;
      [ destruct (truthy _ && truthy _); simpl;
        [ destruct (generateContent iw) as [?|?]; simpl;
          [ destruct (ensureText _) as [?|?]; simpl | ]
        | ]
      | ]
    | ]
  | ].

(** ** Entries *)

(** The entries of the response, when the response carries entries. *)
Definition responseEntries (o : Outcome Response) : list ResultEntry.t :=
  match o with
  | Resolved {| status := _; body := ResultsBody entries |} => entries
  | _ => []
  end.

(** Either a text and no error, or an error and no text. *)
Definition exactlyOne (e : ResultEntry.t) : Prop :=
  (ResultEntry.text e <> None /\ ResultEntry.error e = None)
  \/ (ResultEntry.text e = None /\ ResultEntry.error e <> None).

Definition failureEntry (file : File.t) (prompt message : jsstring)
  : ResultEntry.t :=
  {| ResultEntry.filename := File.name file;
     ResultEntry.prompt := prompt;
     ResultEntry.text := None;
     ResultEntry.error := Some message |}.

(** The entry of an image whose generation call was made: the text
    extracted from the answer, or the message of what was thrown. *)
Definition generationEntry (file : File.t) (prompt : jsstring)
    (answer : Outcome (option Gemini.Response)) : ResultEntry.t :=
  match
    match answer with
    | Resolved response => ensureText response
    | Rejected e => Rejected e
    end
  with
  | Resolved text =>
      {| ResultEntry.filename := File.name file;
         ResultEntry.prompt := prompt;
         ResultEntry.text := Some text;
         ResultEntry.error := None |}
  | Rejected e => failureEntry file prompt (errorMessage e)
  end.

(** The test the handler makes on the asset reference: a URI that is there
    and not empty, and a media type that is not empty. *)
Definition usableRef (r : FileRef) : bool :=
  match ref_uri r with
  | Some uri => truthy uri && truthy (ref_mimeType r)
  | None => false
  end.

(** ** Valid batches *)

(** The text of a form field, when the field is there and is not a file. *)
Definition fieldText (formData : FormData) (field : string)
  : option jsstring :=
  match formData_get formData (lit field) with
  | Some (EntryString s) => Some s
  | _ => None
  end.

(** The field is absent or is a text field (not a file part). *)
Definition isTextField (formData : FormData) (field : string) : bool :=
  match formData_get formData (lit field) with
  | Some (EntryFile _) => false
  | _ => true
  end.

(** The strings of an array all of whose items are strings. *)
Fixpoint stringItems (items : list json) : option (list jsstring) :=
  match items with
  | [] => Some []
  | JString s :: rest => option_map (cons s) (stringItems rest)
  | _ :: _ => None
  end.

(** The per-image prompts of a request: none when the field is absent, the
    strings of the array when the field decodes to an array of strings. *)
Definition promptStrings (formData : FormData) : option (list jsstring) :=
  match formData_get formData (lit "prompts") with
  | None => Some []
  | Some (EntryString s) =>
      match JSON_parse s with
      | Some (JArray items) => stringItems items
      | _ => None
      end
  | Some (EntryFile _) => None
  end.

(** A valid batch: at least one image file, prompts that are absent or
    decode to an array of strings [ps], text fields for the default prompt
    and the model when they are sent, and at least one credential. *)
Definition validBatch (env : ProcessEnv) (formData : FormData)
    (ps : list jsstring) : Prop :=
  imageFiles formData <> []
  /\ promptStrings formData = Some ps
  /\ isTextField formData "defaultPrompt" = true
  /\ isTextField formData "model" = true
  /\ allKeysOf env formData <> [].

(** The default prompt of a batch: the trimmed [defaultPrompt] field, or
    the fixed literal when the field is absent or blank. *)
Definition batchDefault (formData : FormData) : jsstring :=
  trimmedOr (fieldText formData "defaultPrompt") defaultPromptLiteral.

Definition batchModel (formData : FormData) : jsstring :=
  trimmedOr (fieldText formData "model") defaultModelLiteral.

(** The effective prompt of the image at [i]: its own prompt, trimmed, when
    it has one that is not blank, the default prompt of the batch
    otherwise. *)
Definition effectivePrompt (formData : FormData) (ps : list jsstring)
    (i : nat) : jsstring :=
  trimmedOr (nth_error ps i) (batchDefault formData).

Definition batchRuns (env : ProcessEnv) (w : World) (formData : FormData)
    (ps : list jsstring) : list State :=
  runsFrom w (allKeysOf env formData) (batchModel formData)
    (effectivePrompt formData ps) (imageFiles formData) 0.

(** ** Traces *)

(** A call made between the staging of a file and its removal: an upload
    of the staged file, or a generation call with the prompt of the image. *)
Definition serviceCall (path prompt : jsstring) (ev : Event) : Prop :=
  match ev with
  | Upload _ p => p = path
  | GenerateContent _ _ p _ _ => p = prompt
  | WriteFile _ _ | Unlink _ => False
  end.

(** A trace in which every staging of a file is followed, after the calls
    on the service for that file and before anything else, by the removal
    of the same file. *)
Inductive staged : list Event -> Prop :=
| staged_none : staged []
| staged_item (before : list Event) (path : jsstring) (data : list N)
    (prompt : jsstring) (calls : list Event) :
    staged before ->
    Forall (serviceCall path prompt) calls ->
    staged (before ++ WriteFile path data :: calls ++ [Unlink path]).

(** ** Worlds *)

(** The world in which the answers for the image at [i] are [iw]. *)
Definition withItem (w : World) (i : nat) (iw : ItemWorld) : World :=
  {| tmpdir := tmpdir w;
     path_join := path_join w;
     item := fun j => if Nat.eqb j i then iw else item w j |}.

(** The world in which removing the staged file of the image at [i] is
    answered by [outcome i]. *)
Definition withUnlink (w : World) (outcome : nat -> Outcome unit) : World :=
  {| tmpdir := tmpdir w;
     path_join := path_join w;
     item := fun i =>
       {| randomUUID := randomUUID (item w i);
          writeFile := writeFile (item w i);
          random := random (item w i);
          upload := upload (item w i);
          generateContent := generateContent (item w i);
          unlink := outcome i |} |}.

Definition withUpload (iw : ItemWorld) (answer : Outcome UploadResponse.t)
  : ItemWorld :=
  {| randomUUID := randomUUID iw;
     writeFile := writeFile iw;
     random := random iw;
     upload := answer;
     generateContent := generateContent iw;
     unlink := unlink iw |}.

(** The upload call or the generation call is answered by an exception. *)
Definition callFails (iw : ItemWorld) : Prop :=
  (exists e, upload iw = Rejected e)
  \/ (exists e, generateContent iw = Rejected e).

(** ** Example requests and worlds *)

Definition pngFile (name : string) : File.t :=
  {| File.name := lit name;
     File.type := lit "image/png";
     File.bytes := [137; 80; 78; 71]%N |}.

Definition textResponse (s : string) : Gemini.Response :=
  {| Gemini.text := Some (Gemini.TextString (lit s));
     Gemini.response := None;
     Gemini.candidates := None |}.

(** An upload answered in the flat shape, without a media type. *)
Definition flatUpload (uri : string) : UploadResponse.t :=
  {| UploadResponse.file := None;
     UploadResponse.uri := Some (lit uri);
     UploadResponse.mimeType := None |}.

(** An upload answered without anything in it. *)
Definition emptyUpload : UploadResponse.t :=
  {| UploadResponse.file := None;
     UploadResponse.uri := None;
     UploadResponse.mimeType := None |}.

(** An image for which every call succeeds. *)
Definition goodItem (uuid uri answer : string) : ItemWorld :=
  {| randomUUID := lit uuid;
     writeFile := Resolved tt;
     random := 0;
     upload := Resolved (flatUpload uri);
     generateContent := Resolved (Some (textResponse answer));
     unlink := Resolved tt |}.

(** A world whose staging directory is [/tmp] and whose [path.join] puts a
    slash between its arguments. *)
Definition exampleWorld (items : nat -> ItemWorld) : World :=
  {| tmpdir := lit "/tmp";
     path_join := fun dir leaf => dir ++ lit "/" ++ leaf;
     item := items |}.

(** One operator token, [k]. *)
Definition exampleEnv : ProcessEnv :=
  {| GOOGLE_API_KEYS := None; GOOGLE_API_KEY := Some (lit "k") |}.

Definition image (name : string) : jsstring * FormDataEntryValue :=
  (lit "images", EntryFile (pngFile name)).

Definition textPart (field : string) (value : jsstring)
  : jsstring * FormDataEntryValue :=
  (lit field, EntryString value).

(** ** Requests in general *)

(** The text the handler gives to [JSON.parse] for the prompts: the
    [prompts] field, or the text of the empty array when there is none. *)
Definition promptsText (formData : FormData) : jsstring :=
  entryToString
    (nullish_or (formData_get formData (lit "prompts"))
       (EntryString (lit "[]"))).

Definition isStringOrNull (x : json) : bool :=
  match x with
  | JString _ | JNull => true
  | _ => false
  end.

(** The prompts for which resolving the prompt of the image at [i] throws:
    the value [null], on which nothing can be read, and any value whose
    member at [i] is there and is neither a string nor [null]. *)
Definition promptThrows (prompts : json) (i : nat) : bool :=
  match prompts with
  | JNull => true
  | _ =>
      match getIndex prompts i with
      | Resolved (Some x) => negb (isStringOrNull x)
      | _ => false
      end
  end.

(** The key of a call on the service is none (an index outside the pool)
    or a token of the pool. *)
Definition keyFrom (pool : list jsstring) (ev : Event) : Prop :=
  match ev with
  | Upload key _ | GenerateContent key _ _ _ _ =>
      match key with
      | Some k => In k pool
      | None => True
      end
  | WriteFile _ _ | Unlink _ => True
  end.

(** The key of a call on the service is a token of the pool. *)
Definition keyIn (pool : list jsstring) (ev : Event) : Prop :=
  match ev with
  | Upload key _ | GenerateContent key _ _ _ _ =>
      exists k, key = Some k /\ In k pool
  | WriteFile _ _ | Unlink _ => True
  end.

(** A generation call is made for the model [model]. *)
Definition modelIs (model : jsstring) (ev : Event) : Prop :=
  match ev with
  | GenerateContent _ m _ _ _ => m = model
  | _ => True
  end.

(** ** Tokens of an array of strings *)

(** The tokens between the brackets of an array of strings. *)
Fixpoint stringTokens (l : list jsstring) : list token :=
  match l with
  | [] => []
  | [s] => [TString s]
  | s :: rest => TString s :: TComma :: stringTokens rest
  end.

(** ** Prompts, from the page to the route *)

(** The first of the candidates that is not blank, trimmed; the fallback
    when all of them are blank. *)
Fixpoint firstNonBlank (candidates : list jsstring) (fallback : jsstring)
  : jsstring :=
  match candidates with
  | [] => fallback
  | c :: rest => if blank c then firstNonBlank rest fallback else trim c
  end.

(** The pool of a request sent by the page in the state [st]. *)
Definition pagePool (env : ProcessEnv) (st : Page.State) : list jsstring :=
  getEnvKeys env ++ Page.parsedKeys st.

(** ** What a response exposes *)

(** The parts a list of candidates exposes: the parts of its first
    candidate, when the list is there and is not empty, and that candidate
    has a content, and the content has parts. *)
Inductive exposes
  : option (list Gemini.Candidate) -> list Gemini.ContentPart -> Prop :=
| exposes_first (ps : list Gemini.ContentPart)
    (others : list Gemini.Candidate) :
    exposes (Some (candidateWith ps :: others)) ps.

(** [response.response?.candidates] *)
Definition envelopeCandidates (r : Gemini.Response)
  : option (list Gemini.Candidate) :=
  match Gemini.response r with
  | Some e => Gemini.envelope_candidates e
  | None => None
  end.

(** A part without text: its text is absent or empty. *)
Definition textless (p : Gemini.ContentPart) : Prop :=
  nullish_or (Gemini.part_text p) [] = [].

(** ** The form of the page, as the route finds it *)

(** A text that the conversion to a [USVString] leaves as it is, whatever
    follows it. *)
Definition usvClosed (x : jsstring) : Prop :=
  forall rest, toUSVString (x ++ rest) = x ++ toUSVString rest.

(** The file the page sends for an image. *)
Definition sentFile (image : Page.SelectedImage) : File.t :=
  {| File.name := toUSVString (File.name (Page.file image));
     File.type := File.type (Page.file image);
     File.bytes := File.bytes (Page.file image) |}.

(** * Properties *)

(** ** The embedded functions on small inputs *)

Example split_separators_runs :
  split_separators (lit ",a;; b ") = [[]; lit "a"; lit "b"; []].
Proof. reflexivity. Qed.

Example split_separators_empty : split_separators [] = [[]].
Proof. reflexivity. Qed.

Example trim_both_ends : trim (lit "  a b  ") = lit "a b".
Proof. reflexivity. Qed.

Example getEnvKeys_two_variables :
  getEnvKeys {| GOOGLE_API_KEYS := Some (lit " k1, k2;k3  ");
                GOOGLE_API_KEY := Some (lit "k4") |}
  = [lit "k1"; lit "k2"; lit "k3"; lit "k4"].
Proof. reflexivity. Qed.

Example getEnvKeys_unset :
  getEnvKeys {| GOOGLE_API_KEYS := None; GOOGLE_API_KEY := None |} = [].
Proof. reflexivity. Qed.

Example JSON_parse_values :
  JSON_parse (lit "[1, -2.5e+3, true, null, {}]")
  = Some (JArray [JNumber (lit "1"); JNumber (lit "-2.5e+3"); JBool true;
                  JNull; JObject []]).
Proof. reflexivity. Qed.

Example JSON_parse_escapes :
  JSON_parse (quoted (lit "a\n\u0e01\u0041"))
  = Some (JString [97; 10; 3585; 65]%N).
Proof. reflexivity. Qed.

Example JSON_parse_object :
  JSON_parse (lit "{ " ++ quoted (lit "a") ++ lit " : [ ] }")
  = Some (JObject [(lit "a", JArray [])]).
Proof. reflexivity. Qed.

Example JSON_parse_rejects :
  JSON_parse [] = None
  /\ JSON_parse (lit "[1,]") = None
  /\ JSON_parse (lit "01") = None
  /\ JSON_parse (lit "[1] x") = None
  /\ JSON_parse (lit "nul") = None
  /\ JSON_parse (entryToString (EntryFile (pngFile "a.png"))) = None.
Proof. repeat split. Qed.

Example parseClientKeys_drops_non_strings_and_blanks :
  parseClientKeys
    (Some (EntryString
             (lit "[" ++ quoted (lit "k") ++ lit ", 5, " ++ quoted (lit "  ")
                ++ lit ", null, " ++ quoted (lit " z ") ++ lit "]")))
  = [lit "k"; lit "z"].
Proof. reflexivity. Qed.

Example parseClientKeys_not_an_array :
  parseClientKeys (Some (EntryString (quoted (lit "k")))) = []
  /\ parseClientKeys (Some (EntryString (lit "oops"))) = []
  /\ parseClientKeys (Some (EntryFile (pngFile "keys.json"))) = []
  /\ parseClientKeys None = [].
Proof. repeat split. Qed.

Example resolvePrompt_shapes :
  resolvePrompt (JArray [JString (lit " hi ")]) 0 (lit "d") = Resolved (lit "hi")
  /\ resolvePrompt (JArray [JString (lit "  ")]) 0 (lit "d") = Resolved (lit "d")
  /\ resolvePrompt (JArray [JNull]) 0 (lit "d") = Resolved (lit "d")
  /\ resolvePrompt (JArray []) 3 (lit "d") = Resolved (lit "d")
  /\ resolvePrompt (JString (lit "abc")) 1 (lit "d") = Resolved (lit "b")
  /\ resolvePrompt (JObject [(lit "0", JString (lit "x"))]) 0 (lit "d")
     = Resolved (lit "x")
  /\ resolvePrompt (JNumber (lit "7")) 0 (lit "d") = Resolved (lit "d")
  /\ resolvePrompt (JArray [JNumber (lit "5")]) 0 (lit "d")
     = Rejected (typeError "trim is not a function")
  /\ resolvePrompt JNull 0 (lit "d")
     = Rejected (typeError "Cannot read properties of null").
Proof. repeat split. Qed.

(** Two images; the calls for the first succeed, the upload of the second
    throws an error: the entry of the second carries the message of that
    error. *)
Example serve_second_upload_throws :
  let failing :=
    withUpload (goodItem "v" "files/b" "A drum")
      (Rejected (ErrorObject (lit "boom"))) in
  let w :=
    withItem (exampleWorld (fun i => goodItem "u" "files/a" "A trumpet"))
      1 failing in
  snd (serve exampleEnv w [image "a.png"; image "b.png"])
  = Resolved
      {| status := 200;
         body :=
           ResultsBody
             [{| ResultEntry.filename := lit "a.png";
                 ResultEntry.prompt := defaultPromptLiteral;
                 ResultEntry.text := Some (lit "A trumpet");
                 ResultEntry.error := None |};
              {| ResultEntry.filename := lit "b.png";
                 ResultEntry.prompt := defaultPromptLiteral;
                 ResultEntry.text := None;
                 ResultEntry.error := Some (lit "boom") |}] |}.
Proof. reflexivity. Qed.

(** The default prompt and the own prompts of two images. *)
Example serve_prompts :
  let w := exampleWorld (fun i => goodItem "u" "files/a" "A trumpet") in
  let formData :=
    [image "a.png"; image "b.png";
     textPart "defaultPrompt" (lit "Describe this image");
     textPart "prompts"
       (lit "[" ++ quoted [] ++ lit "," ++ quoted (lit "What color is this?")
          ++ lit "]")] in
  map ResultEntry.prompt (responseEntries (snd (serve exampleEnv w formData)))
  = [lit "Describe this image"; lit "What color is this?"].
Proof. reflexivity. Qed.

(** A prompt that is a number: the handler throws where it resolves the
    prompt, before any call for the image. *)
Example serve_number_prompt_throws :
  let w := exampleWorld (fun i => goodItem "u" "files/a" "A trumpet") in
  serve exampleEnv w [image "a.png"; textPart "prompts" (lit "[5]")]
  = (emptyState, Rejected (typeError "trim is not a function")).
Proof. reflexivity. Qed.

(** Without any credential the request is turned down before any call. *)
Example serve_no_credentials :
  let w := exampleWorld (fun i => goodItem "u" "files/a" "A trumpet") in
  serve {| GOOGLE_API_KEYS := None; GOOGLE_API_KEY := None |} w
    [image "a.png"]
  = (emptyState,
     Resolved {| status := 400; body := ErrorBody noKeysMessage |}).
Proof. reflexivity. Qed.

(** ** Trimming *)

Lemma trimStart_suffix (s : jsstring) :
  exists p, s = p ++ trimStart s.
Proof.
  induction s as [|c r [p Hp]]; simpl.
  - exists []; reflexivity.
  - destruct (isWhiteSpace c).
    + exists (c :: p). simpl. now rewrite <- Hp.
    + exists []; reflexivity.
Qed.

Lemma trimStart_head (s : jsstring) (c : N) (r : jsstring) :
  trimStart s = c :: r -> isWhiteSpace c = false.
Proof.
  induction s as [|d t IH]; simpl; [discriminate|].
  destruct (isWhiteSpace d) eqn:Hd; [exact IH|].
  intros H; injection H as -> _; exact Hd.
Qed.

Lemma trimStart_fixed (c : N) (r : jsstring) :
  isWhiteSpace c = false -> trimStart (c :: r) = c :: r.
Proof. intros H; simpl; now rewrite H. Qed.

Lemma trimStart_idempotent (s : jsstring) :
  trimStart (trimStart s) = trimStart s.
Proof.
  destruct (trimStart s) as [|c r] eqn:E; [reflexivity|].
  apply trimStart_fixed. eapply trimStart_head; eassumption.
Qed.

Lemma trimStart_nil_blank (s : jsstring) :
  trimStart s = [] <-> blank s = true.
Proof.
  induction s as [|c r IH]; simpl; [tauto|].
  destruct (isWhiteSpace c); simpl; [exact IH|].
  split; discriminate.
Qed.

Lemma blank_app (a b : jsstring) : blank (a ++ b) = blank a && blank b.
Proof. apply forallb_app. Qed.

Lemma blank_rev (s : jsstring) : blank (rev s) = blank s.
Proof.
  induction s as [|c r IH]; simpl; [reflexivity|].
  rewrite blank_app, IH. simpl. rewrite andb_true_r. apply andb_comm.
Qed.

(** The end of a string trimmed at its start is the end of the string. *)
Lemma trimEnd_keeps_head (c : N) (r : jsstring) :
  isWhiteSpace c = false -> exists r', trimEnd (c :: r) = c :: r'.
Proof.
  intros Hc. unfold trimEnd.
  destruct (trimStart_suffix (rev (c :: r))) as [p Hp].
  destruct (trimStart (rev (c :: r))) as [|d u] eqn:E.
  - apply trimStart_nil_blank in E. rewrite blank_rev in E.
    simpl in E. now rewrite Hc in E.
  - assert (H : c :: r = rev (d :: u) ++ rev p).
    { rewrite <- rev_app_distr, <- Hp. now rewrite rev_involutive. }
    destruct (rev (d :: u)) as [|x y] eqn:Er.
    + apply (f_equal (@rev N)) in Er. rewrite rev_involutive in Er.
      discriminate.
    + simpl in H. injection H as <- _. now exists y.
Qed.

Lemma trim_nil_blank (s : jsstring) : trim s = [] <-> blank s = true.
Proof.
  unfold trim. destruct (trimStart s) as [|c r] eqn:E.
  - rewrite <- trimStart_nil_blank, E. unfold trimEnd; simpl. tauto.
  - pose proof (trimStart_head s c r E) as Hc.
    destruct (trimEnd_keeps_head c r Hc) as [r' ->].
    rewrite <- trimStart_nil_blank, E. split; discriminate.
Qed.

Lemma truthy_trim (s : jsstring) : truthy (trim s) = negb (blank s).
Proof.
  destruct (blank s) eqn:B.
  - apply trim_nil_blank in B. now rewrite B.
  - destruct (trim s) eqn:E; [|reflexivity].
    apply trim_nil_blank in E. congruence.
Qed.

Lemma trimEnd_idempotent (s : jsstring) : trimEnd (trimEnd s) = trimEnd s.
Proof.
  unfold trimEnd. now rewrite rev_involutive, trimStart_idempotent.
Qed.

Lemma trim_idempotent (s : jsstring) : trim (trim s) = trim s.
Proof.
  destruct (trimStart s) as [|c r] eqn:E.
  - assert (H : trim s = []) by (unfold trim; now rewrite E).
    now rewrite H.
  - assert (H : trim s = trimEnd (c :: r)) by (unfold trim; now rewrite E).
    pose proof (trimStart_head s c r E) as Hc.
    destruct (trimEnd_keeps_head c r Hc) as [r' Hr].
    rewrite H. unfold trim.
    rewrite Hr, (trimStart_fixed c r' Hc), <- Hr.
    apply trimEnd_idempotent.
Qed.

Lemma truthy_not_nil (s : jsstring) : truthy s = true <-> s <> [].
Proof. destruct s; simpl; split; congruence. Qed.

(** Trimming only removes characters. *)
Lemma trimStart_incl (s : jsstring) (c : N) : In c (trimStart s) -> In c s.
Proof.
  destruct (trimStart_suffix s) as [p Hp]. intros H.
  rewrite Hp. apply in_or_app. now right.
Qed.

Lemma trim_incl (s : jsstring) (c : N) : In c (trim s) -> In c s.
Proof.
  unfold trim, trimEnd. intros H.
  apply trimStart_incl. apply (proj2 (in_rev _ _)).
  apply trimStart_incl. apply (proj2 (in_rev _ _)). exact H.
Qed.

(** ** The credential pool *)

Lemma split_from_no_separator (s piece : jsstring) (inRun : bool) :
  (forall c, In c piece -> isKeySeparator c = false) ->
  forall p, In p (split_from piece inRun s) ->
  forall c, In c p -> isKeySeparator c = false.
Proof.
  revert piece inRun.
  induction s as [|d r IH]; intros piece inRun Hpiece p Hp c Hc; simpl in Hp.
  - destruct Hp as [<-|[]]. apply Hpiece. now apply in_rev.
  - destruct (isKeySeparator d) eqn:Hd.
    + assert (Hnil : forall x : N, In x [] -> isKeySeparator x = false)
        by (intros x []).
      destruct inRun.
      * exact (IH [] true Hnil p Hp c Hc).
      * destruct Hp as [<-|Hp].
        -- apply Hpiece. now apply in_rev.
        -- exact (IH [] true Hnil p Hp c Hc).
    + refine (IH (d :: piece) false _ p Hp c Hc).
      intros x [<-|Hx]; [exact Hd | now apply Hpiece].
Qed.

Lemma trimmed_clean (s : jsstring) :
  truthy (trim s) = true -> cleanToken (trim s).
Proof.
  intros H. split; [now apply truthy_not_nil|]. split.
  - rewrite <- (negb_involutive (blank (trim s))), <- truthy_trim.
    now rewrite trim_idempotent, H.
  - apply trim_idempotent.
Qed.

Lemma getEnvKeys_In (env : ProcessEnv) (k : jsstring) :
  In k (getEnvKeys env) ->
  cleanToken k /\ forall c, In c k -> isKeySeparator c = false.
Proof.
  unfold getEnvKeys. intros H.
  apply filter_In in H. destruct H as [H Hk].
  apply in_map_iff in H. destruct H as [p [<- Hp]].
  split; [now apply trimmed_clean|].
  intros c Hc. apply trim_incl in Hc.
  refine (split_from_no_separator _ [] false _ p Hp c Hc).
  intros x [].
Qed.

Lemma parseClientKeys_In (raw : option FormDataEntryValue) (k : jsstring) :
  In k (parseClientKeys raw) <->
  exists s items own,
    raw = Some (EntryString s) /\ JSON_parse s = Some (JArray items) /\
    In (JString own) items /\ blank own = false /\ k = trim own.
Proof.
  split.
  - destruct raw as [[s|f]|]; simpl; try tauto.
    destruct (truthy s); [|intros []].
    destruct (JSON_parse s) as [[| | | |items|]|] eqn:Hparse; try (intros []).
    intros H. apply filter_In in H. destruct H as [H Hk].
    apply in_map_iff in H. destruct H as [j [Hj Hin]].
    destruct j as [| | |own| |]; subst k; try discriminate.
    exists s, items, own. rewrite truthy_trim in Hk.
    apply negb_true_iff in Hk. repeat split; trivial.
  - intros (s & items & own & -> & Hparse & Hin & Hb & ->). simpl.
    destruct s as [|c s']; [discriminate Hparse|]. simpl truthy. cbv iota.
    rewrite Hparse. apply filter_In. split.
    + apply in_map_iff. now exists (JString own).
    + rewrite truthy_trim, Hb. reflexivity.
Qed.

Lemma separator_not_white (c : N) :
  isKeySeparator c = false -> isWhiteSpace c = false.
Proof.
  unfold isKeySeparator. intros H.
  apply orb_false_iff in H. tauto.
Qed.

Lemma trimStart_no_white (s : jsstring) :
  (forall c, In c s -> isWhiteSpace c = false) -> trimStart s = s.
Proof.
  destruct s as [|c r]; [reflexivity|]. intros H.
  apply trimStart_fixed. apply H. now left.
Qed.

Lemma trim_no_white (s : jsstring) :
  (forall c, In c s -> isWhiteSpace c = false) -> trim s = s.
Proof.
  intros H. unfold trim, trimEnd.
  rewrite (trimStart_no_white s H), trimStart_no_white.
  - apply rev_involutive.
  - intros c Hc. apply H. now apply in_rev.
Qed.

Lemma split_from_concat (s piece : jsstring) (inRun : bool) :
  (inRun = true -> piece = []) ->
  concat (split_from piece inRun s) = rev piece ++ withoutSeparators s.
Proof.
  revert piece inRun.
  induction s as [|c r IH]; intros piece inRun Hrun; simpl.
  - reflexivity.
  - destruct (isKeySeparator c) eqn:Hc; simpl.
    + destruct inRun.
      * rewrite (Hrun eq_refl). now rewrite IH.
      * simpl. now rewrite IH.
    + rewrite IH by discriminate. simpl. now rewrite <- app_assoc.
Qed.

Lemma concat_filter_truthy (l : list jsstring) :
  concat (filter truthy l) = concat l.
Proof.
  induction l as [|x l IH]; [reflexivity|].
  destruct x as [|c x]; simpl; [exact IH | now rewrite IH].
Qed.

Lemma withoutSeparators_app (a b : jsstring) :
  withoutSeparators (a ++ b) = withoutSeparators a ++ withoutSeparators b.
Proof. apply filter_app. Qed.

(** The operator's tokens, put end to end, are the text of the two
    variables with the separators taken out. *)
Lemma getEnvKeys_concat (env : ProcessEnv) :
  concat (getEnvKeys env)
  = withoutSeparators
      (nullish_or (GOOGLE_API_KEYS env) [] ++ nullish_or (GOOGLE_API_KEY env) []).
Proof.
  unfold getEnvKeys. rewrite concat_filter_truthy.
  rewrite (map_ext_in trim (fun p => p)), map_id.
  - unfold split_separators. rewrite split_from_concat by discriminate.
    simpl rev. rewrite app_nil_l.
    destruct (nullish_or (GOOGLE_API_KEYS env) []) as [|a x];
      destruct (nullish_or (GOOGLE_API_KEY env) []) as [|b y]; simpl filter;
      cbn [join app]; try reflexivity.
    + now rewrite app_nil_r.
    + change (a :: x ++ lit "," ++ b :: y)
        with ((a :: x) ++ lit "," ++ (b :: y)).
      change (a :: x ++ b :: y) with ((a :: x) ++ (b :: y)).
      now rewrite !withoutSeparators_app.
  - intros p Hp. apply trim_no_white. intros c Hc.
    apply separator_not_white.
    refine (split_from_no_separator _ [] false _ p Hp c Hc).
    intros x [].
Qed.

(** C1 (as amended): the pool of a request is the tokens of the operator's
    two variables followed by the tokens the caller sent, duplicates kept.
    Every token of the pool is non-empty, non-blank and trimmed.  An
    operator token holds no comma, semicolon or white space, and the
    operator's tokens put end to end are the text of the two variables
    without its separators.  The caller's tokens are exactly the trimmed
    texts of the non-blank string elements of the JSON array the caller
    sent, so elements that are not strings and blank strings leave nothing
    in the pool. *)
Theorem C1_pool_is_concatenation_of_clean_tokens
    (env : ProcessEnv) (formData : FormData) :
  let caller := parseClientKeys (formData_get formData (lit "apiKeys")) in
  allKeysOf env formData = getEnvKeys env ++ caller
  /\ Forall cleanToken (allKeysOf env formData)
  /\ Forall (fun k => withoutSeparators k = k) (getEnvKeys env)
  /\ concat (getEnvKeys env)
     = withoutSeparators
         (nullish_or (GOOGLE_API_KEYS env) []
            ++ nullish_or (GOOGLE_API_KEY env) [])
  /\ forall k,
       In k caller <->
       exists s items own,
         formData_get formData (lit "apiKeys") = Some (EntryString s) /\
         JSON_parse s = Some (JArray items) /\
         In (JString own) items /\ blank own = false /\ k = trim own.
Proof.
  intros caller. split; [reflexivity|]. split; [|split; [|split]].
  - unfold allKeysOf. apply Forall_app. split; apply Forall_forall; intros k Hk.
    + now apply getEnvKeys_In in Hk.
    + apply parseClientKeys_In in Hk.
      destruct Hk as (s & items & own & _ & _ & _ & Hb & ->).
      apply trimmed_clean. rewrite truthy_trim, Hb. reflexivity.
  - apply Forall_forall. intros k Hk. apply getEnvKeys_In in Hk.
    destruct Hk as [_ Hk]. unfold withoutSeparators.
    apply forallb_filter_id. apply forallb_forall.
    intros c Hc. now rewrite (Hk c Hc).
  - apply getEnvKeys_concat.
  - intros k. apply parseClientKeys_In.
Qed.

(** C1 (as stated) fails: a token configured by the operator and sent again
    by the caller is in the pool twice. *)
Lemma C1_pool_keeps_duplicates :
  let env := {| GOOGLE_API_KEYS := None; GOOGLE_API_KEY := Some (lit "k") |} in
  let formData :=
    [(lit "apiKeys", EntryString (lit "[" ++ quoted (lit "k") ++ lit "]"))] in
  allKeysOf env formData = [lit "k"; lit "k"]
  /\ ~ NoDup (allKeysOf env formData).
Proof.
  split; [reflexivity|].
  intros H. change (NoDup [lit "k"; lit "k"]) in H.
  inversion H as [|x l Hin _]. apply Hin. now left.
Qed.

(** ** Text extraction *)

Lemma firstParts_exposes (cs : option (list Gemini.Candidate))
    (ps : list Gemini.ContentPart) :
  firstParts cs = Some ps <-> exposes cs ps.
Proof.
  split.
  - destruct cs as [[|[[[[qs|]]|]] others]|]; simpl; intros H;
      try discriminate.
    injection H as <-. exact (exposes_first qs others).
  - intros H. destruct H. reflexivity.
Qed.

Lemma firstParts_hidden (cs : option (list Gemini.Candidate)) :
  firstParts cs = None <-> forall qs, ~ exposes cs qs.
Proof.
  split.
  - intros H qs Hqs. apply firstParts_exposes in Hqs. congruence.
  - intros H. destruct (firstParts cs) as [ps|] eqn:E; [|reflexivity].
    apply firstParts_exposes in E. now destruct (H ps).
Qed.

Lemma hidden_shapes (cs : option (list Gemini.Candidate)) :
  (forall qs, ~ exposes cs qs)
  <-> cs = None \/ cs = Some []
      \/ exists first others,
           cs = Some (first :: others)
           /\ (Gemini.content first = None
               \/ Gemini.content first = Some {| Gemini.parts := None |}).
Proof.
  rewrite <- firstParts_hidden. split.
  - destruct cs as [[|[[[[qs|]]|]] others]|]; simpl; intros H;
      try discriminate; auto;
      right; right; eexists; eexists; (split; [reflexivity|]); auto.
  - intros [->|[->|(first & others & -> & [H|H])]]; try reflexivity;
      simpl; now rewrite H.
Qed.

(** Without a [text], the parts [ensureText] reads. *)
Lemma ensureText_parts (r : Gemini.Response) :
  Gemini.text r = None ->
  ensureText (Some r)
  = Resolved
      (joinedFragments
         (nullish_or
            match firstParts (envelopeCandidates r) with
            | Some ps => Some ps
            | None => firstParts (Gemini.candidates r)
            end [])).
Proof.
  intros H. unfold ensureText, envelopeCandidates, joinedFragments.
  rewrite H. now destruct (Gemini.response r).
Qed.

Lemma fragments_nil (ps : list Gemini.ContentPart) :
  filter truthy (map (fun p => nullish_or (Gemini.part_text p) []) ps) = []
  <-> Forall textless ps.
Proof.
  unfold textless. induction ps as [|p ps IH]; [now split|].
  cbn [map filter].
  destruct (nullish_or (Gemini.part_text p) []) as [|c s] eqn:E;
    cbn [truthy].
  - rewrite IH. split.
    + intros H. now apply Forall_cons.
    + intros H. now inversion H.
  - split; [discriminate|]. intros H. inversion H. congruence.
Qed.

Lemma join_lines_nil (l : list jsstring) :
  Forall (fun s => s <> []) l -> join [10%N] l = [] -> l = [].
Proof.
  intros H. destruct H as [|s l Hs _]; [reflexivity|].
  destruct s as [|c s]; [congruence|]. now destruct l.
Qed.

Lemma joinedFragments_nil (ps : list Gemini.ContentPart) :
  joinedFragments ps = [] <-> Forall textless ps.
Proof.
  rewrite <- fragments_nil. unfold joinedFragments. split.
  - apply join_lines_nil. apply Forall_forall. intros s Hs.
    apply filter_In in Hs. destruct Hs as [_ Hs]. now destruct s.
  - now intros ->.
Qed.

(** C7: [ensureText] gives the empty string for an absent response, a
    string [text] as it is and the result of calling a function [text].
    Without a [text] it reads the parts of the first candidate under
    [response.candidates] when that list exposes parts (it is there, is not
    empty, its first candidate has a content and the content has parts),
    or else those under [candidates] when that list exposes parts, and
    gives their texts joined: a part without a text or with an empty one is
    left out, the others are put one per line, so that the fragments Hello,
    empty, World give Hello and World on two lines.  When neither list
    exposes parts, whether it is absent, empty, or starts with a candidate
    without content or with a content without parts, the result is the
    empty string, as it is when every part is without text and only then.
    [ensureText] never throws of its own: it fails only when [text] is a
    function and calling it fails, with that failure. *)
Theorem C7_ensureText_shapes :
  ensureText None = Resolved []
  /\ (forall s response candidates,
        ensureText
          (Some {| Gemini.text := Some (Gemini.TextString s);
                   Gemini.response := response;
                   Gemini.candidates := candidates |}) = Resolved s)
  /\ (forall s response candidates,
        ensureText
          (Some {| Gemini.text := Some (Gemini.TextFunction (Resolved s));
                   Gemini.response := response;
                   Gemini.candidates := candidates |}) = Resolved s)
  /\ (forall ps others candidates,
        ensureText
          (Some {| Gemini.text := None;
                   Gemini.response :=
                     Some {| Gemini.envelope_candidates :=
                               Some (candidateWith ps :: others) |};
                   Gemini.candidates := candidates |})
        = Resolved (joinedFragments ps))
  /\ (forall ps others,
        ensureText
          (Some {| Gemini.text := None;
                   Gemini.response := None;
                   Gemini.candidates := Some (candidateWith ps :: others) |})
        = Resolved (joinedFragments ps))
  /\ joinedFragments [fragment "Hello"; fragment ""; fragment "World"]
     = lit "Hello" ++ [10%N] ++ lit "World"
  /\ joinedFragments
       [fragment "Hello"; {| Gemini.part_text := None |}; fragment "World"]
     = lit "Hello" ++ [10%N] ++ lit "World"
  /\ ensureText
       (Some {| Gemini.text := None;
                Gemini.response := None;
                Gemini.candidates := None |}) = Resolved []
  /\ (forall r call,
        Gemini.text r = Some (Gemini.TextFunction call) ->
        ensureText (Some r) = call)
  /\ (forall r s,
        Gemini.text r = Some (Gemini.TextString s) ->
        ensureText (Some r) = Resolved s)
  /\ (forall r ps,
        Gemini.text r = None ->
        exposes (envelopeCandidates r) ps ->
        ensureText (Some r) = Resolved (joinedFragments ps))
  /\ (forall r ps,
        Gemini.text r = None ->
        (forall qs, ~ exposes (envelopeCandidates r) qs) ->
        exposes (Gemini.candidates r) ps ->
        ensureText (Some r) = Resolved (joinedFragments ps))
  /\ (forall r,
        Gemini.text r = None ->
        (forall qs, ~ exposes (envelopeCandidates r) qs) ->
        (forall qs, ~ exposes (Gemini.candidates r) qs) ->
        ensureText (Some r) = Resolved [])
  /\ (forall cs,
        (forall qs, ~ exposes cs qs)
        <-> cs = None \/ cs = Some []
            \/ exists first others,
                 cs = Some (first :: others)
                 /\ (Gemini.content first = None
                     \/ Gemini.content first
                        = Some {| Gemini.parts := None |}))
  /\ joinedFragments [] = []
  /\ (forall p ps, textless p -> joinedFragments (p :: ps) = joinedFragments ps)
  /\ (forall p ps,
        ~ textless p -> Forall textless ps ->
        joinedFragments (p :: ps) = nullish_or (Gemini.part_text p) [])
  /\ (forall p ps,
        ~ textless p -> ~ Forall textless ps ->
        joinedFragments (p :: ps)
        = nullish_or (Gemini.part_text p) [] ++ [10%N] ++ joinedFragments ps)
  /\ (forall ps, joinedFragments ps = [] <-> Forall textless ps)
  /\ (forall response e,
        ensureText response = Rejected e ->
        exists r,
          response = Some r
          /\ Gemini.text r = Some (Gemini.TextFunction (Rejected e))).
Proof.
  assert (Hkept : forall p ps,
             ~ textless p ->
             joinedFragments (p :: ps)
             = join [10%N]
                 (nullish_or (Gemini.part_text p) []
                  :: filter truthy
                       (map (fun q => nullish_or (Gemini.part_text q) [])
                          ps))).
  { intros p ps Hp. unfold joinedFragments, textless in *.
    cbn [map filter].
    now destruct (nullish_or (Gemini.part_text p) []). }
  do 8 (split; [reflexivity|]).
  split; [intros r call H; unfold ensureText; now rewrite H|].
  split; [intros r s H; unfold ensureText; now rewrite H|].
  split.
  { intros r ps Htext H. apply firstParts_exposes in H.
    now rewrite (ensureText_parts r Htext), H. }
  split.
  { intros r ps Htext Hno H. apply firstParts_hidden in Hno.
    apply firstParts_exposes in H.
    now rewrite (ensureText_parts r Htext), Hno, H. }
  split.
  { intros r Htext Hno Hnone. apply firstParts_hidden in Hno, Hnone.
    now rewrite (ensureText_parts r Htext), Hno, Hnone. }
  split; [exact hidden_shapes|].
  split; [reflexivity|].
  split.
  { intros p ps Hp. unfold joinedFragments, textless in *.
    cbn [map filter]. now rewrite Hp. }
  split.
  { intros p ps Hp Hps. rewrite (Hkept p ps Hp).
    apply fragments_nil in Hps. now rewrite Hps. }
  split.
  { intros p ps Hp Hps. rewrite (Hkept p ps Hp). unfold joinedFragments.
    destruct (filter truthy
                (map (fun q => nullish_or (Gemini.part_text q) []) ps))
      as [|s l] eqn:E; [|reflexivity].
    apply fragments_nil in E. contradiction. }
  split; [exact joinedFragments_nil|].
  intros [r|] e H; [|discriminate]. exists r. split; [reflexivity|].
  unfold ensureText in H.
  destruct (Gemini.text r) as [[s|call]|]; try discriminate.
  now rewrite H.
Qed.

Lemma C7_ensureText_shapes_witness :
  ensureText
    (Some {| Gemini.text := None;
             Gemini.response :=
               Some {| Gemini.envelope_candidates := Some [] |};
             Gemini.candidates :=
               Some [{| Gemini.content := None |};
                     candidateWith [fragment "unread"]] |})
  = Resolved [].
Proof.
  destruct C7_ensureText_shapes
    as (_ & _ & _ & _ & _ & _ & _ & _ & _ & _ & _ & _ & H & Hshapes & _).
  apply H.
  - reflexivity.
  - apply (proj2 (Hshapes _)). right. left. reflexivity.
  - apply (proj2 (Hshapes _)). right. right.
    eexists. eexists. split; [reflexivity|]. left. reflexivity.
Defined.

(** ** What a computation adds to the state *)

Lemma appendState_assoc (s t u : State) :
  appendState (appendState s t) u = appendState s (appendState t u).
Proof. unfold appendState; simpl. now rewrite <- !app_assoc. Qed.

Lemma appendState_empty_l (s : State) : appendState emptyState s = s.
Proof. now destruct s. Qed.

Lemma appendState_empty_r (s : State) : appendState s emptyState = s.
Proof. destruct s. unfold appendState; simpl. now rewrite !app_nil_r. Qed.

Lemma framed_ret {A : Type} (a : A) : framed (ret a).
Proof. intros s. unfold ret; simpl. now rewrite appendState_empty_r. Qed.

Lemma framed_throw {A : Type} (e : Thrown) : framed (@throw A e).
Proof. intros s. unfold throw; simpl. now rewrite appendState_empty_r. Qed.

Lemma framed_liftOutcome {A : Type} (o : Outcome A) : framed (liftOutcome o).
Proof. intros s. unfold liftOutcome; simpl. now rewrite appendState_empty_r. Qed.

Lemma framed_await {A : Type} (call : Event) (answer : Outcome A) :
  framed (await call answer).
Proof.
  intros s. unfold await, appendState; simpl. now rewrite app_nil_r.
Qed.

Lemma framed_push (entry : ResultEntry.t) : framed (push entry).
Proof.
  intros s. unfold push, appendState; simpl. now rewrite app_nil_r.
Qed.

Lemma framed_bind {A B : Type} (m : M A) (k : A -> M B) :
  framed m -> (forall a, framed (k a)) -> framed (bind m k).
Proof.
  intros Hm Hk s. unfold bind. rewrite (Hm s).
  destruct (m emptyState) as [s0 [a|e]]; simpl; [|reflexivity].
  rewrite (Hk a (appendState s s0)), (Hk a s0); simpl.
  now rewrite appendState_assoc.
Qed.

Lemma framed_catchIgnore (m : M unit) : framed m -> framed (catchIgnore m).
Proof. intros Hm s. unfold catchIgnore. now rewrite (Hm s). Qed.

Lemma framed_tryCatchFinally {A : Type}
    (body : M A) (handler : Thrown -> M A) (finalizer : M unit) :
  framed body -> (forall e, framed (handler e)) -> framed finalizer ->
  framed (tryCatchFinally body handler finalizer).
Proof.
  intros Hb Hh Hf s. unfold tryCatchFinally. rewrite (Hb s).
  destruct (body emptyState) as [s0 [a|e]]; simpl.
  - rewrite (Hf (appendState s s0)), (Hf s0).
    destruct (finalizer emptyState) as [s1 o1]; simpl.
    now rewrite appendState_assoc.
  - rewrite (Hh e (appendState s s0)), (Hh e s0).
    destruct (handler e emptyState) as [s1 o1]; simpl.
    rewrite (Hf (appendState (appendState s s0) s1)), (Hf (appendState s0 s1)).
    destruct (finalizer emptyState) as [s2 o2]; simpl.
    now rewrite !appendState_assoc.
Qed.

Create HintDb framed.

#[local] Hint Resolve framed_ret framed_throw framed_liftOutcome framed_await
  framed_push framed_bind framed_catchIgnore framed_tryCatchFinally : framed.

Lemma processItem_framed (w : World) (allKeys : list jsstring)
    (model : jsstring) (index : nat) (file : File.t) (prompt : jsstring) :
  framed (processItem w allKeys model index file prompt).
Proof.
  unfold processItem.
  apply framed_tryCatchFinally; auto with framed.
  apply framed_bind; [auto with framed|]. intros _.
  apply framed_bind; [auto with framed|]. intros up.
  destruct (ref_uri (fileRefOf up file)) as [uri|]; [|auto with framed].
  destruct (truthy uri && truthy (ref_mimeType (fileRefOf up file)));
    auto 6 with framed.
Qed.

(** ** One image, then the loop *)

Section Images.

Variables (w : World) (allKeys : list jsstring) (model : jsstring).

(** The statement of the loop body never lets an exception out. *)
Lemma processItem_resolves (index : nat) (file : File.t) (prompt : jsstring) :
  snd (processItem w allKeys model index file prompt emptyState)
  = Resolved tt.
Proof. item_cases (item w index) up; reflexivity. Qed.

Lemma processItem_run (index : nat) (file : File.t) (prompt : jsstring)
    (s : State) :
  processItem w allKeys model index file prompt s
  = (appendState s (itemRun w allKeys model index file prompt), Resolved tt).
Proof.
  rewrite (processItem_framed w allKeys model index file prompt s).
  now rewrite processItem_resolves.
Qed.

(** One image pushes one entry, with the name of its file and its prompt. *)
Lemma itemRun_entry (index : nat) (file : File.t) (prompt : jsstring) :
  exists e,
    results (itemRun w allKeys model index file prompt) = [e]
    /\ ResultEntry.filename e = File.name file
    /\ ResultEntry.prompt e = prompt
    /\ exactlyOne e.
Proof.
  item_cases (item w index) up; eexists; repeat split;
    solve [ left; split; [discriminate|reflexivity]
          | right; split; [reflexivity|discriminate] ].
Qed.

(** The calls of one image: its file is staged, then come calls on the
    service, then the staged file is removed. *)
Lemma itemRun_trace (index : nat) (file : File.t) (prompt : jsstring) :
  exists calls,
    trace (itemRun w allKeys model index file prompt)
    = WriteFile (tempPathOf w index file) (File.bytes file)
        :: calls ++ [Unlink (tempPathOf w index file)]
    /\ Forall (serviceCall (tempPathOf w index file) prompt) calls.
Proof.
  item_cases (item w index) up;
    match goal with
    | |- exists calls, _ :: ?l = _ :: calls ++ [?u] /\ _ =>
        let rec go acc l :=
          lazymatch l with
          | [u] => exists acc
          | ?x :: ?r => go (acc ++ [x]) r
          end in go (@nil Event) l
    end; simpl; split; try reflexivity; repeat constructor.
Qed.

(** An image whose upload or generation call throws gets an error entry. *)
Lemma itemRun_call_fails (index : nat) (file : File.t) (prompt : jsstring) :
  callFails (item w index) ->
  exists message,
    results (itemRun w allKeys model index file prompt)
    = [failureEntry file prompt message].
Proof.
  unfold callFails.
  item_cases (item w index) up;
    try (intros [[e He]|[e He]]; discriminate);
    intros _; eexists; reflexivity.
Qed.

(** An image whose reference cannot be used: the upload error, and no
    generation call. *)
Lemma itemRun_unusable (i : nat) (file : File.t) (prompt : jsstring)
    (up : UploadResponse.t) :
  writeFile (item w i) = Resolved tt ->
  upload (item w i) = Resolved up ->
  usableRef (fileRefOf up file) = false ->
  itemRun w allKeys model i file prompt
  = {| results := [failureEntry file prompt uploadFailedMessage];
       trace :=
         [WriteFile (tempPathOf w i file) (File.bytes file);
          Upload (pickKey allKeys (random (item w i))) (tempPathOf w i file);
          Unlink (tempPathOf w i file)] |}.
Proof.
  intros Hw Hu Href.
  unfold itemRun, processItem, tryCatchFinally, catchIgnore, bind, await,
    push, throw, liftOutcome. simpl. rewrite Hw, Hu. simpl.
  unfold usableRef in Href.
  destruct (ref_uri (fileRefOf up file)) as [uri|]; [|reflexivity].
  now rewrite Href.
Qed.

(** An image whose reference can be used: the generation call is made with
    the URI and the media type of the reference. *)
Lemma itemRun_usable (i : nat) (file : File.t) (prompt : jsstring)
    (up : UploadResponse.t) (uri : jsstring) :
  writeFile (item w i) = Resolved tt ->
  upload (item w i) = Resolved up ->
  ref_uri (fileRefOf up file) = Some uri ->
  usableRef (fileRefOf up file) = true ->
  itemRun w allKeys model i file prompt
  = {| results :=
         [generationEntry file prompt (generateContent (item w i))];
       trace :=
         [WriteFile (tempPathOf w i file) (File.bytes file);
          Upload (pickKey allKeys (random (item w i))) (tempPathOf w i file);
          GenerateContent (pickKey allKeys (random (item w i))) model prompt
            uri (ref_mimeType (fileRefOf up file));
          Unlink (tempPathOf w i file)] |}.
Proof.
  intros Hw Hu Huri Href.
  unfold itemRun, processItem, tryCatchFinally, catchIgnore, bind, await,
    push, throw, liftOutcome, generationEntry. simpl. rewrite Hw, Hu. simpl.
  unfold usableRef in Href. rewrite Huri in *. rewrite Href.
  destruct (generateContent (item w i)) as [response|e]; simpl;
    [destruct (ensureText response)|]; reflexivity.
Qed.

Lemma forEachFile_cons (defaultPrompt : jsstring) (prompts : json)
    (file : File.t) (rest : list File.t) (index : nat) (s : State) :
  forEachFile w allKeys model defaultPrompt prompts (file :: rest) index s
  = match resolvePrompt prompts index defaultPrompt with
    | Resolved prompt =>
        forEachFile w allKeys model defaultPrompt prompts rest (S index)
          (appendState s (itemRun w allKeys model index file prompt))
    | Rejected e => (s, Rejected e)
    end.
Proof.
  simpl. unfold bind at 1. unfold liftOutcome.
  destruct (resolvePrompt prompts index defaultPrompt) as [prompt|e];
    [|reflexivity].
  unfold bind. now rewrite processItem_run.
Qed.

(** Whatever the prompts are, a property of the state that every image
    preserves holds when the loop ends, normally or not. *)
Lemma forEachFile_invariant (P : State -> Prop)
    (defaultPrompt : jsstring) (prompts : json) :
  (forall s index file prompt,
      P s -> P (appendState s (itemRun w allKeys model index file prompt))) ->
  forall files index s,
    P s ->
    P (fst (forEachFile w allKeys model defaultPrompt prompts files index s)).
Proof.
  intros Hstep files.
  induction files as [|file rest IH]; intros index s Hs; [exact Hs|].
  rewrite forEachFile_cons.
  destruct (resolvePrompt prompts index defaultPrompt) as [prompt|e];
    [|exact Hs].
  apply IH. now apply Hstep.
Qed.

Lemma truthy_trim_choice (text fallback : jsstring) :
  (if truthy (trim text) then trim text else fallback)
  = trimmedOr (Some text) fallback.
Proof. simpl. rewrite truthy_trim. now destruct (blank text). Qed.

Lemma resolvePrompt_strings (ps : list jsstring) (index : nat)
    (defaultPrompt : jsstring) :
  resolvePrompt (JArray (map JString ps)) index defaultPrompt
  = Resolved (trimmedOr (nth_error ps index) defaultPrompt).
Proof.
  unfold resolvePrompt, getIndex. rewrite nth_error_map.
  destruct (nth_error ps index) as [own|]; simpl; [|reflexivity].
  rewrite truthy_trim. now destruct (blank own).
Qed.

Lemma results_concatStates (runs : list State) :
  results (concatStates runs) = concat (map results runs).
Proof.
  induction runs as [|r runs IH]; [reflexivity|]. simpl. now rewrite IH.
Qed.

Lemma trace_concatStates (runs : list State) :
  trace (concatStates runs) = concat (map trace runs).
Proof.
  induction runs as [|r runs IH]; [reflexivity|]. simpl. now rewrite IH.
Qed.

(** With prompts that are strings the loop runs to its end, and adds what
    each image adds. *)
Lemma forEachFile_strings (defaultPrompt : jsstring) (ps : list jsstring)
    (files : list File.t) :
  forall index s,
    forEachFile w allKeys model defaultPrompt (JArray (map JString ps))
      files index s
    = (appendState s
         (concatStates
            (runsFrom w allKeys model
               (fun i => trimmedOr (nth_error ps i) defaultPrompt)
               files index)),
       Resolved tt).
Proof.
  induction files as [|file rest IH]; intros index s.
  - simpl. unfold ret. now rewrite appendState_empty_r.
  - rewrite forEachFile_cons, resolvePrompt_strings, IH. simpl.
    now rewrite appendState_assoc.
Qed.

Lemma runsFrom_length (promptAt : nat -> jsstring) (files : list File.t) :
  forall index,
    length (runsFrom w allKeys model promptAt files index) = length files.
Proof.
  induction files as [|file rest IH]; intros index; simpl;
    [reflexivity | now rewrite IH].
Qed.

Lemma runsFrom_nth (promptAt : nat -> jsstring) (files : list File.t) :
  forall index i,
    nth_error (runsFrom w allKeys model promptAt files index) i
    = option_map
        (fun file =>
           itemRun w allKeys model (index + i) file (promptAt (index + i)))
        (nth_error files i).
Proof.
  induction files as [|file rest IH]; intros index i.
  - now destruct i.
  - destruct i as [|i]; simpl.
    + now rewrite Nat.add_0_r.
    + rewrite IH. now rewrite Nat.add_succ_r.
Qed.

(** The entries of a list of runs, each of which pushed one entry. *)
Lemma singleton_runs_nth (runs : list State) :
  Forall (fun r => exists e, results r = [e]) runs ->
  forall i,
    nth_error (concat (map results runs)) i
    = match nth_error runs i with
      | Some r => hd_error (results r)
      | None => None
      end.
Proof.
  induction 1 as [|r runs [e He] _ IH]; intros i.
  - now destruct i.
  - simpl. rewrite He. destruct i as [|i]; simpl; [now rewrite He|apply IH].
Qed.

Lemma singleton_runs_length (runs : list State) :
  Forall (fun r => exists e, results r = [e]) runs ->
  length (concat (map results runs)) = length runs.
Proof.
  induction 1 as [|r runs [e He] _ IH]; [reflexivity|].
  simpl. rewrite He. simpl. now rewrite IH.
Qed.

Lemma runsFrom_singletons (promptAt : nat -> jsstring)
    (files : list File.t) :
  forall index,
    Forall (fun r => exists e, results r = [e])
      (runsFrom w allKeys model promptAt files index).
Proof.
  induction files as [|file rest IH]; intros index; simpl; constructor.
  - destruct (itemRun_entry index file (promptAt index)) as [e [He _]].
    now exists e.
  - apply IH.
Qed.

End Images.

(** ** Valid batches *)

Lemma stringItems_map (items : list json) :
  forall ps, stringItems items = Some ps -> items = map JString ps.
Proof.
  induction items as [|j rest IH]; intros ps H; simpl in H.
  - injection H as <-. reflexivity.
  - destruct j as [| | |s| |]; try discriminate.
    destruct (stringItems rest) as [qs|]; [|discriminate].
    injection H as <-. simpl. now rewrite (IH qs).
Qed.

Lemma promptStrings_parsed (formData : FormData) (ps : list jsstring) :
  promptStrings formData = Some ps ->
  JSON_parse
    (entryToString
       (nullish_or (formData_get formData (lit "prompts"))
          (EntryString (lit "[]"))))
  = Some (JArray (map JString ps)).
Proof.
  unfold promptStrings.
  destruct (formData_get formData (lit "prompts")) as [[s|f]|]; simpl.
  - destruct (JSON_parse s) as [[| | | |items|]|]; try discriminate.
    intros H. now rewrite (stringItems_map items ps H).
  - discriminate.
  - intros H. injection H as <-. reflexivity.
Qed.

Lemma trimOr_text (formData : FormData) (field : string)
    (fallback : jsstring) :
  isTextField formData field = true ->
  trimOr (formData_get formData (lit field)) fallback
  = ret (trimmedOr (fieldText formData field) fallback).
Proof.
  unfold isTextField, fieldText.
  destruct (formData_get formData (lit field)) as [[s|f]|]; intros H.
  - unfold trimOr. now rewrite truthy_trim_choice.
  - discriminate.
  - reflexivity.
Qed.

(** A valid batch is served with status 200, and the state the handler
    ends in is what its images added, one after the other. *)
Lemma serve_valid (env : ProcessEnv) (w : World) (formData : FormData)
    (ps : list jsstring) :
  validBatch env formData ps ->
  serve env w formData
  = (concatStates (batchRuns env w formData ps),
     Resolved
       {| status := 200;
          body :=
            ResultsBody (results (concatStates (batchRuns env w formData ps)))
       |}).
Proof.
  intros (Himg & Hps & Hd & Hm & Hkeys).
  unfold serve, POST, batchRuns.
  destruct (imageFiles formData) as [|file rest] eqn:Efiles; [congruence|].
  rewrite (promptStrings_parsed formData ps Hps).
  rewrite (trimOr_text formData "defaultPrompt" _ Hd).
  rewrite (trimOr_text formData "model" _ Hm).
  unfold bind at 1 2. unfold ret at 1 2.
  destruct (allKeysOf env formData) as [|k ks] eqn:Ekeys; [congruence|].
  unfold bind. rewrite forEachFile_strings.
  now rewrite appendState_empty_l.
Qed.

Lemma batchRuns_length (env : ProcessEnv) (w : World) (formData : FormData)
    (ps : list jsstring) :
  length (batchRuns env w formData ps) = length (imageFiles formData).
Proof. apply runsFrom_length. Qed.

Lemma batchRuns_nth (env : ProcessEnv) (w : World) (formData : FormData)
    (ps : list jsstring) (i : nat) :
  nth_error (batchRuns env w formData ps) i
  = option_map
      (fun file =>
         itemRun w (allKeysOf env formData) (batchModel formData) i file
           (effectivePrompt formData ps i))
      (nth_error (imageFiles formData) i).
Proof. unfold batchRuns. now rewrite runsFrom_nth. Qed.

(** The entry of the image at [i] is the one entry its run pushed. *)
Lemma batch_entry_nth (env : ProcessEnv) (w : World) (formData : FormData)
    (ps : list jsstring) (i : nat) :
  nth_error (results (concatStates (batchRuns env w formData ps))) i
  = match nth_error (imageFiles formData) i with
    | Some file =>
        hd_error
          (results
             (itemRun w (allKeysOf env formData) (batchModel formData) i file
                (effectivePrompt formData ps i)))
    | None => None
    end.
Proof.
  rewrite results_concatStates, singleton_runs_nth
    by apply runsFrom_singletons.
  rewrite batchRuns_nth.
  now destruct (nth_error (imageFiles formData) i).
Qed.

Lemma batch_entries_length (env : ProcessEnv) (w : World)
    (formData : FormData) (ps : list jsstring) :
  length (results (concatStates (batchRuns env w formData ps)))
  = length (imageFiles formData).
Proof.
  rewrite results_concatStates, singleton_runs_length
    by apply runsFrom_singletons.
  apply batchRuns_length.
Qed.

(** The calls of a valid batch, image by image: the staging of the file,
    the calls on the service, the removal of the staged file. *)
Lemma batch_trace_segments (env : ProcessEnv) (w : World)
    (formData : FormData) (ps : list jsstring) :
  validBatch env formData ps ->
  exists segments,
    trace (fst (serve env w formData)) = concat segments
    /\ length segments = length (imageFiles formData)
    /\ forall i file,
         nth_error (imageFiles formData) i = Some file ->
         exists calls,
           nth_error segments i
           = Some (WriteFile (tempPathOf w i file) (File.bytes file)
                     :: calls ++ [Unlink (tempPathOf w i file)])
           /\ Forall
                (serviceCall (tempPathOf w i file)
                   (effectivePrompt formData ps i))
                calls.
Proof.
  intros Hvalid. rewrite (serve_valid env w formData ps Hvalid). simpl.
  exists (map trace (batchRuns env w formData ps)).
  split; [apply trace_concatStates|]. split.
  - rewrite length_map. apply batchRuns_length.
  - intros i file Hfile.
    rewrite nth_error_map, batchRuns_nth, Hfile. simpl.
    destruct (itemRun_trace w (allKeysOf env formData) (batchModel formData)
                i file (effectivePrompt formData ps i)) as [calls [Ht Hc]].
    exists calls. now rewrite Ht.
Qed.

(** ** One entry per image *)

(** C3: a valid batch of N images is answered with status 200 and N
    entries; the entry at each position carries the name of the image at
    that position and its effective prompt. *)
Theorem C3_one_entry_per_image_in_order
    (env : ProcessEnv) (w : World) (formData : FormData)
    (ps : list jsstring) :
  validBatch env formData ps ->
  exists entries,
    snd (serve env w formData)
    = Resolved {| status := 200; body := ResultsBody entries |}
    /\ length entries = length (imageFiles formData)
    /\ forall i file,
         nth_error (imageFiles formData) i = Some file ->
         exists e,
           nth_error entries i = Some e
           /\ ResultEntry.filename e = File.name file
           /\ ResultEntry.prompt e = effectivePrompt formData ps i.
Proof.
  intros Hvalid. rewrite (serve_valid env w formData ps Hvalid). simpl.
  eexists. split; [reflexivity|]. split; [apply batch_entries_length|].
  intros i file Hfile. rewrite batch_entry_nth, Hfile.
  destruct (itemRun_entry w (allKeysOf env formData) (batchModel formData)
              i file (effectivePrompt formData ps i))
    as (e & He & Hname & Hprompt & _).
  exists e. rewrite He. now repeat split.
Qed.

Lemma C3_one_entry_per_image_in_order_witness :
  exists entries,
    snd (serve exampleEnv
           (exampleWorld (fun i => goodItem "u" "files/a" "A trumpet"))
           [image "a.png"; image "b.png"])
    = Resolved {| status := 200; body := ResultsBody entries |}
    /\ length entries = 2
    /\ forall i file,
         nth_error [pngFile "a.png"; pngFile "b.png"] i = Some file ->
         exists e,
           nth_error entries i = Some e
           /\ ResultEntry.filename e = File.name file
           /\ ResultEntry.prompt e
              = effectivePrompt [image "a.png"; image "b.png"] [] i.
Proof.
  apply (C3_one_entry_per_image_in_order exampleEnv
           (exampleWorld (fun i => goodItem "u" "files/a" "A trumpet"))
           [image "a.png"; image "b.png"] []).
  repeat split; try reflexivity; discriminate.
Defined.

(** ** Every request *)

(** A request is either turned down before the loop, with nothing done, or
    goes through the loop. *)
Lemma serve_cases (env : ProcessEnv) (w : World) (formData : FormData) :
  (fst (serve env w formData) = emptyState
   /\ responseEntries (snd (serve env w formData)) = [])
  \/ exists prompts defaultPrompt model,
       serve env w formData
       = afterLoop
           (forEachFile w (allKeysOf env formData) model defaultPrompt prompts
              (imageFiles formData) 0 emptyState).
Proof.
  unfold serve, POST.
  destruct (imageFiles formData) as [|file rest] eqn:Efiles;
    [left; now split|].
  destruct (JSON_parse _) as [prompts|]; [|left; now split].
  destruct (formData_get formData (lit "defaultPrompt")) as [[d|f]|];
    destruct (formData_get formData (lit "model")) as [[m|g]|];
    try (left; now split);
    (destruct (allKeysOf env formData) as [|k ks] eqn:Ekeys;
     [left; now split|]);
    right; eexists prompts, _, _;
    unfold trimOr, bind, ret, afterLoop, emptyState;
    match goal with
    | |- context [forEachFile ?a ?b ?c ?d ?e ?f ?g ?h] =>
        destruct (forEachFile a b c d e f g h) as [s [[]|e']]; reflexivity
    end.
Qed.

Lemma serve_invariant (P : State -> Prop) (env : ProcessEnv) (w : World)
    (formData : FormData) :
  P emptyState ->
  (forall s model index file prompt,
      P s ->
      P (appendState s
           (itemRun w (allKeysOf env formData) model index file prompt))) ->
  P (fst (serve env w formData)).
Proof.
  intros H0 Hstep.
  destruct (serve_cases env w formData)
    as [[-> _]|(prompts & d & m & ->)]; [exact H0|].
  simpl. apply forEachFile_invariant; [|exact H0].
  intros s index file prompt. apply Hstep.
Qed.

Lemma response_entries_in_state (env : ProcessEnv) (w : World)
    (formData : FormData) :
  responseEntries (snd (serve env w formData)) = []
  \/ responseEntries (snd (serve env w formData))
     = results (fst (serve env w formData)).
Proof.
  destruct (serve_cases env w formData)
    as [[_ H]|(prompts & d & m & ->)]; [now left|].
  unfold afterLoop; simpl.
  destruct (snd (forEachFile _ _ _ _ _ _ _ _)); [now right|now left].
Qed.

(** C4: every entry the handler pushes, and so every entry of a response,
    has either a text and no error, or an error and no text. *)
Theorem C4_text_and_error_exclusive
    (env : ProcessEnv) (w : World) (formData : FormData) :
  Forall exactlyOne (results (fst (serve env w formData)))
  /\ Forall exactlyOne (responseEntries (snd (serve env w formData))).
Proof.
  assert (H : Forall exactlyOne (results (fst (serve env w formData)))).
  { apply (serve_invariant (fun s => Forall exactlyOne (results s))).
    - constructor.
    - intros s model index file prompt Hs. simpl.
      apply Forall_app. split; [exact Hs|].
      destruct (itemRun_entry w (allKeysOf env formData) model index file
                  prompt) as (e & -> & _ & _ & He).
      now constructor. }
  split; [exact H|].
  destruct (response_entries_in_state env w formData) as [-> | ->];
    [constructor | exact H].
Qed.

(** ** Malformed prompts *)

(** C2 (as amended): when the request has at least one image file and its
    [prompts] field is present but cannot be decoded by [JSON.parse], the
    handler answers with status 400 and the malformed-prompts message,
    without entries and without any call for any image. *)
Theorem C2_undecodable_prompts_rejected
    (env : ProcessEnv) (w : World) (formData : FormData)
    (entry : FormDataEntryValue) :
  imageFiles formData <> [] ->
  formData_get formData (lit "prompts") = Some entry ->
  JSON_parse (entryToString entry) = None ->
  serve env w formData
  = (emptyState,
     Resolved {| status := 400; body := ErrorBody malformedPromptsMessage |}).
Proof.
  intros Himg Hget Hparse. unfold serve, POST.
  destruct (imageFiles formData) as [|file rest]; [congruence|].
  rewrite Hget. simpl. now rewrite Hparse.
Qed.

Lemma C2_undecodable_prompts_rejected_witness :
  serve exampleEnv (exampleWorld (fun i => goodItem "u" "files/a" "A trumpet"))
    [image "a.png"; textPart "prompts" (lit "not json")]
  = (emptyState,
     Resolved {| status := 400; body := ErrorBody malformedPromptsMessage |}).
Proof.
  apply (C2_undecodable_prompts_rejected exampleEnv
           (exampleWorld (fun i => goodItem "u" "files/a" "A trumpet"))
           [image "a.png"; textPart "prompts" (lit "not json")]
           (EntryString (lit "not json")));
    [discriminate | reflexivity | reflexivity].
Defined.

(** C2 (as stated) fails.  A [prompts] field that holds an object is
    present and is not an array of strings, yet the batch is processed and
    answered with status 200.  And a request without image files is turned
    down for its missing images, whatever its [prompts] field holds. *)
Lemma C2_present_non_array_prompts_not_rejected :
  let w := exampleWorld (fun i => goodItem "u" "files/a" "A trumpet") in
  let withObject := [image "a.png"; textPart "prompts" (lit "{}")] in
  let withoutImages := [textPart "prompts" (lit "not json")] in
  (formData_get withObject (lit "prompts") = Some (EntryString (lit "{}"))
   /\ JSON_parse (lit "{}") = Some (JObject [])
   /\ promptStrings withObject = None
   /\ snd (serve exampleEnv w withObject)
      = Resolved
          {| status := 200;
             body :=
               ResultsBody
                 [{| ResultEntry.filename := lit "a.png";
                     ResultEntry.prompt := defaultPromptLiteral;
                     ResultEntry.text := Some (lit "A trumpet");
                     ResultEntry.error := None |}] |})
  /\ (JSON_parse (lit "not json") = None
      /\ snd (serve exampleEnv w withoutImages)
         = Resolved {| status := 400; body := ErrorBody noImagesMessage |}
      /\ noImagesMessage <> malformedPromptsMessage).
Proof.
  repeat split; try reflexivity. discriminate.
Qed.

(** ** The effective prompt *)

(** C6 (as amended): for a valid batch, the prompt recorded in the entry of
    the image at [i], and passed to every generation call made for it, is
    the image's own prompt with the white space around it trimmed, when
    that prompt is present and not blank, and otherwise the default prompt
    of the batch: the trimmed [defaultPrompt] field, or the fixed literal
    when the field is absent or blank. *)
Theorem C6_effective_prompt_is_trimmed_own_or_default
    (env : ProcessEnv) (w : World) (formData : FormData)
    (ps : list jsstring) (i : nat) (file : File.t) :
  validBatch env formData ps ->
  nth_error (imageFiles formData) i = Some file ->
  let prompt :=
    trimmedOr (nth_error ps i)
      (trimmedOr (fieldText formData "defaultPrompt") defaultPromptLiteral) in
  (exists e,
      nth_error (responseEntries (snd (serve env w formData))) i = Some e
      /\ ResultEntry.prompt e = prompt)
  /\ exists segments calls,
       trace (fst (serve env w formData)) = concat segments
       /\ nth_error segments i
          = Some (WriteFile (tempPathOf w i file) (File.bytes file)
                    :: calls ++ [Unlink (tempPathOf w i file)])
       /\ Forall (serviceCall (tempPathOf w i file) prompt) calls.
Proof.
  intros Hvalid Hfile prompt. split.
  - rewrite (serve_valid env w formData ps Hvalid). simpl.
    rewrite batch_entry_nth, Hfile.
    destruct (itemRun_entry w (allKeysOf env formData) (batchModel formData)
                i file (effectivePrompt formData ps i))
      as (e & He & _ & Hprompt & _).
    exists e. rewrite He. now split.
  - destruct (batch_trace_segments env w formData ps Hvalid)
      as (segments & Htrace & _ & Hseg).
    destruct (Hseg i file Hfile) as (calls & Hnth & Hcalls).
    now exists segments, calls.
Qed.

Lemma C6_effective_prompt_is_trimmed_own_or_default_witness :
  let w := exampleWorld (fun i => goodItem "u" "files/a" "A trumpet") in
  let formData :=
    [image "a.png";
     textPart "prompts" (lit "[" ++ quoted (lit "What color is this?") ++ lit "]")]
  in
  exists e,
    nth_error (responseEntries (snd (serve exampleEnv w formData))) 0 = Some e
    /\ ResultEntry.prompt e = lit "What color is this?".
Proof.
  intros w formData.
  apply (C6_effective_prompt_is_trimmed_own_or_default exampleEnv w formData
           [lit "What color is this?"] 0 (pngFile "a.png")).
  - repeat split; try reflexivity; discriminate.
  - reflexivity.
Defined.

(** C6 (as stated) fails: an own prompt with white space around it is
    present and not blank, but the entry and the generation call carry its
    trimmed text, not the prompt itself. *)
Lemma C6_own_prompt_is_not_kept_as_sent :
  let w := exampleWorld (fun i => goodItem "u" "files/a" "A trumpet") in
  let formData :=
    [image "a.png";
     textPart "prompts" (lit "[" ++ quoted (lit " hi ") ++ lit "]")] in
  promptStrings formData = Some [lit " hi "]
  /\ blank (trim (lit " hi ")) = false
  /\ map ResultEntry.prompt (responseEntries (snd (serve exampleEnv w formData)))
     = [lit "hi"]
  /\ trace (fst (serve exampleEnv w formData))
     = [WriteFile (lit "/tmp/u-a.png") [137; 80; 78; 71]%N;
        Upload (Some (lit "k")) (lit "/tmp/u-a.png");
        GenerateContent (Some (lit "k")) (lit "gemini-2.5-flash") (lit "hi")
          (lit "files/a") (lit "image/png");
        Unlink (lit "/tmp/u-a.png")]
  /\ lit "hi" <> lit " hi ".
Proof.
  repeat split; try reflexivity. discriminate.
Qed.

(** ** The asset reference *)

(** The image at [i] of a valid batch: its entry and its calls are those
    of its own run. *)
Lemma batch_item (env : ProcessEnv) (w : World) (formData : FormData)
    (ps : list jsstring) (i : nat) (file : File.t) :
  validBatch env formData ps ->
  nth_error (imageFiles formData) i = Some file ->
  let run :=
    itemRun w (allKeysOf env formData) (batchModel formData) i file
      (effectivePrompt formData ps i) in
  nth_error (responseEntries (snd (serve env w formData))) i
  = hd_error (results run)
  /\ exists segments,
       trace (fst (serve env w formData)) = concat segments
       /\ length segments = length (imageFiles formData)
       /\ nth_error segments i = Some (trace run).
Proof.
  intros Hvalid Hfile run.
  rewrite (serve_valid env w formData ps Hvalid). simpl. split.
  - now rewrite batch_entry_nth, Hfile.
  - exists (map trace (batchRuns env w formData ps)).
    split; [apply trace_concatStates|]. split.
    + rewrite length_map. apply batchRuns_length.
    + now rewrite nth_error_map, batchRuns_nth, Hfile.
Qed.

(** C8 (as amended): when the file of an image was staged and the upload
    answered, and the asset reference (the [file] member of the answer when
    there is one, otherwise the answer's own URI with its media type or,
    when it has none, the type of the uploaded file) has no URI, an empty
    URI or an empty media type, the upload step fails with the handler's
    fixed upload-failure message; that message is the error of the image's
    entry, and no generation call is made for the image. *)
Theorem C8_unusable_reference_gives_upload_error
    (env : ProcessEnv) (w : World) (formData : FormData)
    (ps : list jsstring) (i : nat) (file : File.t)
    (up : UploadResponse.t) :
  validBatch env formData ps ->
  nth_error (imageFiles formData) i = Some file ->
  writeFile (item w i) = Resolved tt ->
  upload (item w i) = Resolved up ->
  usableRef (fileRefOf up file) = false ->
  nth_error (responseEntries (snd (serve env w formData))) i
  = Some (failureEntry file (effectivePrompt formData ps i)
            uploadFailedMessage)
  /\ exists segments,
       trace (fst (serve env w formData)) = concat segments
       /\ length segments = length (imageFiles formData)
       /\ nth_error segments i
          = Some
              [WriteFile (tempPathOf w i file) (File.bytes file);
               Upload (pickKey (allKeysOf env formData) (random (item w i)))
                 (tempPathOf w i file);
               Unlink (tempPathOf w i file)].
Proof.
  intros Hvalid Hfile Hw Hu Href.
  destruct (batch_item env w formData ps i file Hvalid Hfile) as [He Hs].
  rewrite (itemRun_unusable w _ _ i file _ up Hw Hu Href) in He, Hs.
  split; [exact He | exact Hs].
Qed.

Lemma C8_unusable_reference_gives_upload_error_witness :
  let w :=
    exampleWorld
      (fun i => withUpload (goodItem "u" "files/a" "A trumpet")
                  (Resolved emptyUpload)) in
  nth_error (responseEntries (snd (serve exampleEnv w [image "a.png"]))) 0
  = Some (failureEntry (pngFile "a.png") defaultPromptLiteral
            uploadFailedMessage).
Proof.
  intros w.
  apply (C8_unusable_reference_gives_upload_error exampleEnv w
           [image "a.png"] [] 0 (pngFile "a.png") emptyUpload);
    try reflexivity.
  repeat split; try reflexivity; discriminate.
Defined.

(** C8 (as stated) fails: an upload answer without a media type does not
    make the upload step fail when the uploaded file has a type of its
    own; the generation call is made and the entry carries its text. *)
Lemma C8_answer_without_media_type_is_accepted :
  let w := exampleWorld (fun i => goodItem "u" "files/a" "A trumpet") in
  upload (item w 0) = Resolved (flatUpload "files/a")
  /\ UploadResponse.mimeType (flatUpload "files/a") = None
  /\ responseEntries (snd (serve exampleEnv w [image "a.png"]))
     = [{| ResultEntry.filename := lit "a.png";
           ResultEntry.prompt := defaultPromptLiteral;
           ResultEntry.text := Some (lit "A trumpet");
           ResultEntry.error := None |}]
  /\ trace (fst (serve exampleEnv w [image "a.png"]))
     = [WriteFile (lit "/tmp/u-a.png") [137; 80; 78; 71]%N;
        Upload (Some (lit "k")) (lit "/tmp/u-a.png");
        GenerateContent (Some (lit "k")) (lit "gemini-2.5-flash")
          defaultPromptLiteral (lit "files/a") (lit "image/png");
        Unlink (lit "/tmp/u-a.png")].
Proof. repeat split. Qed.

(** C10 (as amended): when the upload answer has no [file] member, has a
    URI that is not empty and has no media type at all, the type of the
    uploaded file is taken as the media type of the asset reference: the
    generation call is made with it when it is not empty, and the upload
    step fails only when it is empty.  An answer with a [file] member, or
    with a media type of its own (an empty one too), is taken as it is. *)
Theorem C10_absent_media_type_takes_file_type
    (env : ProcessEnv) (w : World) (formData : FormData)
    (ps : list jsstring) (i : nat) (file : File.t) (uri : jsstring) :
  validBatch env formData ps ->
  nth_error (imageFiles formData) i = Some file ->
  writeFile (item w i) = Resolved tt ->
  upload (item w i)
  = Resolved {| UploadResponse.file := None;
                UploadResponse.uri := Some uri;
                UploadResponse.mimeType := None |} ->
  uri <> [] ->
  let prompt := effectivePrompt formData ps i in
  let key := pickKey (allKeysOf env formData) (random (item w i)) in
  (File.type file <> [] ->
     nth_error (responseEntries (snd (serve env w formData))) i
     = Some (generationEntry file prompt (generateContent (item w i)))
     /\ exists segments,
          trace (fst (serve env w formData)) = concat segments
          /\ length segments = length (imageFiles formData)
          /\ nth_error segments i
             = Some
                 [WriteFile (tempPathOf w i file) (File.bytes file);
                  Upload key (tempPathOf w i file);
                  GenerateContent key (batchModel formData) prompt uri
                    (File.type file);
                  Unlink (tempPathOf w i file)])
  /\ (File.type file = [] ->
        nth_error (responseEntries (snd (serve env w formData))) i
        = Some (failureEntry file prompt uploadFailedMessage))
  /\ (forall f u m other,
        fileRefOf {| UploadResponse.file := Some f;
                     UploadResponse.uri := u;
                     UploadResponse.mimeType := m |} other
        = {| ref_uri := Some (UploadResponse.file_uri f);
             ref_mimeType := UploadResponse.file_mimeType f |})
  /\ (forall u m other,
        fileRefOf {| UploadResponse.file := None;
                     UploadResponse.uri := u;
                     UploadResponse.mimeType := Some m |} other
        = {| ref_uri := u; ref_mimeType := m |}).
Proof.
  intros Hvalid Hfile Hw Hu Huri prompt key.
  destruct (batch_item env w formData ps i file Hvalid Hfile) as [He Hs].
  apply truthy_not_nil in Huri.
  split; [|split; [|split; reflexivity]].
  - intros Htype. apply truthy_not_nil in Htype.
    rewrite (itemRun_usable w _ _ i file _ _ uri Hw Hu eq_refl) in He, Hs
      by (unfold usableRef; simpl; now rewrite Huri, Htype).
    split; [exact He | exact Hs].
  - intros Htype.
    rewrite (itemRun_unusable w _ _ i file _ _ Hw Hu) in He
      by (unfold usableRef; simpl; rewrite Htype; apply andb_false_r).
    exact He.
Qed.

Lemma C10_absent_media_type_takes_file_type_witness :
  let w := exampleWorld (fun i => goodItem "u" "files/a" "A trumpet") in
  exists segments,
    trace (fst (serve exampleEnv w [image "a.png"])) = concat segments
    /\ length segments = 1
    /\ nth_error segments 0
       = Some
           [WriteFile (lit "/tmp/u-a.png") [137; 80; 78; 71]%N;
            Upload (Some (lit "k")) (lit "/tmp/u-a.png");
            GenerateContent (Some (lit "k")) (lit "gemini-2.5-flash")
              defaultPromptLiteral (lit "files/a") (lit "image/png");
            Unlink (lit "/tmp/u-a.png")].
Proof.
  intros w.
  apply (C10_absent_media_type_takes_file_type exampleEnv w
           [image "a.png"] [] 0 (pngFile "a.png") (lit "files/a"));
    try reflexivity; try discriminate.
  repeat split; try reflexivity; discriminate.
Defined.

(** C10 (as stated) fails: the type of the uploaded file is not taken when
    the answer has a [file] member whose media type is empty, nor when the
    answer's own media type is the empty string; the upload step fails
    although the uploaded file has a type. *)
Lemma C10_wrapped_or_empty_media_type_fails :
  let wrapped :=
    {| UploadResponse.file :=
         Some {| UploadResponse.file_uri := lit "files/a";
                 UploadResponse.file_mimeType := [] |};
       UploadResponse.uri := None;
       UploadResponse.mimeType := None |} in
  let flatEmpty :=
    {| UploadResponse.file := None;
       UploadResponse.uri := Some (lit "files/a");
       UploadResponse.mimeType := Some [] |} in
  let world answer :=
    exampleWorld
      (fun i => withUpload (goodItem "u" "files/a" "A trumpet")
                  (Resolved answer)) in
  File.type (pngFile "a.png") = lit "image/png"
  /\ responseEntries (snd (serve exampleEnv (world wrapped) [image "a.png"]))
     = [failureEntry (pngFile "a.png") defaultPromptLiteral
          uploadFailedMessage]
  /\ responseEntries (snd (serve exampleEnv (world flatEmpty) [image "a.png"]))
     = [failureEntry (pngFile "a.png") defaultPromptLiteral
          uploadFailedMessage].
Proof. repeat split. Qed.

(** ** Failures stay with their image *)

Lemma itemRun_withItem_other (w : World) (i : nat) (iw : ItemWorld)
    (allKeys : list jsstring) (model : jsstring) (j : nat) (file : File.t)
    (prompt : jsstring) :
  j <> i ->
  itemRun (withItem w i iw) allKeys model j file prompt
  = itemRun w allKeys model j file prompt.
Proof.
  intros H. unfold itemRun, processItem, tempPathOf. simpl.
  now rewrite (proj2 (Nat.eqb_neq j i) H).
Qed.

(** C5: in a valid batch, when the upload call or the generation call of
    the image at [i] fails, the entry at [i] carries an error and no text,
    every other entry is the one the handler returns when the calls of the
    image at [i] are answered in any other way, and both responses have
    status 200 and one entry per image. *)
Theorem C5_item_failures_are_isolated
    (env : ProcessEnv) (w : World) (formData : FormData)
    (ps : list jsstring) (i : nat) (file : File.t) (otherwise : ItemWorld) :
  validBatch env formData ps ->
  nth_error (imageFiles formData) i = Some file ->
  callFails (item w i) ->
  exists entries entries' message,
    snd (serve env w formData)
    = Resolved {| status := 200; body := ResultsBody entries |}
    /\ snd (serve env (withItem w i otherwise) formData)
       = Resolved {| status := 200; body := ResultsBody entries' |}
    /\ length entries = length (imageFiles formData)
    /\ length entries' = length (imageFiles formData)
    /\ nth_error entries i
       = Some (failureEntry file (effectivePrompt formData ps i) message)
    /\ forall j, j <> i -> nth_error entries j = nth_error entries' j.
Proof.
  intros Hvalid Hfile Hfails.
  rewrite (serve_valid env w formData ps Hvalid).
  rewrite (serve_valid env (withItem w i otherwise) formData ps Hvalid).
  simpl.
  destruct (itemRun_call_fails w (allKeysOf env formData)
              (batchModel formData) i file (effectivePrompt formData ps i)
              Hfails) as [message Hm].
  eexists _, _, message.
  split; [reflexivity|]. split; [reflexivity|].
  split; [apply batch_entries_length|].
  split; [apply batch_entries_length|]. split.
  - now rewrite batch_entry_nth, Hfile, Hm.
  - intros j Hj. rewrite !batch_entry_nth.
    destruct (nth_error (imageFiles formData) j) as [other|]; [|reflexivity].
    now rewrite itemRun_withItem_other.
Qed.

Lemma C5_item_failures_are_isolated_witness :
  let failing :=
    withUpload (goodItem "v" "files/b" "A drum")
      (Rejected (ErrorObject (lit "quota exceeded"))) in
  let w :=
    withItem (exampleWorld (fun i => goodItem "u" "files/a" "A trumpet"))
      1 failing in
  exists entries entries' message,
    snd (serve exampleEnv w [image "a.png"; image "b.png"])
    = Resolved {| status := 200; body := ResultsBody entries |}
    /\ snd (serve exampleEnv
              (withItem w 1 (goodItem "v" "files/b" "A drum"))
              [image "a.png"; image "b.png"])
       = Resolved {| status := 200; body := ResultsBody entries' |}
    /\ length entries = 2
    /\ length entries' = 2
    /\ nth_error entries 1
       = Some (failureEntry (pngFile "b.png") defaultPromptLiteral message)
    /\ forall j, j <> 1 -> nth_error entries j = nth_error entries' j.
Proof.
  intros failing w.
  apply (C5_item_failures_are_isolated exampleEnv w
           [image "a.png"; image "b.png"] [] 1 (pngFile "b.png")
           (goodItem "v" "files/b" "A drum")).
  - repeat split; try reflexivity; discriminate.
  - reflexivity.
  - left. exists (ErrorObject (lit "quota exceeded")). reflexivity.
Defined.

(** ** Removal of the staged file *)

Lemma processItem_withUnlink (w : World) (outcome : nat -> Outcome unit)
    (allKeys : list jsstring) (model : jsstring) (index : nat)
    (file : File.t) (prompt : jsstring) (s : State) :
  processItem (withUnlink w outcome) allKeys model index file prompt s
  = processItem w allKeys model index file prompt s.
Proof. reflexivity. Qed.

Lemma forEachFile_withUnlink (w : World) (outcome : nat -> Outcome unit)
    (allKeys : list jsstring) (model defaultPrompt : jsstring)
    (prompts : json) (files : list File.t) :
  forall index s,
    forEachFile (withUnlink w outcome) allKeys model defaultPrompt prompts
      files index s
    = forEachFile w allKeys model defaultPrompt prompts files index s.
Proof.
  induction files as [|file rest IH]; intros index s; [reflexivity|].
  simpl. unfold bind at 1 3.
  destruct (liftOutcome (resolvePrompt prompts index defaultPrompt) s)
    as [s1 [prompt|e]]; [|reflexivity].
  unfold bind. rewrite processItem_withUnlink.
  destruct (processItem w allKeys model index file prompt s1)
    as [s2 [[]|e]]; [apply IH | reflexivity].
Qed.

Lemma serve_withUnlink (env : ProcessEnv) (w : World)
    (outcome : nat -> Outcome unit) (formData : FormData) :
  serve env (withUnlink w outcome) formData = serve env w formData.
Proof.
  unfold serve, POST.
  destruct (imageFiles formData) as [|file rest]; [reflexivity|].
  destruct (JSON_parse _) as [prompts|]; [|reflexivity].
  destruct (formData_get formData (lit "defaultPrompt")) as [[d|f]|];
    destruct (formData_get formData (lit "model")) as [[m|g]|];
    try reflexivity;
    (destruct (allKeysOf env formData) as [|k ks]; [reflexivity|]);
    unfold trimOr, bind, ret; now rewrite forEachFile_withUnlink.
Qed.

Lemma staged_serve (env : ProcessEnv) (w : World) (formData : FormData) :
  staged (trace (fst (serve env w formData))).
Proof.
  apply (serve_invariant (fun s => staged (trace s))); [constructor|].
  intros s model index file prompt Hs. simpl.
  destruct (itemRun_trace w (allKeysOf env formData) model index file prompt)
    as [calls [-> Hcalls]].
  now apply staged_item with (prompt := prompt).
Qed.

(** C9: whatever the request and the answers of the world, the calls of the
    handler form a sequence of stagings, each followed by the calls on the
    service for the staged file and then by the removal of that same file,
    before the next staging; for a valid batch there is one such group per
    image, at the temporary path of that image; and neither the state the
    handler ends in nor what it returns depends on how the removals are
    answered. *)
Theorem C9_staged_file_removed_after_each_image
    (env : ProcessEnv) (w : World) (formData : FormData) :
  staged (trace (fst (serve env w formData)))
  /\ (forall outcome,
        serve env (withUnlink w outcome) formData = serve env w formData)
  /\ (forall ps,
        validBatch env formData ps ->
        exists segments,
          trace (fst (serve env w formData)) = concat segments
          /\ length segments = length (imageFiles formData)
          /\ forall i file,
               nth_error (imageFiles formData) i = Some file ->
               exists calls,
                 nth_error segments i
                 = Some (WriteFile (tempPathOf w i file) (File.bytes file)
                           :: calls ++ [Unlink (tempPathOf w i file)])
                 /\ Forall
                      (serviceCall (tempPathOf w i file)
                         (effectivePrompt formData ps i))
                      calls).
Proof.
  split; [apply staged_serve|]. split.
  - intros outcome. apply serve_withUnlink.
  - intros ps. apply batch_trace_segments.
Qed.

Lemma C9_staged_file_removed_after_each_image_witness :
  let w := exampleWorld (fun i => goodItem "u" "files/a" "A trumpet") in
  exists segments,
    trace (fst (serve exampleEnv w [image "a.png"; image "b.png"]))
    = concat segments
    /\ length segments = 2
    /\ forall i file,
         nth_error [pngFile "a.png"; pngFile "b.png"] i = Some file ->
         exists calls,
           nth_error segments i
           = Some (WriteFile (tempPathOf w i file) (File.bytes file)
                     :: calls ++ [Unlink (tempPathOf w i file)])
           /\ Forall
                (serviceCall (tempPathOf w i file)
                   (effectivePrompt [image "a.png"; image "b.png"] [] i))
                calls.
Proof.
  intros w.
  destruct (C9_staged_file_removed_after_each_image exampleEnv w
              [image "a.png"; image "b.png"]) as (_ & _ & H).
  apply (H []). repeat split; try reflexivity; discriminate.
Defined.

(** ** The handler, case by case *)

Lemma serve_unfold (env : ProcessEnv) (w : World) (formData : FormData) :
  serve env w formData
  = match imageFiles formData with
    | [] =>
        (emptyState,
         Resolved {| status := 400; body := ErrorBody noImagesMessage |})
    | _ :: _ =>
        match JSON_parse (promptsText formData) with
        | None =>
            (emptyState,
             Resolved {| status := 400;
                         body := ErrorBody malformedPromptsMessage |})
        | Some prompts =>
            if isTextField formData "defaultPrompt" then
              if isTextField formData "model" then
                match allKeysOf env formData with
                | [] =>
                    (emptyState,
                     Resolved {| status := 400;
                                 body := ErrorBody noKeysMessage |})
                | _ :: _ =>
                    afterLoop
                      (forEachFile w (allKeysOf env formData)
                         (batchModel formData) (batchDefault formData)
                         prompts (imageFiles formData) 0 emptyState)
                end
              else (emptyState, Rejected (typeError "trim is not a function"))
            else (emptyState, Rejected (typeError "trim is not a function"))
        end
    end.
Proof.
  unfold serve, POST, promptsText, isTextField, batchModel, batchDefault,
    fieldText.
  destruct (imageFiles formData) as [|file rest]; [reflexivity|].
  destruct (JSON_parse _) as [prompts|]; [|reflexivity].
  destruct (formData_get formData (lit "defaultPrompt")) as [[d|f]|];
    destruct (formData_get formData (lit "model")) as [[m|g]|];
    try reflexivity;
    (destruct (allKeysOf env formData) as [|k ks]; [reflexivity|]);
    unfold trimOr, bind, ret, afterLoop, emptyState;
    rewrite ?truthy_trim_choice;
    try change (trimmedOr None defaultModelLiteral) with defaultModelLiteral;
    try change (trimmedOr None defaultPromptLiteral)
      with defaultPromptLiteral;
    match goal with
    | |- context [forEachFile ?a ?b ?c ?d ?e ?f ?g ?h] =>
        destruct (forEachFile a b c d e f g h) as [s [[]|e']]; reflexivity
    end.
Qed.

Lemma onlyFiles_nil (entries : list FormDataEntryValue) :
  onlyFiles entries = []
  <-> Forall (fun entry => exists s, entry = EntryString s) entries.
Proof.
  induction entries as [|[s|f] rest IH]; simpl.
  - split; [constructor | reflexivity].
  - rewrite IH. split.
    + intros H. constructor; [now exists s | exact H].
    + intros H. now inversion H.
  - split; [discriminate|]. intros H. inversion H as [|x l [s Hs] _].
    discriminate.
Qed.

Lemma resolvePrompt_rejects (prompts : json) (i : nat) (d : jsstring) :
  (exists e, resolvePrompt prompts i d = Rejected e)
  <-> promptThrows prompts i = true.
Proof.
  unfold resolvePrompt, promptThrows.
  destruct prompts as [|b|n|s|items|members]; simpl;
    try (split; [intros [e H]; discriminate | discriminate]);
    try (split; [reflexivity | intros _; eexists; reflexivity]).
  - destruct (nth_error s i); simpl;
      (split; [intros [e H]; discriminate | discriminate]).
  - destruct (nth_error items i) as [[| | | | |]|]; simpl;
      try (split; [intros [e H]; discriminate | discriminate]);
      (split; [reflexivity | intros _; eexists; reflexivity]).
  - destruct (getProperty members (indexKey i)) as [[| | | | |]|]; simpl;
      try (split; [intros [e H]; discriminate | discriminate]);
      (split; [reflexivity | intros _; eexists; reflexivity]).
Qed.

Section Loop.

Variables (w : World) (allKeys : list jsstring) (model : jsstring).
Variables (defaultPrompt : jsstring) (prompts : json).

(** The loop throws exactly when resolving the prompt of one of its images
    throws. *)
Lemma forEachFile_throws (files : list File.t) :
  forall index s,
    (exists e,
        snd (forEachFile w allKeys model defaultPrompt prompts files index s)
        = Rejected e)
    <-> existsb (promptThrows prompts) (seq index (length files)) = true.
Proof.
  induction files as [|file rest IH]; intros index s.
  - simpl. split; [intros [e H]; discriminate | discriminate].
  - rewrite forEachFile_cons. simpl.
    destruct (promptThrows prompts index) eqn:Hp; simpl.
    + apply resolvePrompt_rejects with (d := defaultPrompt) in Hp.
      destruct Hp as [e ->]. simpl.
      split; [reflexivity | intros _; now exists e].
    + destruct (resolvePrompt prompts index defaultPrompt) as [p|e] eqn:Hr.
      * apply IH.
      * assert (H : promptThrows prompts index = true)
          by (apply (resolvePrompt_rejects prompts index defaultPrompt);
              now exists e).
        congruence.
Qed.

(** When the loop ends without throwing it has pushed one entry per image,
    with the names of the files in their order. *)
Lemma forEachFile_filenames (files : list File.t) :
  forall index s,
    snd (forEachFile w allKeys model defaultPrompt prompts files index s)
    = Resolved tt ->
    map ResultEntry.filename
      (results
         (fst (forEachFile w allKeys model defaultPrompt prompts files index s)))
    = map ResultEntry.filename (results s) ++ map File.name files.
Proof.
  induction files as [|file rest IH]; intros index s.
  - intros _. simpl. now rewrite app_nil_r.
  - rewrite forEachFile_cons.
    destruct (resolvePrompt prompts index defaultPrompt) as [p|e];
      [|discriminate].
    intros H. rewrite (IH _ _ H). simpl.
    destruct (itemRun_entry w allKeys model index file p)
      as (e & -> & Hname & _).
    rewrite map_app. simpl. rewrite Hname. now rewrite <- app_assoc.
Qed.

End Loop.

Lemma messages_distinct :
  noImagesMessage <> malformedPromptsMessage
  /\ noImagesMessage <> noKeysMessage
  /\ malformedPromptsMessage <> noKeysMessage.
Proof. repeat split; intros H; vm_compute in H; discriminate. Qed.

Lemma afterLoop_not_400 (loop : State * Outcome unit) (message : jsstring) :
  snd (afterLoop loop)
  <> Resolved {| status := 400; body := ErrorBody message |}.
Proof.
  unfold afterLoop; simpl. destruct (snd loop); discriminate.
Qed.

(** ** Requests that are turned down *)

(** X1: the handler answers with status 400 and the no-images message,
    without any call, exactly when no part named [images] is a file. *)
Theorem X1_no_images_exactly_without_file_part
    (env : ProcessEnv) (w : World) (formData : FormData) :
  serve env w formData
  = (emptyState,
     Resolved {| status := 400; body := ErrorBody noImagesMessage |})
  <-> Forall (fun entry => exists s, entry = EntryString s)
        (formData_getAll formData (lit "images")).
Proof.
  rewrite <- onlyFiles_nil. fold (imageFiles formData).
  destruct messages_distinct as (H1 & H2 & _).
  rewrite serve_unfold.
  destruct (imageFiles formData) as [|file rest]; [tauto|].
  split; [|discriminate]. intros H. exfalso.
  destruct (JSON_parse (promptsText formData)) as [prompts|];
    [|injection H as H; congruence].
  destruct (isTextField formData "defaultPrompt"); [|discriminate].
  destruct (isTextField formData "model"); [|discriminate].
  destruct (allKeysOf env formData); [injection H as H; congruence|].
  apply (f_equal snd) in H. now apply afterLoop_not_400 in H.
Qed.

Lemma allKeysOf_nil (env : ProcessEnv) (formData : FormData) :
  allKeysOf env formData = []
  <-> withoutSeparators
        (nullish_or (GOOGLE_API_KEYS env) []
           ++ nullish_or (GOOGLE_API_KEY env) []) = []
      /\ parseClientKeys (formData_get formData (lit "apiKeys")) = [].
Proof.
  unfold allKeysOf. rewrite <- getEnvKeys_concat. split.
  - intros H. apply app_eq_nil in H. destruct H as [-> ->]. now split.
  - intros [H ->]. rewrite app_nil_r.
    destruct (getEnvKeys env) as [|k ks] eqn:E; [reflexivity|].
    assert (Hk : In k (getEnvKeys env)) by (rewrite E; now left).
    apply getEnvKeys_In in Hk. destruct Hk as [[Hk _] _].
    simpl in H. apply app_eq_nil in H. destruct H as [H _]. contradiction.
Qed.

(** X2: the handler answers with status 400 and the no-credentials
    message, without any call, exactly when the request has an image file,
    prompts that [JSON.parse] decodes, text for the default prompt and the
    model when they are sent, and an empty pool; and the pool is empty
    exactly when the operator's variables hold nothing but separators and
    the caller sent no usable token. *)
Theorem X2_no_credentials_exactly_with_empty_pool
    (env : ProcessEnv) (w : World) (formData : FormData) :
  (serve env w formData
   = (emptyState,
      Resolved {| status := 400; body := ErrorBody noKeysMessage |})
   <-> imageFiles formData <> []
       /\ JSON_parse (promptsText formData) <> None
       /\ isTextField formData "defaultPrompt" = true
       /\ isTextField formData "model" = true
       /\ allKeysOf env formData = [])
  /\ (allKeysOf env formData = []
      <-> withoutSeparators
            (nullish_or (GOOGLE_API_KEYS env) []
               ++ nullish_or (GOOGLE_API_KEY env) []) = []
          /\ parseClientKeys (formData_get formData (lit "apiKeys")) = []).
Proof.
  split; [|apply allKeysOf_nil].
  destruct messages_distinct as (_ & H2 & H3).
  rewrite serve_unfold.
  destruct (imageFiles formData) as [|file rest].
  { split; [intros H; injection H as H; congruence | intros [H _]; congruence]. }
  destruct (JSON_parse (promptsText formData)) as [prompts|].
  2:{ split; [intros H; injection H as H; congruence
             | intros (_ & H & _); congruence]. }
  destruct (isTextField formData "defaultPrompt").
  2:{ split; [discriminate | intros (_ & _ & H & _); discriminate]. }
  destruct (isTextField formData "model").
  2:{ split; [discriminate | intros (_ & _ & _ & H & _); discriminate]. }
  destruct (allKeysOf env formData) as [|k ks].
  - split; [intros _; repeat split; discriminate | reflexivity].
  - split; [|intros (_ & _ & _ & _ & H); discriminate].
    intros H. apply (f_equal snd) in H. now apply afterLoop_not_400 in H.
Qed.

(** X3: whatever the request and the world, the handler either answers
    with status 400 and one of its three messages, having made no call and
    pushed no entry; or answers with status 200 and the entries it pushed,
    one per image file, with the names of the files in their order; or lets
    an exception out. *)
Theorem X3_answer_is_400_without_calls_or_200_with_all_entries
    (env : ProcessEnv) (w : World) (formData : FormData) :
  (exists message,
      serve env w formData
      = (emptyState,
         Resolved {| status := 400; body := ErrorBody message |})
      /\ In message
           [noImagesMessage; malformedPromptsMessage; noKeysMessage])
  \/ (exists entries,
         snd (serve env w formData)
         = Resolved {| status := 200; body := ResultsBody entries |}
         /\ results (fst (serve env w formData)) = entries
         /\ map ResultEntry.filename entries
            = map File.name (imageFiles formData))
  \/ (exists e, snd (serve env w formData) = Rejected e).
Proof.
  rewrite serve_unfold.
  destruct (imageFiles formData) as [|file rest] eqn:Efiles.
  { left. eexists. split; [reflexivity | simpl; tauto]. }
  destruct (JSON_parse (promptsText formData)) as [prompts|].
  2:{ left. eexists. split; [reflexivity | simpl; tauto]. }
  destruct (isTextField formData "defaultPrompt");
    [|right; right; eexists; reflexivity].
  destruct (isTextField formData "model");
    [|right; right; eexists; reflexivity].
  destruct (allKeysOf env formData) as [|k ks].
  { left. eexists. split; [reflexivity | simpl; tauto]. }
  right.
  set (loop := forEachFile w (k :: ks) (batchModel formData)
                 (batchDefault formData) prompts (file :: rest) 0 emptyState).
  unfold afterLoop; cbn [fst snd].
  destruct (snd loop) as [[]|e] eqn:Hloop.
  - left. eexists. split; [reflexivity|]. split; [reflexivity|].
    unfold loop in *.
    now rewrite (forEachFile_filenames _ _ _ _ _ _ _ _ Hloop).
  - right. now exists e.
Qed.

(** X4: the handler lets an exception out exactly when the request has an
    image file and prompts that [JSON.parse] decodes, and then either the
    default prompt or the model is sent as a file, or the pool is not empty
    and the decoded prompts are [null] or hold, at the position of one of
    the images, something that is neither a string nor [null]. *)
Theorem X4_throws_exactly_on_ill_typed_fields
    (env : ProcessEnv) (w : World) (formData : FormData) :
  (exists e, snd (serve env w formData) = Rejected e)
  <-> imageFiles formData <> []
      /\ exists prompts,
           JSON_parse (promptsText formData) = Some prompts
           /\ (isTextField formData "defaultPrompt" = false
               \/ isTextField formData "model" = false
               \/ (allKeysOf env formData <> []
                   /\ existsb (promptThrows prompts)
                        (seq 0 (length (imageFiles formData))) = true)).
Proof.
  rewrite serve_unfold.
  destruct (imageFiles formData) as [|file rest] eqn:Efiles.
  { split; [intros [e H]; discriminate | intros [H _]; congruence]. }
  destruct (JSON_parse (promptsText formData)) as [prompts|].
  2:{ split; [intros [e H]; discriminate
             | intros (_ & p & H & _); discriminate]. }
  destruct (isTextField formData "defaultPrompt").
  2:{ split; [|intros _; eexists; reflexivity].
      intros _. split; [discriminate|]. exists prompts. tauto. }
  destruct (isTextField formData "model").
  2:{ split; [|intros _; eexists; reflexivity].
      intros _. split; [discriminate|]. exists prompts. tauto. }
  destruct (allKeysOf env formData) as [|k ks].
  { split; [intros [e H]; discriminate|].
    intros (_ & p & _ & [H|[H|[H _]]]); congruence. }
  pose proof (forEachFile_throws w (k :: ks) (batchModel formData)
                (batchDefault formData) prompts (file :: rest) 0 emptyState)
    as Hloop.
  set (loop := forEachFile w (k :: ks) (batchModel formData)
                 (batchDefault formData) prompts (file :: rest) 0 emptyState)
    in *.
  unfold afterLoop; cbn [fst snd]. split.
  - intros [e He]. split; [discriminate|]. exists prompts.
    split; [reflexivity|]. right; right. split; [discriminate|].
    apply Hloop.
    destruct (snd loop) as [[]|e']; [discriminate | now exists e'].
  - intros (_ & p & Hp & [H|[H|[_ H]]]); try discriminate.
    injection Hp as <-. apply Hloop in H. destruct H as [e ->].
    now exists e.
Qed.

Lemma X1_no_images_exactly_without_file_part_witness :
  serve exampleEnv (exampleWorld (fun i => goodItem "u" "files/a" "A trumpet"))
    [textPart "images" (lit "a.png"); textPart "prompts" (lit "oops")]
  = (emptyState,
     Resolved {| status := 400; body := ErrorBody noImagesMessage |}).
Proof.
  apply (proj2 (X1_no_images_exactly_without_file_part exampleEnv
                  (exampleWorld (fun i => goodItem "u" "files/a" "A trumpet"))
                  [textPart "images" (lit "a.png");
                   textPart "prompts" (lit "oops")])).
  constructor; [now exists (lit "a.png") | constructor].
Defined.

Lemma X2_no_credentials_exactly_with_empty_pool_witness :
  serve {| GOOGLE_API_KEYS := Some (lit " ,; "); GOOGLE_API_KEY := None |}
    (exampleWorld (fun i => goodItem "u" "files/a" "A trumpet"))
    [image "a.png"; textPart "apiKeys" (lit "[5]")]
  = (emptyState,
     Resolved {| status := 400; body := ErrorBody noKeysMessage |}).
Proof.
  apply (proj2 (proj1 (X2_no_credentials_exactly_with_empty_pool
                         {| GOOGLE_API_KEYS := Some (lit " ,; ");
                            GOOGLE_API_KEY := None |}
                         (exampleWorld
                            (fun i => goodItem "u" "files/a" "A trumpet"))
                         [image "a.png"; textPart "apiKeys" (lit "[5]")]))).
  repeat split; try reflexivity; discriminate.
Defined.

Lemma X4_throws_exactly_on_ill_typed_fields_witness :
  exists e,
    snd (serve exampleEnv
           (exampleWorld (fun i => goodItem "u" "files/a" "A trumpet"))
           [image "a.png"; image "b.png";
            textPart "prompts" (lit "[null, {}]")])
    = Rejected e.
Proof.
  apply (proj2 (X4_throws_exactly_on_ill_typed_fields exampleEnv
                  (exampleWorld (fun i => goodItem "u" "files/a" "A trumpet"))
                  [image "a.png"; image "b.png";
                   textPart "prompts" (lit "[null, {}]")])).
  split; [discriminate|].
  exists (JArray [JNull; JObject []]). split; [reflexivity|].
  right; right. split; [discriminate | reflexivity].
Defined.

(** ** The steps of one image *)

Section Steps.

Variables (w : World) (allKeys : list jsstring) (model : jsstring).

(** When the file cannot be staged, nothing is uploaded. *)
Lemma itemRun_write_fails (i : nat) (file : File.t) (prompt : jsstring)
    (e : Thrown) :
  writeFile (item w i) = Rejected e ->
  itemRun w allKeys model i file prompt
  = {| results := [failureEntry file prompt (errorMessage e)];
       trace :=
         [WriteFile (tempPathOf w i file) (File.bytes file);
          Unlink (tempPathOf w i file)] |}.
Proof.
  intros Hw.
  unfold itemRun, processItem, tryCatchFinally, catchIgnore, bind, await,
    push, throw, liftOutcome. simpl. now rewrite Hw.
Qed.

(** When the upload throws, no generation is asked for. *)
Lemma itemRun_upload_throws (i : nat) (file : File.t) (prompt : jsstring)
    (e : Thrown) :
  writeFile (item w i) = Resolved tt ->
  upload (item w i) = Rejected e ->
  itemRun w allKeys model i file prompt
  = {| results := [failureEntry file prompt (errorMessage e)];
       trace :=
         [WriteFile (tempPathOf w i file) (File.bytes file);
          Upload (pickKey allKeys (random (item w i))) (tempPathOf w i file);
          Unlink (tempPathOf w i file)] |}.
Proof.
  intros Hw Hu.
  unfold itemRun, processItem, tryCatchFinally, catchIgnore, bind, await,
    push, throw, liftOutcome. simpl. now rewrite Hw, Hu.
Qed.

Lemma pickKey_from (r : nat) : 
  match pickKey allKeys r with
  | Some k => In k allKeys
  | None => True
  end.
Proof.
  unfold pickKey. destruct (nth_error allKeys r) as [k|] eqn:E; [|exact I].
  now apply nth_error_In with (n := r).
Qed.

Lemma pickKey_in (r : nat) :
  r < length allKeys -> exists k, pickKey allKeys r = Some k /\ In k allKeys.
Proof.
  intros Hr. unfold pickKey.
  destruct (nth_error allKeys r) as [k|] eqn:E.
  - exists k. split; [reflexivity|]. now apply nth_error_In with (n := r).
  - apply nth_error_None in E. apply Nat.lt_nge in Hr. contradiction.
Qed.

Lemma itemRun_keys (i : nat) (file : File.t) (prompt : jsstring) :
  Forall (keyFrom allKeys) (trace (itemRun w allKeys model i file prompt))
  /\ (random (item w i) < length allKeys ->
      Forall (keyIn allKeys) (trace (itemRun w allKeys model i file prompt))).
Proof.
  pose proof (pickKey_from (random (item w i))) as Hfrom.
  split; [|intros Hr; pose proof (pickKey_in (random (item w i)) Hr) as Hin];
    item_cases (item w i) up;
    repeat constructor; assumption.
Qed.

Lemma itemRun_model (i : nat) (file : File.t) (prompt : jsstring) :
  Forall (modelIs model) (trace (itemRun w allKeys model i file prompt)).
Proof. item_cases (item w i) up; repeat constructor. Qed.

End Steps.

(** X5: in a valid batch, when staging the file of the image at [i]
    fails, no upload and no generation is asked for that image, the removal
    of the staged file is still attempted, and the entry of the image
    carries the message of what was thrown (the generic message when it is
    not an [Error]). *)
Theorem X5_staging_failure_skips_the_service
    (env : ProcessEnv) (w : World) (formData : FormData)
    (ps : list jsstring) (i : nat) (file : File.t) (e : Thrown) :
  validBatch env formData ps ->
  nth_error (imageFiles formData) i = Some file ->
  writeFile (item w i) = Rejected e ->
  nth_error (responseEntries (snd (serve env w formData))) i
  = Some (failureEntry file (effectivePrompt formData ps i) (errorMessage e))
  /\ exists segments,
       trace (fst (serve env w formData)) = concat segments
       /\ length segments = length (imageFiles formData)
       /\ nth_error segments i
          = Some [WriteFile (tempPathOf w i file) (File.bytes file);
                  Unlink (tempPathOf w i file)].
Proof.
  intros Hvalid Hfile Hw.
  destruct (batch_item env w formData ps i file Hvalid Hfile) as [He Hs].
  rewrite (itemRun_write_fails w _ _ i file _ e Hw) in He, Hs.
  split; [exact He | exact Hs].
Qed.

Lemma X5_staging_failure_skips_the_service_witness :
  let full :=
    {| randomUUID := lit "u";
       writeFile := Rejected NonError;
       random := 0;
       upload := Resolved (flatUpload "files/a");
       generateContent := Resolved (Some (textResponse "A trumpet"));
       unlink := Rejected (ErrorObject (lit "ENOENT")) |} in
  nth_error
    (responseEntries
       (snd (serve exampleEnv (exampleWorld (fun i => full)) [image "a.png"])))
    0
  = Some (failureEntry (pngFile "a.png") defaultPromptLiteral
            genericErrorMessage).
Proof.
  intros full.
  apply (X5_staging_failure_skips_the_service exampleEnv
           (exampleWorld (fun i => full)) [image "a.png"] [] 0
           (pngFile "a.png") NonError);
    try reflexivity.
  repeat split; try reflexivity; discriminate.
Defined.

(** X6: in a valid batch, when the upload call of the image at [i] throws,
    no generation is asked for that image, the staged file is removed, and
    the entry of the image carries the message of what the upload threw,
    not the handler's own upload-failure message. *)
Theorem X6_upload_exception_gives_its_own_message
    (env : ProcessEnv) (w : World) (formData : FormData)
    (ps : list jsstring) (i : nat) (file : File.t) (e : Thrown) :
  validBatch env formData ps ->
  nth_error (imageFiles formData) i = Some file ->
  writeFile (item w i) = Resolved tt ->
  upload (item w i) = Rejected e ->
  nth_error (responseEntries (snd (serve env w formData))) i
  = Some (failureEntry file (effectivePrompt formData ps i) (errorMessage e))
  /\ exists segments,
       trace (fst (serve env w formData)) = concat segments
       /\ length segments = length (imageFiles formData)
       /\ nth_error segments i
          = Some [WriteFile (tempPathOf w i file) (File.bytes file);
                  Upload (pickKey (allKeysOf env formData) (random (item w i)))
                    (tempPathOf w i file);
                  Unlink (tempPathOf w i file)].
Proof.
  intros Hvalid Hfile Hw Hu.
  destruct (batch_item env w formData ps i file Hvalid Hfile) as [He Hs].
  rewrite (itemRun_upload_throws w _ _ i file _ e Hw Hu) in He, Hs.
  split; [exact He | exact Hs].
Qed.

Lemma X6_upload_exception_gives_its_own_message_witness :
  let w :=
    exampleWorld
      (fun i => withUpload (goodItem "u" "files/a" "A trumpet")
                  (Rejected (ErrorObject (lit "quota exceeded")))) in
  nth_error (responseEntries (snd (serve exampleEnv w [image "a.png"]))) 0
  = Some (failureEntry (pngFile "a.png") defaultPromptLiteral
            (lit "quota exceeded")).
Proof.
  intros w.
  apply (X6_upload_exception_gives_its_own_message exampleEnv w
           [image "a.png"] [] 0 (pngFile "a.png")
           (ErrorObject (lit "quota exceeded")));
    try reflexivity.
  repeat split; try reflexivity; discriminate.
Defined.

(** X7: in a valid batch, when the file of the image at [i] was staged and
    the upload answered with a reference that can be used (in the wrapped
    or in the flat shape), one generation call is made, with the key of the
    upload, the model of the batch, the prompt of the image and the URI and
    media type of the reference; the entry of the image carries the text
    extracted from the answer, or the message of what the call or the
    extraction threw. *)
Theorem X7_usable_reference_is_passed_to_generation
    (env : ProcessEnv) (w : World) (formData : FormData)
    (ps : list jsstring) (i : nat) (file : File.t)
    (up : UploadResponse.t) (uri : jsstring) :
  validBatch env formData ps ->
  nth_error (imageFiles formData) i = Some file ->
  writeFile (item w i) = Resolved tt ->
  upload (item w i) = Resolved up ->
  ref_uri (fileRefOf up file) = Some uri ->
  usableRef (fileRefOf up file) = true ->
  let prompt := effectivePrompt formData ps i in
  let key := pickKey (allKeysOf env formData) (random (item w i)) in
  nth_error (responseEntries (snd (serve env w formData))) i
  = Some (generationEntry file prompt (generateContent (item w i)))
  /\ exists segments,
       trace (fst (serve env w formData)) = concat segments
       /\ length segments = length (imageFiles formData)
       /\ nth_error segments i
          = Some [WriteFile (tempPathOf w i file) (File.bytes file);
                  Upload key (tempPathOf w i file);
                  GenerateContent key (batchModel formData) prompt uri
                    (ref_mimeType (fileRefOf up file));
                  Unlink (tempPathOf w i file)].
Proof.
  intros Hvalid Hfile Hw Hu Huri Href prompt key.
  destruct (batch_item env w formData ps i file Hvalid Hfile) as [He Hs].
  rewrite (itemRun_usable w _ _ i file _ up uri Hw Hu Huri Href) in He, Hs.
  split; [exact He | exact Hs].
Qed.

Lemma X7_usable_reference_is_passed_to_generation_witness :
  let wrapped :=
    {| UploadResponse.file :=
         Some {| UploadResponse.file_uri := lit "files/w";
                 UploadResponse.file_mimeType := lit "image/webp" |};
       UploadResponse.uri := Some (lit "files/ignored");
       UploadResponse.mimeType := None |} in
  let w :=
    exampleWorld
      (fun i => withUpload (goodItem "u" "files/a" "A trumpet")
                  (Resolved wrapped)) in
  exists segments,
    trace (fst (serve exampleEnv w [image "a.png"])) = concat segments
    /\ length segments = 1
    /\ nth_error segments 0
       = Some [WriteFile (lit "/tmp/u-a.png") [137; 80; 78; 71]%N;
               Upload (Some (lit "k")) (lit "/tmp/u-a.png");
               GenerateContent (Some (lit "k")) (lit "gemini-2.5-flash")
                 defaultPromptLiteral (lit "files/w") (lit "image/webp");
               Unlink (lit "/tmp/u-a.png")].
Proof.
  intros wrapped w.
  apply (X7_usable_reference_is_passed_to_generation exampleEnv w
           [image "a.png"] [] 0 (pngFile "a.png") wrapped (lit "files/w"));
    try reflexivity.
  repeat split; try reflexivity; discriminate.
Defined.

(** X8: whatever the request and the world, the key of every upload and
    generation call is a token of the pool of the request, or is missing
    when the random index falls outside the pool; when every random index
    falls inside the pool, every call has a key of the pool. *)
Theorem X8_keys_of_the_calls_come_from_the_pool
    (env : ProcessEnv) (w : World) (formData : FormData) :
  Forall (keyFrom (allKeysOf env formData))
    (trace (fst (serve env w formData)))
  /\ ((forall i, random (item w i) < length (allKeysOf env formData)) ->
      Forall (keyIn (allKeysOf env formData))
        (trace (fst (serve env w formData)))).
Proof.
  split; [|intros Hr];
    apply (serve_invariant (fun s => Forall _ (trace s)));
    try constructor;
    intros s model index file prompt Hs; simpl;
    apply Forall_app; (split; [exact Hs|]);
    now apply itemRun_keys.
Qed.

Lemma X8_keys_of_the_calls_come_from_the_pool_witness :
  Forall (keyIn [lit "k"])
    (trace
       (fst (serve exampleEnv
               (exampleWorld (fun i => goodItem "u" "files/a" "A trumpet"))
               [image "a.png"; image "b.png"]))).
Proof.
  apply (proj2 (X8_keys_of_the_calls_come_from_the_pool exampleEnv
                  (exampleWorld (fun i => goodItem "u" "files/a" "A trumpet"))
                  [image "a.png"; image "b.png"])).
  intros i. simpl. constructor.
Defined.

(** X9: whatever the request and the world, every generation call is made
    for the model of the batch: the trimmed [model] field of the request,
    or the fixed model name when the field is absent or blank. *)
Theorem X9_generation_uses_the_model_of_the_batch
    (env : ProcessEnv) (w : World) (formData : FormData) :
  Forall
    (modelIs (trimmedOr (fieldText formData "model") defaultModelLiteral))
    (trace (fst (serve env w formData))).
Proof.
  fold (batchModel formData). rewrite serve_unfold.
  destruct (imageFiles formData) as [|file rest]; [constructor|].
  destruct (JSON_parse (promptsText formData)) as [prompts|]; [|constructor].
  destruct (isTextField formData "defaultPrompt"); [|constructor].
  destruct (isTextField formData "model"); [|constructor].
  destruct (allKeysOf env formData) as [|k ks]; [constructor|].
  unfold afterLoop; cbn [fst].
  apply (forEachFile_invariant w (k :: ks) (batchModel formData)
           (fun s => Forall (modelIs (batchModel formData)) (trace s)));
    [|constructor].
  intros s index f prompt Hs. simpl.
  apply Forall_app. split; [exact Hs | apply itemRun_model].
Qed.

(** ** Splitting on separators *)

Section Splitting.

Variable sep : N -> bool.

Lemma split_on_no_separator (s piece : jsstring) (inRun : bool) :
  (forall c, In c piece -> sep c = false) ->
  forall p, In p (split_on sep piece inRun s) ->
  forall c, In c p -> sep c = false.
Proof.
  revert piece inRun.
  induction s as [|d r IH]; intros piece inRun Hpiece p Hp c Hc; simpl in Hp.
  - destruct Hp as [<-|[]]. apply Hpiece. now apply in_rev.
  - destruct (sep d) eqn:Hd.
    + assert (Hnil : forall x : N, In x [] -> sep x = false) by (intros x []).
      destruct inRun.
      * exact (IH [] true Hnil p Hp c Hc).
      * destruct Hp as [<-|Hp].
        -- apply Hpiece. now apply in_rev.
        -- exact (IH [] true Hnil p Hp c Hc).
    + refine (IH (d :: piece) false _ p Hp c Hc).
      intros x [<-|Hx]; [exact Hd | now apply Hpiece].
Qed.

(** A token: not empty, trimmed, and without a separator in it. *)
Lemma tokens_on_In (s k : jsstring) :
  In k (tokens_on sep s) ->
  cleanToken k /\ forall c, In c k -> sep c = false.
Proof.
  unfold tokens_on. intros H.
  apply filter_In in H. destruct H as [H Hk].
  apply in_map_iff in H. destruct H as [p [<- Hp]].
  split; [now apply trimmed_clean|].
  intros c Hc. apply trim_incl in Hc.
  refine (split_on_no_separator _ [] false _ p Hp c Hc).
  intros x [].
Qed.

Lemma split_on_app_sep (x : jsstring) :
  forall piece inRun c y,
    sep c = true ->
    (inRun = true -> piece = []) ->
    filter truthy (map trim (split_on sep piece inRun (x ++ c :: y)))
    = filter truthy (map trim (split_on sep piece inRun x))
        ++ filter truthy (map trim (split_on sep [] true y)).
Proof.
  induction x as [|d x IH]; intros piece inRun c y Hc Hrun; simpl.
  - rewrite Hc. destruct inRun.
    + now rewrite (Hrun eq_refl).
    + simpl. now destruct (truthy (trim (rev piece))).
  - destruct (sep d).
    + destruct inRun.
      * now apply IH.
      * simpl. rewrite (IH [] true c y Hc) by reflexivity.
        now destruct (truthy (trim (rev piece))).
    + apply IH; [exact Hc | discriminate].
Qed.

Lemma split_on_run_start (y : jsstring) :
  filter truthy (map trim (split_on sep [] true y))
  = filter truthy (map trim (split_on sep [] false y)).
Proof. destruct y as [|c r]; simpl; [|destruct (sep c)]; reflexivity. Qed.

Lemma split_on_skip_run (seps y : jsstring) :
  forallb sep seps = true ->
  split_on sep [] true (seps ++ y) = split_on sep [] true y.
Proof.
  induction seps as [|c seps IH]; [reflexivity|]. simpl.
  intros H. apply andb_true_iff in H. destruct H as [-> H]. now apply IH.
Qed.

(** The tokens of two texts with separators between them are the tokens of
    the first followed by the tokens of the second. *)
Lemma tokens_on_app (x seps y : jsstring) :
  seps <> [] ->
  forallb sep seps = true ->
  tokens_on sep (x ++ seps ++ y) = tokens_on sep x ++ tokens_on sep y.
Proof.
  destruct seps as [|c seps]; [congruence|]. intros _ H. simpl in H.
  apply andb_true_iff in H. destruct H as [Hc Hseps].
  unfold tokens_on. simpl app.
  rewrite (split_on_app_sep x [] false c (seps ++ y) Hc) by discriminate.
  now rewrite (split_on_skip_run seps y Hseps), split_on_run_start.
Qed.

Lemma split_on_plain (k : jsstring) :
  forall piece inRun,
    (forall c, In c k -> sep c = false) ->
    split_on sep piece inRun k = [rev piece ++ k].
Proof.
  induction k as [|c k IH]; intros piece inRun H; simpl.
  - now rewrite app_nil_r.
  - rewrite (H c) by now left.
    rewrite IH by (intros x Hx; apply H; now right).
    simpl. now rewrite <- app_assoc.
Qed.

Lemma tokens_on_single (k : jsstring) :
  k <> [] -> trim k = k -> (forall c, In c k -> sep c = false) ->
  tokens_on sep k = [k].
Proof.
  intros Hk Ht Hs. unfold tokens_on.
  rewrite (split_on_plain k [] false Hs). simpl. rewrite Ht.
  apply truthy_not_nil in Hk. now rewrite Hk.
Qed.

(** Tokens joined by separators are read back as they were. *)
Lemma tokens_on_join (seps : jsstring) (ks : list jsstring) :
  seps <> [] ->
  forallb sep seps = true ->
  Forall (fun k => k <> [] /\ trim k = k
                   /\ forall c, In c k -> sep c = false) ks ->
  tokens_on sep (join seps ks) = ks.
Proof.
  intros Hne Hseps. induction 1 as [|k rest (Hk & Ht & Hs) Hrest IH].
  - reflexivity.
  - destruct rest as [|k' rest'].
    + simpl. now apply tokens_on_single.
    + change (join seps (k :: k' :: rest'))
        with (k ++ seps ++ join seps (k' :: rest')).
      rewrite (tokens_on_app k seps _ Hne Hseps), IH.
      now rewrite (tokens_on_single k Hk Ht Hs).
Qed.

End Splitting.

Lemma split_from_split_on (s : jsstring) :
  forall piece inRun,
    split_from piece inRun s = split_on isKeySeparator piece inRun s.
Proof.
  induction s as [|c r IH]; intros piece inRun; simpl; [reflexivity|].
  now rewrite !IH.
Qed.

Lemma getEnvKeys_tokens (env : ProcessEnv) :
  getEnvKeys env
  = tokens_on isKeySeparator
      (join (lit ",")
         (filter truthy
            [nullish_or (GOOGLE_API_KEYS env) [];
             nullish_or (GOOGLE_API_KEY env) []])).
Proof.
  unfold getEnvKeys, tokens_on, split_separators.
  now rewrite split_from_split_on.
Qed.

Lemma withoutSeparators_fixed (k : jsstring) :
  withoutSeparators k = k <-> forall c, In c k -> isKeySeparator c = false.
Proof.
  unfold withoutSeparators. split.
  - intros H c Hc. rewrite <- H in Hc. apply filter_In in Hc.
    destruct Hc as [_ Hc]. now apply negb_true_iff in Hc.
  - intros H. apply forallb_filter_id. apply forallb_forall.
    intros c Hc. now rewrite (H c Hc).
Qed.

(** ** The operator's variables *)

(** X10: the tokens read from the operator's two variables are the tokens
    of the first variable followed by the tokens of the second: joining the
    variables never merges the last token of one with the first token of
    the other. *)
Theorem X10_tokens_of_the_two_variables_do_not_merge
    (keys key : option jsstring) :
  getEnvKeys {| GOOGLE_API_KEYS := keys; GOOGLE_API_KEY := key |}
  = getEnvKeys {| GOOGLE_API_KEYS := keys; GOOGLE_API_KEY := None |}
      ++ getEnvKeys {| GOOGLE_API_KEYS := None; GOOGLE_API_KEY := key |}.
Proof.
  rewrite !getEnvKeys_tokens. simpl GOOGLE_API_KEYS. simpl GOOGLE_API_KEY.
  destruct (nullish_or keys []) as [|a x];
    destruct (nullish_or key []) as [|b y]; simpl filter; cbn [nullish_or].
  - reflexivity.
  - reflexivity.
  - cbn [join]. now rewrite app_nil_r.
  - change (join (lit ",") [a :: x; b :: y])
      with ((a :: x) ++ lit "," ++ (b :: y)).
    now rewrite tokens_on_app by (try discriminate; reflexivity).
Qed.

(** X11: tokens that are not empty and hold no comma, semicolon or white
    space, written into a variable with any non-empty run of separators
    between them, are read back as the same tokens in the same order. *)
Theorem X11_joined_tokens_are_read_back
    (seps : jsstring) (ks : list jsstring) :
  seps <> [] ->
  forallb isKeySeparator seps = true ->
  Forall (fun k => k <> [] /\ withoutSeparators k = k) ks ->
  getEnvKeys {| GOOGLE_API_KEYS := Some (join seps ks);
                GOOGLE_API_KEY := None |} = ks.
Proof.
  intros Hne Hseps Hks. rewrite getEnvKeys_tokens. cbn [nullish_or
    GOOGLE_API_KEYS GOOGLE_API_KEY].
  assert (Hclean :
    Forall (fun k => k <> [] /\ trim k = k
                     /\ forall c, In c k -> isKeySeparator c = false) ks).
  { apply Forall_forall. intros k Hk.
    destruct (proj1 (Forall_forall _ _) Hks k Hk) as [Hn Hw].
    pose proof (proj1 (withoutSeparators_fixed k) Hw) as Hs.
    split; [exact Hn|]. split; [|exact Hs].
    apply trim_no_white. intros c Hc. apply separator_not_white. now apply Hs. }
  destruct (join seps ks) as [|c r] eqn:E.
  - simpl. destruct ks as [|k rest]; [reflexivity|].
    assert (H : tokens_on isKeySeparator (join seps (k :: rest)) = k :: rest)
      by now apply tokens_on_join.
    rewrite E in H. discriminate H.
  - simpl filter. cbn [join]. rewrite <- E. now apply tokens_on_join.
Qed.

Lemma X11_joined_tokens_are_read_back_witness :
  getEnvKeys {| GOOGLE_API_KEYS := Some (lit "alpha; beta; gamma");
                GOOGLE_API_KEY := None |}
  = [lit "alpha"; lit "beta"; lit "gamma"].
Proof.
  apply (X11_joined_tokens_are_read_back (lit "; ")
           [lit "alpha"; lit "beta"; lit "gamma"]).
  - discriminate.
  - reflexivity.
  - repeat constructor; discriminate.
Defined.

(** ** [JSON.stringify], read back by [JSON.parse] *)

Lemma lex_silent (st st' : lexState) (c : N) (r : jsstring) :
  lexStep st c = Some ([], st') -> lex st (c :: r) = lex st' r.
Proof.
  intros H. simpl. rewrite H. now destruct (lex st' r).
Qed.

Lemma hexDigit_hexChar (d : N) :
  (d < 16)%N -> hexDigit (hexChar d) = Some d.
Proof.
  intros H.
  assert (Hd : In d [0; 1; 2; 3; 4; 5; 6; 7; 8; 9; 10; 11; 12; 13; 14; 15]%N).
  { simpl. lia. }
  simpl in Hd.
  repeat (destruct Hd as [<-|Hd]; [reflexivity|]). contradiction.
Qed.

Lemma hex_digits_value (c : N) :
  (c < 65536)%N ->
  ((((0 * 16 + c / 4096 mod 16) * 16 + c / 256 mod 16) * 16
    + c / 16 mod 16) * 16 + c mod 16 = c)%N.
Proof.
  intros H.
  assert (H3 : (c / 4096 < 16)%N) by (apply N.Div0.div_lt_upper_bound; lia).
  rewrite (N.mod_small (c / 4096) 16 H3).
  assert (E2 : (c / 256 = 16 * (c / 4096) + c / 256 mod 16)%N).
  { replace (c / 4096)%N with (c / 256 / 16)%N
      by (rewrite N.Div0.div_div; reflexivity).
    apply N.div_mod. discriminate. }
  assert (E1 : (c / 16 = 16 * (c / 256) + c / 16 mod 16)%N).
  { replace (c / 256)%N with (c / 16 / 16)%N
      by (rewrite N.Div0.div_div; reflexivity).
    apply N.div_mod. discriminate. }
  pose proof (N.div_mod c 16) as E0.
  lia.
Qed.

Lemma lex_unicodeEscape (c : N) (acc rest : jsstring) :
  (c < 65536)%N ->
  lex (LString acc) (unicodeEscape c ++ rest) = lex (LString (c :: acc)) rest.
Proof.
  intros H. unfold unicodeEscape.
  assert (Hd : forall x, hexDigit (hexChar (x mod 16)) = Some (x mod 16)%N).
  { intros x. apply hexDigit_hexChar. apply N.mod_lt. discriminate. }
  cbn [app].
  rewrite (lex_silent (LString acc) (LEscape acc)) by reflexivity.
  rewrite (lex_silent (LEscape acc) (LUnicode acc 4 0%N)) by reflexivity.
  rewrite (lex_silent _ (LUnicode acc 3 (0 * 16 + c / 4096 mod 16)%N))
    by (cbn [lexStep]; now rewrite Hd).
  rewrite (lex_silent _
             (LUnicode acc 2
                ((0 * 16 + c / 4096 mod 16) * 16 + c / 256 mod 16)%N))
    by (cbn [lexStep]; now rewrite Hd).
  rewrite (lex_silent _
             (LUnicode acc 1
                (((0 * 16 + c / 4096 mod 16) * 16 + c / 256 mod 16) * 16
                 + c / 16 mod 16)%N))
    by (cbn [lexStep]; now rewrite Hd).
  rewrite (lex_silent _ (LString (c :: acc))).
  - reflexivity.
  - cbn [lexStep]. rewrite Hd. now rewrite hex_digits_value.
Qed.

(** A character written as it is inside a string is read as itself. *)
Lemma lex_plain (c : N) (acc rest : jsstring) :
  (32 <= c)%N -> c <> 34%N -> c <> 92%N ->
  lex (LString acc) (c :: rest) = lex (LString (c :: acc)) rest.
Proof.
  intros H32 H34 H92. apply lex_silent. cbn [lexStep].
  rewrite (proj2 (N.eqb_neq c 34) H34), (proj2 (N.eqb_neq c 92) H92).
  now rewrite (proj2 (N.ltb_ge c 32) H32).
Qed.

Lemma lex_quoteChar (c : N) (acc rest : jsstring) :
  lex (LString acc) (quoteChar c ++ rest) = lex (LString (c :: acc)) rest.
Proof.
  assert (Hescape : forall letter e,
             escapeChar letter = Some e -> letter <> 117%N ->
             lex (LString acc) ([92%N; letter] ++ rest)
             = lex (LString (e :: acc)) rest).
  { intros letter e He Hu. cbn [app].
    rewrite (lex_silent (LString acc) (LEscape acc)) by reflexivity.
    apply lex_silent. cbn [lexStep].
    now rewrite (proj2 (N.eqb_neq letter 117) Hu), He. }
  unfold quoteChar.
  destruct (N.eqb_spec c 8) as [->|H8];
    [now apply (Hescape 98%N 8%N)|].
  destruct (N.eqb_spec c 9) as [->|H9];
    [now apply (Hescape 116%N 9%N)|].
  destruct (N.eqb_spec c 10) as [->|H10];
    [now apply (Hescape 110%N 10%N)|].
  destruct (N.eqb_spec c 12) as [->|H12];
    [now apply (Hescape 102%N 12%N)|].
  destruct (N.eqb_spec c 13) as [->|H13];
    [now apply (Hescape 114%N 13%N)|].
  destruct (N.eqb_spec c 34) as [->|H34];
    [now apply (Hescape 34%N 34%N)|].
  destruct (N.eqb_spec c 92) as [->|H92];
    [now apply (Hescape 92%N 92%N)|].
  destruct (N.ltb_spec c 32) as [H32|H32].
  - apply lex_unicodeEscape. lia.
  - now apply lex_plain.
Qed.

Lemma surrogate_bounds (c : N) :
  isHighSurrogate c = true \/ isLowSurrogate c = true ->
  (32 <= c)%N /\ c <> 34%N /\ c <> 92%N /\ (c < 65536)%N.
Proof.
  unfold isHighSurrogate, isLowSurrogate.
  intros [H|H]; apply andb_true_iff in H; destruct H as [H1 H2];
    apply N.leb_le in H1; apply N.leb_le in H2; lia.
Qed.

Lemma lex_quoteChars_bounded (n : nat) :
  forall s acc rest,
    length s <= n ->
    lex (LString acc) (quoteChars s ++ rest)
    = lex (LString (rev s ++ acc)) rest.
Proof.
  induction n as [|n IH]; intros s acc rest Hn.
  - destruct s; [reflexivity | simpl in Hn; lia].
  - destruct s as [|c r]; [reflexivity|]. simpl in Hn.
    assert (Hstep : forall acc', lex (LString acc') (quoteChars r ++ rest)
                                 = lex (LString (rev r ++ acc')) rest)
      by (intros acc'; apply IH; lia).
    cbn [quoteChars rev]. rewrite <- app_assoc. cbn [app].
    destruct (isHighSurrogate c) eqn:Hh.
    + destruct (surrogate_bounds c (or_introl Hh)) as (B1 & B2 & B3 & B4).
      destruct r as [|d r'].
      * rewrite lex_unicodeEscape by exact B4. reflexivity.
      * destruct (isLowSurrogate d) eqn:Hl.
        -- destruct (surrogate_bounds d (or_intror Hl)) as (D1 & D2 & D3 & _).
           cbn [app rev]. rewrite !lex_plain by assumption.
           rewrite <- !app_assoc. cbn [app]. apply IH. simpl in Hn. lia.
        -- rewrite <- app_assoc, lex_unicodeEscape by exact B4. apply Hstep.
    + destruct (isLowSurrogate c) eqn:Hl.
      * destruct (surrogate_bounds c (or_intror Hl)) as (_ & _ & _ & B4).
        rewrite <- app_assoc, lex_unicodeEscape by exact B4. apply Hstep.
      * rewrite <- app_assoc, lex_quoteChar. apply Hstep.
Qed.

Lemma lex_stringified_string (s rest : jsstring) :
  lex LIdle (JSON_stringify_string s ++ rest)
  = option_map (cons (TString s)) (lex LIdle rest).
Proof.
  unfold JSON_stringify_string. cbn [app].
  rewrite (lex_silent LIdle (LString [])) by reflexivity.
  rewrite <- app_assoc.
  rewrite (lex_quoteChars_bounded (length s) s [] _ (le_n _)).
  rewrite app_nil_r. simpl. now rewrite rev_involutive.
Qed.

Lemma lex_comma (rest : jsstring) :
  lex LIdle (lit "," ++ rest) = option_map (cons TComma) (lex LIdle rest).
Proof. reflexivity. Qed.

Lemma option_map_compose {A B C : Type} (f : A -> B) (g : B -> C)
    (o : option A) :
  option_map g (option_map f o) = option_map (fun x => g (f x)) o.
Proof. now destruct o. Qed.

Lemma lex_stringified_elements (l : list jsstring) (rest : jsstring) :
  lex LIdle (join (lit ",") (map JSON_stringify_string l) ++ rest)
  = option_map (app (stringTokens l)) (lex LIdle rest).
Proof.
  induction l as [|s l IH].
  - simpl. now destruct (lex LIdle rest).
  - destruct l as [|s' l'].
    + cbn [map join stringTokens]. rewrite lex_stringified_string.
      now destruct (lex LIdle rest).
    + change (join (lit ",") (map JSON_stringify_string (s :: s' :: l')))
        with (JSON_stringify_string s
                ++ lit "," ++ join (lit ",")
                                (map JSON_stringify_string (s' :: l'))).
      rewrite <- !app_assoc.
      rewrite lex_stringified_string, lex_comma, IH.
      rewrite !option_map_compose. reflexivity.
Qed.

Lemma parse_string_items (l : list jsstring) :
  forall acc stack rest,
    l <> [] ->
    parseTokens PValue (FArray acc :: stack)
      (stringTokens l ++ TRBracket :: rest)
    = parseTokens (PAfter (JArray (rev acc ++ map JString l))) stack rest.
Proof.
  induction l as [|s l IH]; intros acc stack rest Hl; [congruence|].
  destruct l as [|s' l'].
  - reflexivity.
  - change (stringTokens (s :: s' :: l'))
      with (TString s :: TComma :: stringTokens (s' :: l')).
    cbn [app parseTokens parseStep startValue].
    rewrite IH by discriminate. simpl rev. now rewrite <- app_assoc.
Qed.

(** An array of strings written by [JSON.stringify] is decoded by
    [JSON.parse] to the same strings. *)
Lemma JSON_parse_stringify_strings (l : list jsstring) :
  JSON_parse (JSON_stringify_strings l) = Some (JArray (map JString l)).
Proof.
  unfold JSON_parse, JSON_stringify_strings.
  change (lit "[" ++ join (lit ",") (map JSON_stringify_string l) ++ lit "]")
    with (91%N :: (join (lit ",") (map JSON_stringify_string l) ++ lit "]")).
  cbn [lex lexStep lexIdle isJsonWhiteSpace N.eqb Pos.eqb orb].
  rewrite lex_stringified_elements. simpl lex. simpl option_map.
  destruct l as [|s l]; [reflexivity|].
  cbn [app parseTokens parseStep startValue].
  destruct l as [|s' l'].
  - reflexivity.
  - change (stringTokens (s :: s' :: l'))
      with (TString s :: TComma :: stringTokens (s' :: l')).
    cbn [app parseTokens parseStep startValue].
    rewrite parse_string_items by discriminate. reflexivity.
Qed.

(** ** The keys and the form of the page *)

Lemma jsstring_eqb_eq (a b : jsstring) : jsstring_eqb a b = true <-> a = b.
Proof.
  revert b. induction a as [|x a IH]; intros [|y b]; simpl;
    try (split; [discriminate | discriminate]); [tauto|].
  rewrite andb_true_iff, N.eqb_eq, IH.
  split; [intros [-> ->]; reflexivity | intros H; injection H; auto].
Qed.

Lemma jsstring_eqb_refl (a : jsstring) : jsstring_eqb a a = true.
Proof. now apply jsstring_eqb_eq. Qed.

Lemma jsstring_eqb_neq (a b : jsstring) : jsstring_eqb a b = false <-> a <> b.
Proof.
  rewrite <- jsstring_eqb_eq. destruct (jsstring_eqb a b); split; congruence.
Qed.

Lemma clean_tokens_fixed (ks : list jsstring) :
  Forall cleanToken ks -> filter truthy (map trim ks) = ks.
Proof.
  induction 1 as [|k ks (Hk & _ & Ht) _ IH]; [reflexivity|].
  simpl. rewrite Ht, IH. apply truthy_not_nil in Hk. now rewrite Hk.
Qed.

Lemma parsedKeys_clean (st : Page.State) :
  Forall cleanToken (Page.parsedKeys st).
Proof.
  apply Forall_forall. intros k Hk.
  now apply (tokens_on_In Page.isInputSeparator) in Hk.
Qed.

Lemma parseClientKeys_stringified (l : list jsstring) :
  parseClientKeys (Some (EntryString (JSON_stringify_strings l)))
  = filter truthy (map trim l).
Proof.
  unfold parseClientKeys.
  replace (truthy (JSON_stringify_strings l)) with true by reflexivity.
  rewrite JSON_parse_stringify_strings, map_map. reflexivity.
Qed.

Lemma stringItems_strings (l : list jsstring) :
  stringItems (map JString l) = Some l.
Proof.
  induction l as [|s l IH]; [reflexivity|]. simpl. now rewrite IH.
Qed.

Lemma formData_getAll_app (a b : FormData) (field : jsstring) :
  formData_getAll (a ++ b) field
  = formData_getAll a field ++ formData_getAll b field.
Proof.
  induction a as [|[k v] a IH]; [reflexivity|]. simpl.
  destruct (jsstring_eqb k field); simpl; now rewrite IH.
Qed.

(** *** The conversion to a [USVString] *)

Example toUSVString_surrogates :
  toUSVString [97; 55357; 98; 55357; 56832; 56832; 55357]%N
  = [97; 65533; 98; 55357; 56832; 65533; 65533]%N.
Proof. reflexivity. Qed.

Lemma below_surrogates (c : N) :
  (c < 55296)%N -> isHighSurrogate c = false /\ isLowSurrogate c = false.
Proof.
  intros H. unfold isHighSurrogate, isLowSurrogate.
  split; apply andb_false_iff; left; apply N.leb_gt; lia.
Qed.

Lemma toUSVString_plain (c : N) (r : jsstring) :
  isHighSurrogate c = false -> isLowSurrogate c = false ->
  toUSVString (c :: r) = c :: toUSVString r.
Proof. intros Hh Hl. cbn [toUSVString]. now rewrite Hh, Hl. Qed.

Lemma usvClosed_nil : usvClosed [].
Proof. intros rest. reflexivity. Qed.

Lemma usvClosed_unit (c : N) :
  isHighSurrogate c = false -> isLowSurrogate c = false -> usvClosed [c].
Proof. intros Hh Hl rest. now apply toUSVString_plain. Qed.

Lemma usvClosed_pair (c d : N) :
  isHighSurrogate c = true -> isLowSurrogate d = true -> usvClosed [c; d].
Proof. intros Hh Hl rest. cbn [app toUSVString]. now rewrite Hh, Hl. Qed.

Lemma usvClosed_app (x y : jsstring) :
  usvClosed x -> usvClosed y -> usvClosed (x ++ y).
Proof.
  intros Hx Hy rest. now rewrite <- app_assoc, Hx, Hy, app_assoc.
Qed.

Lemma usvClosed_fixed (x : jsstring) : usvClosed x -> toUSVString x = x.
Proof.
  intros H. specialize (H []). rewrite app_nil_r in H.
  cbn [toUSVString] in H. now rewrite app_nil_r in H.
Qed.

Lemma usvClosed_below (x : jsstring) :
  Forall (fun c => (c < 55296)%N) x -> usvClosed x.
Proof.
  induction 1 as [|c x Hc _ IH]; [apply usvClosed_nil|].
  destruct (below_surrogates c Hc) as [Hh Hl].
  change (c :: x) with ([c] ++ x).
  apply usvClosed_app; [now apply usvClosed_unit | exact IH].
Qed.

(** The name of a field, an ASCII literal, is its own [USVString]. *)
Lemma toUSVString_lit (name : string) : toUSVString (lit name) = lit name.
Proof.
  apply usvClosed_fixed, usvClosed_below. unfold lit.
  apply Forall_forall. intros c Hc. apply in_map_iff in Hc.
  destruct Hc as (a & <- & _). pose proof (N_ascii_bounded a). lia.
Qed.

Lemma hexChar_below (d : N) : (d < 16)%N -> (hexChar d < 55296)%N.
Proof.
  intros H. unfold hexChar. destruct (d <? 10)%N; lia.
Qed.

Lemma usvClosed_unicodeEscape (c : N) : usvClosed (unicodeEscape c).
Proof.
  apply usvClosed_below. unfold unicodeEscape.
  repeat (apply Forall_cons;
          [first [lia | apply hexChar_below, N.mod_lt; discriminate]|]).
  apply Forall_nil.
Qed.

Lemma usvClosed_quoteChar (c : N) :
  isHighSurrogate c = false -> isLowSurrogate c = false ->
  usvClosed (quoteChar c).
Proof.
  intros Hh Hl. unfold quoteChar.
  repeat match goal with
         | |- usvClosed (if ?b then _ else _) => destruct b
         end;
    first [ apply usvClosed_unicodeEscape
          | now apply usvClosed_unit
          | apply usvClosed_below;
            repeat (apply Forall_cons; [reflexivity|]); apply Forall_nil ].
Qed.

Lemma usvClosed_quoteChars_bounded (n : nat) :
  forall s, length s <= n -> usvClosed (quoteChars s).
Proof.
  induction n as [|n IH]; intros s Hn.
  - destruct s; [apply usvClosed_nil | simpl in Hn; lia].
  - destruct s as [|c r]; [apply usvClosed_nil|]. simpl in Hn.
    cbn [quoteChars].
    destruct (isHighSurrogate c) eqn:Hh.
    + destruct r as [|d r']; [apply usvClosed_unicodeEscape|].
      simpl in Hn. destruct (isLowSurrogate d) eqn:Hl.
      * change (c :: d :: quoteChars r') with ([c; d] ++ quoteChars r').
        apply usvClosed_app; [now apply usvClosed_pair|]. apply IH. lia.
      * apply usvClosed_app; [apply usvClosed_unicodeEscape|].
        apply IH. simpl. lia.
    + destruct (isLowSurrogate c) eqn:Hl.
      * apply usvClosed_app; [apply usvClosed_unicodeEscape|].
        apply IH. lia.
      * apply usvClosed_app; [now apply usvClosed_quoteChar|].
        apply IH. lia.
Qed.

Lemma usvClosed_stringified_string (s : jsstring) :
  usvClosed (JSON_stringify_string s).
Proof.
  unfold JSON_stringify_string.
  change (34%N :: quoteChars s ++ [34%N])
    with ([34%N] ++ quoteChars s ++ [34%N]).
  repeat apply usvClosed_app;
    try (apply usvClosed_unit; reflexivity).
  now apply (usvClosed_quoteChars_bounded (length s)).
Qed.

Lemma usvClosed_join (sep : jsstring) (l : list jsstring) :
  usvClosed sep -> Forall usvClosed l -> usvClosed (join sep l).
Proof.
  intros Hsep H. induction H as [|x l Hx Hl IH]; [apply usvClosed_nil|].
  destruct l as [|y l]; [exact Hx|].
  change (join sep (x :: y :: l)) with (x ++ sep ++ join sep (y :: l)).
  now repeat apply usvClosed_app.
Qed.

(** What [JSON.stringify] writes for an array of strings holds no
    surrogate on its own: the form holds it as it was written. *)
Lemma toUSVString_stringified (l : list jsstring) :
  toUSVString (JSON_stringify_strings l) = JSON_stringify_strings l.
Proof.
  apply usvClosed_fixed. unfold JSON_stringify_strings.
  repeat apply usvClosed_app;
    try (apply usvClosed_unit; reflexivity).
  apply usvClosed_join; [apply usvClosed_unit; reflexivity|].
  apply Forall_forall. intros x Hx. apply in_map_iff in Hx.
  destruct Hx as (t & <- & _). apply usvClosed_stringified_string.
Qed.

Lemma surrogate_not_white (c : N) :
  isHighSurrogate c = true \/ isLowSurrogate c = true ->
  isWhiteSpace c = false.
Proof.
  unfold isHighSurrogate, isLowSurrogate, isWhiteSpace.
  intros [H|H]; apply andb_true_iff in H; destruct H as [H1 H2];
    apply N.leb_le in H1; apply N.leb_le in H2;
    repeat (apply orb_false_iff; split);
    first [ apply N.eqb_neq; lia
          | apply andb_false_iff; left; apply N.leb_gt; lia
          | apply andb_false_iff; right; apply N.leb_gt; lia ].
Qed.

Lemma blank_toUSVString_bounded (n : nat) :
  forall s, length s <= n -> blank (toUSVString s) = blank s.
Proof.
  unfold blank.
  induction n as [|n IH]; intros s Hn.
  - destruct s; [reflexivity | simpl in Hn; lia].
  - destruct s as [|c r]; [reflexivity|]. simpl in Hn.
    cbn [toUSVString].
    destruct (isHighSurrogate c) eqn:Hh.
    + pose proof (surrogate_not_white c (or_introl Hh)) as Hc.
      destruct r as [|d r']; [cbn [forallb]; now rewrite Hc|].
      simpl in Hn. destruct (isLowSurrogate d) eqn:Hl.
      * cbn [forallb]. now rewrite Hc.
      * cbn [forallb]. now rewrite Hc.
    + destruct (isLowSurrogate c) eqn:Hl.
      * pose proof (surrogate_not_white c (or_intror Hl)) as Hc.
        cbn [forallb]. now rewrite Hc.
      * cbn [forallb]. rewrite IH by lia. reflexivity.
Qed.

(** The conversion keeps a blank string blank, and no other. *)
Lemma blank_toUSVString (s : jsstring) : blank (toUSVString s) = blank s.
Proof. now apply (blank_toUSVString_bounded (length s)). Qed.

(** *** The fields of the form *)

Lemma images_of_form (l : list Page.SelectedImage) :
  onlyFiles
    (formData_getAll
       (map (fun image =>
               Page.appendFile "images" (Page.file image)
                 (File.name (Page.file image))) l)
       (lit "images"))
  = map sentFile l.
Proof.
  induction l as [|image l IH]; [reflexivity|].
  cbn [map formData_getAll Page.appendFile].
  replace (jsstring_eqb (toUSVString (lit "images")) (lit "images"))
    with true by reflexivity.
  cbn [onlyFiles]. now rewrite IH.
Qed.

Lemma form_get_images_only (l : list Page.SelectedImage) (field : string) :
  jsstring_eqb (lit "images") (lit field) = false ->
  formData_get
    (map (fun image =>
            Page.appendFile "images" (Page.file image)
              (File.name (Page.file image))) l)
    (lit field) = None.
Proof.
  intros H. induction l as [|image l IH]; [reflexivity|].
  cbn [map formData_get Page.appendFile].
  rewrite toUSVString_lit. now rewrite H.
Qed.

(** What the route finds in the form the page builds. *)
Lemma submitForm_fields (st : Page.State) :
  imageFiles (Page.submitForm st) = map sentFile (Page.images st)
  /\ formData_get (Page.submitForm st) (lit "prompts")
     = Some (EntryString (JSON_stringify_strings (Page.sentPrompts st)))
  /\ formData_get (Page.submitForm st) (lit "defaultPrompt")
     = Some (EntryString (toUSVString (Page.defaultPrompt st)))
  /\ formData_get (Page.submitForm st) (lit "model")
     = Some (EntryString (toUSVString (Page.model st)))
  /\ formData_get (Page.submitForm st) (lit "apiKeys")
     = if truthy_list (Page.parsedKeys st) then
         Some (EntryString (JSON_stringify_strings (Page.parsedKeys st)))
       else None.
Proof.
  unfold Page.submitForm, Page.appendText, imageFiles.
  rewrite !toUSVString_stringified, !toUSVString_lit.
  repeat split; try reflexivity.
  - assert (Hskip : forall k v rest,
               jsstring_eqb (lit k) (lit "images") = false ->
               formData_getAll ((lit k, v) :: rest) (lit "images")
               = formData_getAll rest (lit "images")).
    { intros k v rest H. cbn [formData_getAll]. now rewrite H. }
    cbn [app]. rewrite !Hskip by reflexivity.
    destruct (truthy_list (Page.parsedKeys st)); cbn [app];
      rewrite ?Hskip by reflexivity; apply images_of_form.
  - cbn [app formData_get].
    replace (jsstring_eqb (lit "defaultPrompt") (lit "apiKeys")) with false
      by reflexivity.
    replace (jsstring_eqb (lit "model") (lit "apiKeys")) with false
      by reflexivity.
    replace (jsstring_eqb (lit "prompts") (lit "apiKeys")) with false
      by reflexivity.
    destruct (truthy_list (Page.parsedKeys st)); cbn [app formData_get].
    + now replace (jsstring_eqb (lit "apiKeys") (lit "apiKeys")) with true
        by reflexivity.
    + now apply form_get_images_only.
Qed.

Lemma submitForm_pool (env : ProcessEnv) (st : Page.State) :
  allKeysOf env (Page.submitForm st) = pagePool env st.
Proof.
  unfold allKeysOf, pagePool.
  destruct (submitForm_fields st) as (_ & _ & _ & _ & ->).
  destruct (Page.parsedKeys st) as [|k ks] eqn:E; [reflexivity|].
  cbn [truthy_list]. rewrite parseClientKeys_stringified.
  rewrite clean_tokens_fixed; [reflexivity|].
  rewrite <- E. apply parsedKeys_clean.
Qed.

Lemma submitForm_prompts (st : Page.State) :
  promptStrings (Page.submitForm st) = Some (Page.sentPrompts st).
Proof.
  unfold promptStrings.
  destruct (submitForm_fields st) as (_ & -> & _).
  rewrite JSON_parse_stringify_strings. apply stringItems_strings.
Qed.

Lemma submitForm_valid (env : ProcessEnv) (st : Page.State) :
  Page.images st <> [] -> pagePool env st <> [] ->
  validBatch env (Page.submitForm st) (Page.sentPrompts st).
Proof.
  intros Himg Hpool.
  destruct (submitForm_fields st) as (Hfiles & _ & Hd & Hm & _).
  unfold validBatch, isTextField. rewrite Hfiles, Hd, Hm.
  rewrite submitForm_prompts, submitForm_pool.
  repeat split; trivial.
  destruct (Page.images st); [congruence | discriminate].
Qed.

Lemma input_separator_false (c : N) :
  Page.isInputSeparator c = false <-> c <> 10%N /\ c <> 44%N.
Proof.
  unfold Page.isInputSeparator.
  rewrite orb_false_iff, !N.eqb_neq. tauto.
Qed.

(** X12: every key the page parses from its keys input is not empty, is
    trimmed and holds no line feed and no comma; and keys of that kind,
    typed with any non-empty run of line feeds and commas between them, are
    parsed back as the same keys in the same order. *)
Theorem X12_page_keys_are_the_lines_of_the_input (st : Page.State) :
  Forall (fun k => cleanToken k /\ forall c, In c k -> c <> 10%N /\ c <> 44%N)
    (Page.parsedKeys st)
  /\ forall seps ks,
       seps <> [] ->
       forallb Page.isInputSeparator seps = true ->
       Forall (fun k => cleanToken k
                        /\ forall c, In c k -> c <> 10%N /\ c <> 44%N) ks ->
       Page.apiKeysInput st = join seps ks ->
       Page.parsedKeys st = ks.
Proof.
  split.
  - apply Forall_forall. intros k Hk.
    apply (tokens_on_In Page.isInputSeparator) in Hk.
    destruct Hk as [Hc Hs]. split; [exact Hc|].
    intros c Hin. apply input_separator_false. now apply Hs.
  - intros seps ks Hne Hseps Hks Hinput. unfold Page.parsedKeys.
    rewrite Hinput. apply tokens_on_join; trivial.
    apply Forall_forall. intros k Hk.
    destruct (proj1 (Forall_forall _ _) Hks k Hk) as [(Hn & _ & Ht) Hs].
    repeat split; trivial.
    intros c Hin. apply input_separator_false. now apply Hs.
Qed.

Lemma X12_page_keys_are_the_lines_of_the_input_witness :
  Page.parsedKeys
    {| Page.images := [];
       Page.defaultPrompt := Page.DEFAULT_PROMPT;
       Page.apiKeysInput := join [10; 44; 10]%N [lit "key one"; lit "key;2"];
       Page.model := Page.DEFAULT_MODEL;
       Page.isSubmitting := false;
       Page.errorMessage := None;
       Page.results := [] |}
  = [lit "key one"; lit "key;2"].
Proof.
  apply (proj2 (X12_page_keys_are_the_lines_of_the_input _)
           [10; 44; 10]%N [lit "key one"; lit "key;2"]);
    try reflexivity; try discriminate.
  apply Forall_cons; [|apply Forall_cons; [|apply Forall_nil]];
    (split;
     [ repeat split; try discriminate; reflexivity
     | intros c H; simpl in H;
       repeat (destruct H as [<-|H]; [split; discriminate|]);
       contradiction ]).
Defined.

(** X13: the keys the route reads from the form the page builds are
    exactly the keys the page parsed, in the same order (none when the page
    parsed none and sent no field), so that the pool of the request is the
    operator's tokens followed by the page's keys. *)
Theorem X13_route_reads_back_the_keys_of_the_page
    (env : ProcessEnv) (st : Page.State) :
  parseClientKeys (formData_get (Page.submitForm st) (lit "apiKeys"))
  = Page.parsedKeys st
  /\ allKeysOf env (Page.submitForm st)
     = getEnvKeys env ++ Page.parsedKeys st.
Proof.
  split; [|apply submitForm_pool].
  pose proof (submitForm_pool {| GOOGLE_API_KEYS := None;
                                 GOOGLE_API_KEY := None |} st) as H.
  exact H.
Qed.

Lemma firstNonBlank_pair (own fallbackText literal : jsstring) :
  trimmedOr (Some (if truthy own then own else fallbackText))
    (trimmedOr (Some fallbackText) literal)
  = firstNonBlank [own; fallbackText] literal.
Proof.
  destruct own as [|c r]; simpl.
  - now destruct (blank fallbackText).
  - reflexivity.
Qed.

Lemma submitForm_effectivePrompt (st : Page.State) (i : nat)
    (image : Page.SelectedImage) :
  nth_error (Page.images st) i = Some image ->
  effectivePrompt (Page.submitForm st) (Page.sentPrompts st) i
  = firstNonBlank
      [Page.prompt image;
       if truthy (Page.prompt image)
       then toUSVString (Page.defaultPrompt st)
       else Page.defaultPrompt st]
      defaultPromptLiteral.
Proof.
  intros H. unfold effectivePrompt, batchDefault, fieldText, Page.sentPrompts.
  destruct (submitForm_fields st) as (_ & _ & -> & _).
  rewrite nth_error_map, H. cbn [option_map].
  destruct (Page.prompt image) as [|c r].
  - cbn [truthy trimmedOr firstNonBlank]. rewrite blank_toUSVString.
    destruct (blank (Page.defaultPrompt st)); reflexivity.
  - apply (firstNonBlank_pair (c :: r)
             (toUSVString (Page.defaultPrompt st))).
Qed.

(** X14: the route, given the form the page builds as the page builds it,
    never throws.  Without an image it answers 400 with the no-images
    message; with an image and an empty pool, 400 with the no-credentials
    message; otherwise 200 with one entry per image of the page, in order.
    The form holds its strings as [FormData.append] stores them, a
    surrogate on its own replaced by U+FFFD, so each entry has the name of
    the image's file converted in that way and, as its prompt, the trimmed
    prompt of the image when it is not blank, else the trimmed default
    prompt of the page when that is not blank, else the route's own default
    prompt; the default prompt of the page is read from the prompts array,
    and so as the page holds it, when the prompt of the image is empty, and
    from the default-prompt field, and so converted, when the prompt of the
    image is blank without being empty. *)
Theorem X14_route_answers_the_form_of_the_page
    (env : ProcessEnv) (w : World) (st : Page.State) :
  (Page.images st = [] ->
   serve env w (Page.submitForm st)
   = (emptyState,
      Resolved {| status := 400; body := ErrorBody noImagesMessage |}))
  /\ (Page.images st <> [] -> pagePool env st = [] ->
      serve env w (Page.submitForm st)
      = (emptyState,
         Resolved {| status := 400; body := ErrorBody noKeysMessage |}))
  /\ (Page.images st <> [] -> pagePool env st <> [] ->
      exists entries,
        snd (serve env w (Page.submitForm st))
        = Resolved {| status := 200; body := ResultsBody entries |}
        /\ length entries = length (Page.images st)
        /\ forall i image,
             nth_error (Page.images st) i = Some image ->
             exists e,
               nth_error entries i = Some e
               /\ ResultEntry.filename e
                  = toUSVString (File.name (Page.file image))
               /\ ResultEntry.prompt e
                  = firstNonBlank
                      [Page.prompt image;
                       if truthy (Page.prompt image)
                       then toUSVString (Page.defaultPrompt st)
                       else Page.defaultPrompt st]
                      defaultPromptLiteral).
Proof.
  destruct (submitForm_fields st) as (Hfiles & Hp & Hd & Hm & _).
  pose proof (submitForm_pool env st) as Hpool.
  assert (Hparse : JSON_parse (promptsText (Page.submitForm st))
                   = Some (JArray (map JString (Page.sentPrompts st)))).
  { unfold promptsText. rewrite Hp. apply JSON_parse_stringify_strings. }
  split; [|split].
  - intros Himg. rewrite serve_unfold, Hfiles, Himg. reflexivity.
  - intros Himg Hempty. rewrite serve_unfold, Hfiles, Hparse.
    unfold isTextField. rewrite Hd, Hm, Hpool, Hempty.
    destruct (Page.images st); [congruence | reflexivity].
  - intros Himg Hne.
    pose proof (submitForm_valid env st Himg Hne) as Hvalid.
    rewrite (serve_valid env w _ _ Hvalid). cbn [snd].
    eexists. split; [reflexivity|]. split.
    + rewrite batch_entries_length, Hfiles. apply length_map.
    + intros i image Hi. rewrite batch_entry_nth, Hfiles, nth_error_map, Hi.
      cbn [option_map].
      destruct (itemRun_entry w (allKeysOf env (Page.submitForm st))
                  (batchModel (Page.submitForm st)) i (sentFile image)
                  (effectivePrompt (Page.submitForm st)
                     (Page.sentPrompts st) i))
        as (e & He & Hname & Hprompt & _).
      exists e. rewrite He. repeat split; trivial.
      rewrite Hprompt. now apply submitForm_effectivePrompt.
Qed.

Lemma X14_route_answers_the_form_of_the_page_witness :
  let st :=
    {| Page.images :=
         [{| Page.id := lit "1";
             Page.file := {| File.name := [97; 55357; 46; 112; 110; 103]%N;
                             File.type := lit "image/png";
                             File.bytes := [] |};
             Page.prompt := lit "   "; Page.preview := lit "blob:1" |}];
       Page.defaultPrompt := [32; 56832; 68; 101; 115; 99; 32]%N;
       Page.apiKeysInput := lit "k1";
       Page.model := lit "";
       Page.isSubmitting := false;
       Page.errorMessage := None;
       Page.results := [] |} in
  exists entries,
    snd (serve {| GOOGLE_API_KEYS := None; GOOGLE_API_KEY := None |}
           (exampleWorld (fun i => goodItem "u" "files/a" "A trumpet"))
           (Page.submitForm st))
    = Resolved {| status := 200; body := ResultsBody entries |}
    /\ length entries = 1
    /\ forall i image,
         nth_error (Page.images st) i = Some image ->
         exists e,
           nth_error entries i = Some e
           /\ ResultEntry.filename e
              = toUSVString (File.name (Page.file image))
           /\ ResultEntry.prompt e
              = firstNonBlank
                  [Page.prompt image;
                   if truthy (Page.prompt image)
                   then toUSVString (Page.defaultPrompt st)
                   else Page.defaultPrompt st]
                  defaultPromptLiteral.
Proof.
  intros st.
  apply (proj2 (proj2 (X14_route_answers_the_form_of_the_page
                         {| GOOGLE_API_KEYS := None; GOOGLE_API_KEY := None |}
                         (exampleWorld
                            (fun i => goodItem "u" "files/a" "A trumpet"))
                         st)));
    discriminate.
Defined.

(** ** The handlers of the page *)

Lemma setImages_setImages (f g : list Page.SelectedImage ->
                                 list Page.SelectedImage) (st : Page.State) :
  Page.setImages f (Page.setImages g st)
  = Page.setImages (fun l => f (g l)) st.
Proof. reflexivity. Qed.

Lemma setImages_ext (f g : list Page.SelectedImage ->
                            list Page.SelectedImage) (st : Page.State) :
  f (Page.images st) = g (Page.images st) ->
  Page.setImages f st = Page.setImages g st.
Proof. unfold Page.setImages. now intros ->. Qed.

(** X15: [updatePrompt] gives the new prompt to every image with the given
    identifier and leaves every other image, the identifiers, files and
    previews, the order and the rest of the state as they were; a second
    update of the same identifier replaces the first, and updates of
    different identifiers can be made in either order. *)
Theorem X15_updatePrompt_changes_only_that_prompt
    (target value : jsstring) (st : Page.State) :
  let st' := Page.updatePrompt target value st in
  map Page.id (Page.images st') = map Page.id (Page.images st)
  /\ map Page.file (Page.images st') = map Page.file (Page.images st)
  /\ map Page.preview (Page.images st') = map Page.preview (Page.images st)
  /\ (forall i image,
        nth_error (Page.images st) i = Some image ->
        exists image',
          nth_error (Page.images st') i = Some image'
          /\ (Page.id image = target -> Page.prompt image' = value)
          /\ (Page.id image <> target -> image' = image))
  /\ (forall value',
        Page.updatePrompt target value' st'
        = Page.updatePrompt target value' st)
  /\ (forall other value',
        other <> target ->
        Page.updatePrompt other value' st'
        = Page.updatePrompt target value (Page.updatePrompt other value' st))
  /\ (Page.defaultPrompt st', Page.apiKeysInput st', Page.model st',
      Page.isSubmitting st', Page.errorMessage st', Page.results st')
     = (Page.defaultPrompt st, Page.apiKeysInput st, Page.model st,
        Page.isSubmitting st, Page.errorMessage st, Page.results st).
Proof.
  intros st'. unfold st', Page.updatePrompt.
  repeat split; cbn [Page.images Page.setImages].
  - rewrite map_map. apply map_ext. intros a.
    now destruct (jsstring_eqb (Page.id a) target).
  - rewrite map_map. apply map_ext. intros a.
    now destruct (jsstring_eqb (Page.id a) target).
  - rewrite map_map. apply map_ext. intros a.
    now destruct (jsstring_eqb (Page.id a) target).
  - intros i image Hi. rewrite nth_error_map, Hi. cbn [option_map].
    eexists. split; [reflexivity|]. split.
    + intros <-. now rewrite jsstring_eqb_refl.
    + intros Hne. apply jsstring_eqb_neq in Hne. now rewrite Hne.
  - intros value'. rewrite setImages_setImages. apply setImages_ext.
    rewrite map_map. apply map_ext. intros a.
    destruct (jsstring_eqb (Page.id a) target) eqn:E; cbn [Page.id];
      now rewrite E.
  - intros other value' Hne. rewrite !setImages_setImages.
    apply setImages_ext. rewrite !map_map. apply map_ext. intros a.
    destruct (jsstring_eqb (Page.id a) target) eqn:E;
      destruct (jsstring_eqb (Page.id a) other) eqn:E';
      cbn [Page.id]; rewrite ?E, ?E'; try reflexivity.
    apply jsstring_eqb_eq in E, E'. congruence.
Qed.

Lemma filter_all {A : Type} (f : A -> bool) (l : list A) :
  (forall x, In x l -> f x = true) -> filter f l = l.
Proof.
  intros H. apply forallb_filter_id. now apply forallb_forall.
Qed.

Lemma find_unique (target : jsstring) (l : list Page.SelectedImage) :
  NoDup (map Page.id l) ->
  forall image,
    In image l -> Page.id image = target ->
    find (fun x => jsstring_eqb (Page.id x) target) l = Some image
    /\ S (length
            (filter (fun x => negb (jsstring_eqb (Page.id x) target)) l))
       = length l.
Proof.
  induction l as [|a l IH]; intros Hnd image Hin Hid; [contradiction|].
  simpl in Hnd. inversion Hnd as [|x xs Hnotin Hnd']; subst x xs.
  simpl. destruct Hin as [->|Hin].
  - rewrite Hid, jsstring_eqb_refl. simpl. split; [reflexivity|].
    f_equal. rewrite filter_all; [reflexivity|].
    intros x Hx. apply negb_true_iff. apply jsstring_eqb_neq.
    intros Heq. apply Hnotin. rewrite Hid, <- Heq. now apply in_map.
  - assert (Hne : jsstring_eqb (Page.id a) target = false).
    { apply jsstring_eqb_neq. intros Heq. apply Hnotin.
      rewrite Heq, <- Hid. now apply in_map. }
    rewrite Hne. simpl.
    destruct (IH Hnd' image Hin Hid) as [-> Hlen]. now rewrite Hlen.
Qed.

(** X16: [removeImage] leaves no image with the given identifier and keeps
    the other images; when no image has the identifier, the state is
    unchanged and no URL is revoked; when the identifiers are distinct and
    an image has the identifier, exactly that image goes and exactly its
    preview URL is revoked. *)
Theorem X16_removeImage_removes_that_image_and_revokes_its_preview
    (target : jsstring) (st : Page.State) :
  let st' := fst (Page.removeImage target st) in
  let revoked := snd (Page.removeImage target st) in
  (forall image,
      In image (Page.images st')
      <-> In image (Page.images st) /\ Page.id image <> target)
  /\ ~ In target (map Page.id (Page.images st'))
  /\ (~ In target (map Page.id (Page.images st)) ->
      st' = st /\ revoked = [])
  /\ (NoDup (map Page.id (Page.images st)) ->
      forall image,
        In image (Page.images st) -> Page.id image = target ->
        revoked = [Page.preview image]
        /\ S (length (Page.images st')) = length (Page.images st)).
Proof.
  intros st' revoked. unfold st', revoked, Page.removeImage.
  cbn [fst snd Page.images Page.setImages].
  split; [|split; [|split]].
  - intros image. rewrite filter_In, negb_true_iff, jsstring_eqb_neq. tauto.
  - intros H. apply in_map_iff in H. destruct H as (image & Hid & Hin).
    apply filter_In in Hin. destruct Hin as [_ Hin].
    apply negb_true_iff, jsstring_eqb_neq in Hin. contradiction.
  - intros Hno.
    assert (Hall : forall x, In x (Page.images st) ->
                             jsstring_eqb (Page.id x) target = false).
    { intros x Hx. apply jsstring_eqb_neq. intros Heq. apply Hno.
      rewrite <- Heq. now apply in_map. }
    split.
    + destruct st as [imgs d a m sub err res]. unfold Page.setImages.
      cbn [Page.images] in *. f_equal.
      apply filter_all. intros x Hx. now rewrite (Hall x Hx).
    + destruct (find _ (Page.images st)) as [found|] eqn:E; [|reflexivity].
      apply find_some in E. destruct E as [Hin Heq].
      rewrite (Hall found Hin) in Heq. discriminate.
  - intros Hnd image Hin Hid.
    destruct (find_unique target (Page.images st) Hnd image Hin Hid)
      as [-> Hlen].
    now split.
Qed.

Lemma X16_removeImage_removes_that_image_and_revokes_its_preview_witness :
  let one :=
    {| Page.id := lit "1"; Page.file := pngFile "a.png";
       Page.prompt := lit "p"; Page.preview := lit "blob:1" |} in
  let two :=
    {| Page.id := lit "2"; Page.file := pngFile "b.png";
       Page.prompt := lit "q"; Page.preview := lit "blob:2" |} in
  let st := Page.setImages (fun _ => [one; two]) Page.initial in
  snd (Page.removeImage (lit "2") st) = [lit "blob:2"]
  /\ S (length (Page.images (fst (Page.removeImage (lit "2") st)))) = 2.
Proof.
  intros one two st.
  destruct (X16_removeImage_removes_that_image_and_revokes_its_preview
              (lit "2") st) as (_ & _ & _ & H).
  apply (H ltac:(repeat constructor; simpl; intros K;
                 repeat (destruct K as [K|K]; [discriminate|]);
                 contradiction)
           two).
  - right. now left.
  - reflexivity.
Defined.

Lemma combine_seq_snd {A : Type} (l : list A) :
  forall start, map snd (combine (seq start (length l)) l) = l.
Proof.
  induction l as [|a l IH]; intros start; [reflexivity|].
  simpl. now rewrite IH.
Qed.

Lemma combine_seq_fst {A : Type} (l : list A) :
  forall start,
    map fst (combine (seq start (length l)) l) = seq start (length l).
Proof.
  induction l as [|a l IH]; intros start; [reflexivity|].
  simpl. now rewrite IH.
Qed.

(** X17: [handleFiles] appends one image per picked file, in the order of
    the files, after the images already there; each new image has the
    default prompt of the page as its prompt and the identifier and the
    preview URL the browser gave for its file; without a file list, or with
    an empty one, nothing changes. *)
Theorem X17_handleFiles_appends_the_picked_files
    (fresh : nat -> jsstring * jsstring) (fileList : option (list File.t))
    (st : Page.State) :
  let files := nullish_or fileList [] in
  let st' := Page.handleFiles fresh fileList st in
  (files = [] -> st' = st)
  /\ exists next,
       Page.images st' = Page.images st ++ next
       /\ map Page.file next = files
       /\ Forall (fun image => Page.prompt image = Page.defaultPrompt st) next
       /\ map Page.id next
          = map (fun k => fst (fresh k)) (seq 0 (length files))
       /\ map Page.preview next
          = map (fun k => snd (fresh k)) (seq 0 (length files))
       /\ (Page.defaultPrompt st', Page.apiKeysInput st', Page.model st',
           Page.isSubmitting st', Page.errorMessage st', Page.results st')
          = (Page.defaultPrompt st, Page.apiKeysInput st, Page.model st,
             Page.isSubmitting st, Page.errorMessage st, Page.results st).
Proof.
  intros files st'. unfold files, st', Page.handleFiles.
  destruct fileList as [[|f fs]|]; cbn [nullish_or].
  - split; [reflexivity|]. exists []. rewrite app_nil_r.
    repeat split; constructor.
  - split; [discriminate|]. eexists. split; [reflexivity|].
    set (l := f :: fs).
    repeat split.
    + rewrite map_map. cbn [Page.file]. apply (combine_seq_snd l 0).
    + apply Forall_forall. intros image Hin.
      apply in_map_iff in Hin. now destruct Hin as (kf & <- & _).
    + rewrite map_map. cbn [Page.id].
      rewrite <- (combine_seq_fst l 0) at 2. now rewrite map_map.
    + rewrite map_map. cbn [Page.preview].
      rewrite <- (combine_seq_fst l 0) at 2. now rewrite map_map.
  - split; [reflexivity|]. exists []. rewrite app_nil_r.
    repeat split; constructor.
Qed.

(** X18: [handleSubmit] without an image sends nothing and only sets the
    no-selection message.  With an image it sends exactly one form, the one
    built from the state, and ends with [isSubmitting] off and the images
    and settings unchanged; then either the answer was read and the state
    holds its entries and no error message, or something was thrown and the
    state holds its message and no entries. *)
Theorem X18_handleSubmit_ends_with_entries_or_with_an_error
    (fetch : FormData -> Outcome Page.HttpResponse) (st : Page.State) :
  let st' := fst (Page.handleSubmit fetch st) in
  let sent := snd (Page.handleSubmit fetch st) in
  (Page.images st = [] ->
   sent = []
   /\ st' = Page.setErrorMessage (Some Page.noSelectionMessage) st)
  /\ (Page.images st <> [] ->
      sent = [Page.submitForm st]
      /\ Page.isSubmitting st' = false
      /\ (Page.images st', Page.defaultPrompt st', Page.apiKeysInput st',
          Page.model st')
         = (Page.images st, Page.defaultPrompt st, Page.apiKeysInput st,
            Page.model st)
      /\ ((exists entries,
              Page.readAnswer (fetch (Page.submitForm st)) = Resolved entries
              /\ Page.results st' = entries
              /\ Page.errorMessage st' = None)
          \/ (exists e,
                 Page.readAnswer (fetch (Page.submitForm st)) = Rejected e
                 /\ Page.results st' = []
                 /\ Page.errorMessage st' = Some (Page.messageOf e)))).
Proof.
  intros st' sent. unfold st', sent, Page.handleSubmit.
  destruct (Page.images st) as [|image rest] eqn:Himg.
  - split; [intros _; now split | congruence].
  - split; [discriminate|]. intros _. cbn [fst snd].
    destruct (Page.readAnswer (fetch (Page.submitForm st))) as [entries|e];
      cbn; rewrite Himg; repeat split.
    + left. now exists entries.
    + right. now exists e.
Qed.

Lemma X18_handleSubmit_ends_with_entries_or_with_an_error_witness :
  let st :=
    Page.setImages
      (fun _ => [{| Page.id := lit "1"; Page.file := pngFile "a.png";
                    Page.prompt := lit "p"; Page.preview := lit "blob:1" |}])
      Page.initial in
  let fetch := fun _ : FormData =>
    Resolved {| Page.ok := false;
                Page.json :=
                  Resolved (Page.PayloadValue (Some noKeysMessage) None) |} in
  snd (Page.handleSubmit fetch st) = [Page.submitForm st]
  /\ Page.isSubmitting (fst (Page.handleSubmit fetch st)) = false.
Proof.
  intros st fetch.
  destruct (X18_handleSubmit_ends_with_entries_or_with_an_error fetch st)
    as (_ & H).
  destruct (H ltac:(discriminate)) as (Hs & Hi & _).
  now split.
Defined.

(** ** No call is made twice *)

(** X19: in a valid batch, between the staging of the file of an image and
    its removal there is either no call on the service, or one upload, or
    one upload followed by one generation call with the same key: no call
    is repeated, and no generation is asked for without an upload before
    it. *)
Theorem X19_at_most_one_upload_then_one_generation
    (env : ProcessEnv) (w : World) (formData : FormData)
    (ps : list jsstring) (i : nat) (file : File.t) :
  validBatch env formData ps ->
  nth_error (imageFiles formData) i = Some file ->
  let path := tempPathOf w i file in
  let key := pickKey (allKeysOf env formData) (random (item w i)) in
  exists segments calls,
    trace (fst (serve env w formData)) = concat segments
    /\ length segments = length (imageFiles formData)
    /\ nth_error segments i
       = Some (WriteFile path (File.bytes file) :: calls ++ [Unlink path])
    /\ (calls = []
        \/ calls = [Upload key path]
        \/ exists uri mimeType,
             calls
             = [Upload key path;
                GenerateContent key (batchModel formData)
                  (effectivePrompt formData ps i) uri mimeType]).
Proof.
  intros Hvalid Hfile path key.
  destruct (batch_item env w formData ps i file Hvalid Hfile)
    as [_ (segments & Ht & Hl & Hn)].
  exists segments.
  assert (H : exists calls,
             trace (itemRun w (allKeysOf env formData) (batchModel formData)
                      i file (effectivePrompt formData ps i))
             = WriteFile path (File.bytes file) :: calls ++ [Unlink path]
             /\ (calls = []
                 \/ calls = [Upload key path]
                 \/ exists uri mimeType,
                      calls
                      = [Upload key path;
                         GenerateContent key (batchModel formData)
                           (effectivePrompt formData ps i) uri mimeType])).
  { unfold path, key.
    item_cases (item w i) up;
      solve [ exists []; split; [reflexivity | now left]
            | eexists [_]; split; [reflexivity | right; now left]
            | eexists [_; _]; split;
              [reflexivity | right; right; now eexists _, _] ]. }
  destruct H as (calls & Hc & Hshape).
  exists calls. rewrite Hn, Hc. now repeat split.
Qed.

Lemma X19_at_most_one_upload_then_one_generation_witness :
  let w := exampleWorld (fun i => goodItem "u" "files/a" "A trumpet") in
  exists segments calls,
    trace (fst (serve exampleEnv w [image "a.png"])) = concat segments
    /\ length segments = 1
    /\ nth_error segments 0
       = Some (WriteFile (lit "/tmp/u-a.png") [137; 80; 78; 71]%N
                 :: calls ++ [Unlink (lit "/tmp/u-a.png")])
    /\ (calls = []
        \/ calls = [Upload (Some (lit "k")) (lit "/tmp/u-a.png")]
        \/ exists uri mimeType,
             calls
             = [Upload (Some (lit "k")) (lit "/tmp/u-a.png");
                GenerateContent (Some (lit "k")) (lit "gemini-2.5-flash")
                  defaultPromptLiteral uri mimeType]).
Proof.
  intros w.
  apply (X19_at_most_one_upload_then_one_generation exampleEnv w
           [image "a.png"] [] 0 (pngFile "a.png")).
  - repeat split; try reflexivity; discriminate.
  - reflexivity.
Defined.

(** ** The prompts, written by the page and read by the route *)

(** X20: an array of strings written by [JSON.stringify] is decoded by
    [JSON.parse] to the same strings, whatever code units they hold (quotes,
    backslashes, control characters, surrogates on their own); so the
    prompts the route decodes from the form of the page are the prompts the
    page sent, one per image: the prompt of the image, or the default
    prompt of the page when the prompt of the image is empty. *)
Theorem X20_prompts_of_the_page_are_decoded_as_sent :
  (forall l : list jsstring,
      JSON_parse (JSON_stringify_strings l) = Some (JArray (map JString l)))
  /\ forall st : Page.State,
       promptStrings (Page.submitForm st) = Some (Page.sentPrompts st)
       /\ length (Page.sentPrompts st) = length (Page.images st)
       /\ forall i image,
            nth_error (Page.images st) i = Some image ->
            nth_error (Page.sentPrompts st) i
            = Some (if truthy (Page.prompt image) then Page.prompt image
                    else Page.defaultPrompt st).
Proof.
  split; [exact JSON_parse_stringify_strings|].
  intros st. split; [apply submitForm_prompts|]. split.
  - apply length_map.
  - intros i image H. unfold Page.sentPrompts. now rewrite nth_error_map, H.
Qed.
